(** * Verification of the thumbnail table of the lighttable and filmstrip

    Shallow embedding of [src/dtgtk/thumbtable.c]: the position-indexed
    look-up table of the collection ([table->lut]), the linked list of
    allocated thumbnails ([table->list]), the layout of thumbnails on the
    grid, the window of row ids kept alive around the viewport, the
    populate / garbage-collect / resize cycle of [dt_thumbtable_update],
    the rebuild of the look-up table when the collection changes, the
    keyboard moves of [_move_in_grid], the sizing of the grid by
    [dt_thumbtable_configure], and the callbacks Gtk runs on a draw, a
    scroll, a change of the hovered image and a key press.

    Conventions of the embedding.
    - A C [int] is a [Z]; [/] and [%] of C are [Z.quot] and [Z.rem]
      (truncation towards zero).  The [int] products and sums of
      [_rowid_to_position], [dt_thumbtable_scroll_to_imgid] and
      [_update_grid_area] are kept on 32 bits, as the build computes them
      ([int_wrap]).  The window and the visibility test
      ([_get_row_ids], [_is_rowid_visible]) and the offsets of the moves
      work on the values of the adjustments and on row ids, and are
      computed on [Z].
    - A [float] is a binary32: the conversion of an [int] and the quotient
      and product of two [float] round to the nearest value of 24
      significant bits, ties to even; the conversion of a [float] out of
      the range of [int] to [int] is a [Fault].
    - The struct [dt_thumbtable_t] is declared in [thumbtable.h]; its
      integer fields ([collection_count], [min_row_id], [max_row_id],
      [thumb_nb], the sizes) are read as [int].
    - A pointer to a thumbnail is a slot number of an arena [mem] that never
      hands out a slot twice; a destroyed thumbnail leaves an empty slot.
      [table->list] and [table->lut] hold such pointers, so that both see
      the same object, as in the source; [None] is the NULL pointer.
    - Whether [malloc] gives memory for a thumbnail is read from
      [heap_script], a field the C struct does not have: the answers of the
      allocator to the requests to come.
    - What C leaves undefined (reading [lut] out of its bounds or through a
      NULL pointer, touching a destroyed thumbnail, dividing by zero) and a
      failed [assert] make the embedded function return a [Fault].
    - [table->lock] guards sections of a single control flow; it has no
      effect on the values computed and is left out, like the Gtk calls that
      only draw. *)

From Stdlib Require Import ZArith Lia Bool List.
From stdpp Require Import base option list.

Local Open Scope Z_scope.

(** ** Faults and the result monad *)

Inductive fault : Type :=
  | NullPointer
  | OutOfBounds
  | UseAfterFree
  | AssertionFailed
  | DivisionByZero
  | FloatToIntUndefined.

Inductive result (A : Type) : Type :=
  | Ok (a : A)
  | Fault (f : fault).

Arguments Ok {A} a.
Arguments Fault {A} f.

#[global] Instance result_ret : MRet result := fun A a => Ok a.

#[global] Instance result_bind : MBind result :=
  fun A B f m => match m with Ok a => f a | Fault e => Fault e end.

(** ** Data model *)

Inductive dt_thumbtable_mode_t : Type :=
  | DT_THUMBTABLE_MODE_NONE
  | DT_THUMBTABLE_MODE_FILEMANAGER
  | DT_THUMBTABLE_MODE_FILMSTRIP.

(** The fields of [dt_thumbnail_t] the table reads and writes. *)
Record dt_thumbnail_t : Type := {
  th_imgid : Z;
  th_rowid : Z;
  th_width : Z;
  th_height : Z;
  th_x : Z;
  th_y : Z;
  th_mouse_over : bool
}.

Definition ptr : Type := nat.

(** One cell of [table->lut]. *)
Record dt_thumbtable_cache_t : Type := {
  lut_imgid : Z;
  lut_thumb : option ptr
}.

(** What the table reads of a [GtkAdjustment], already truncated to [int]
    as the source does on reading. *)
Record GtkAdjustment : Type := {
  adj_value : Z;
  adj_page_size : Z
}.

Record dt_thumbtable_t : Type := {
  mode : dt_thumbtable_mode_t;
  tlist : list (option ptr);               (* table->list; None is a NULL link *)
  mem : list (option dt_thumbnail_t);      (* the thumbnails pointed to *)
  thumb_nb : Z;
  thumbs_per_row : Z;
  view_width : Z;
  view_height : Z;
  thumb_width : Z;
  thumb_height : Z;
  thumbs_inited : bool;
  collection_inited : bool;
  configured : bool;
  reset_collection : bool;
  collection_hash : Z;
  collection_count : Z;
  min_row_id : Z;
  max_row_id : Z;
  lut : option (list dt_thumbtable_cache_t);   (* None is NULL *)
  x_position : Z;
  y_position : Z;
  v_scrollbar : option GtkAdjustment;
  h_scrollbar : option GtkAdjustment;
  heap_script : list bool                  (* what malloc answers next, see dt_thumbnail_new *)
}.

(** The two global ids of [darktable.control] the table reads and sets. *)
Record dt_control_t : Type := {
  mouse_over_id : Z;
  keyboard_over_id : Z
}.

(** *** Field updates of [dt_thumbtable_t] *)

Definition set_tlist (v : list (option ptr)) (t : dt_thumbtable_t) : dt_thumbtable_t :=
  {| mode := mode t; tlist := v; mem := mem t; thumb_nb := thumb_nb t;
     thumbs_per_row := thumbs_per_row t; view_width := view_width t;
     view_height := view_height t; thumb_width := thumb_width t;
     thumb_height := thumb_height t; thumbs_inited := thumbs_inited t;
     collection_inited := collection_inited t; configured := configured t;
     reset_collection := reset_collection t; collection_hash := collection_hash t;
     collection_count := collection_count t; min_row_id := min_row_id t;
     max_row_id := max_row_id t; lut := lut t; x_position := x_position t;
     y_position := y_position t; v_scrollbar := v_scrollbar t;
     h_scrollbar := h_scrollbar t; heap_script := heap_script t |}.

Definition set_mem (v : list (option dt_thumbnail_t)) (t : dt_thumbtable_t) : dt_thumbtable_t :=
  {| mode := mode t; tlist := tlist t; mem := v; thumb_nb := thumb_nb t;
     thumbs_per_row := thumbs_per_row t; view_width := view_width t;
     view_height := view_height t; thumb_width := thumb_width t;
     thumb_height := thumb_height t; thumbs_inited := thumbs_inited t;
     collection_inited := collection_inited t; configured := configured t;
     reset_collection := reset_collection t; collection_hash := collection_hash t;
     collection_count := collection_count t; min_row_id := min_row_id t;
     max_row_id := max_row_id t; lut := lut t; x_position := x_position t;
     y_position := y_position t; v_scrollbar := v_scrollbar t;
     h_scrollbar := h_scrollbar t; heap_script := heap_script t |}.

Definition set_thumb_nb (v : Z) (t : dt_thumbtable_t) : dt_thumbtable_t :=
  {| mode := mode t; tlist := tlist t; mem := mem t; thumb_nb := v;
     thumbs_per_row := thumbs_per_row t; view_width := view_width t;
     view_height := view_height t; thumb_width := thumb_width t;
     thumb_height := thumb_height t; thumbs_inited := thumbs_inited t;
     collection_inited := collection_inited t; configured := configured t;
     reset_collection := reset_collection t; collection_hash := collection_hash t;
     collection_count := collection_count t; min_row_id := min_row_id t;
     max_row_id := max_row_id t; lut := lut t; x_position := x_position t;
     y_position := y_position t; v_scrollbar := v_scrollbar t;
     h_scrollbar := h_scrollbar t; heap_script := heap_script t |}.

Definition set_thumbs_per_row (v : Z) (t : dt_thumbtable_t) : dt_thumbtable_t :=
  {| mode := mode t; tlist := tlist t; mem := mem t; thumb_nb := thumb_nb t;
     thumbs_per_row := v; view_width := view_width t; view_height := view_height t;
     thumb_width := thumb_width t; thumb_height := thumb_height t;
     thumbs_inited := thumbs_inited t; collection_inited := collection_inited t;
     configured := configured t; reset_collection := reset_collection t;
     collection_hash := collection_hash t; collection_count := collection_count t;
     min_row_id := min_row_id t; max_row_id := max_row_id t; lut := lut t;
     x_position := x_position t; y_position := y_position t; v_scrollbar := v_scrollbar t;
     h_scrollbar := h_scrollbar t; heap_script := heap_script t |}.

Definition set_view_width (v : Z) (t : dt_thumbtable_t) : dt_thumbtable_t :=
  {| mode := mode t; tlist := tlist t; mem := mem t; thumb_nb := thumb_nb t;
     thumbs_per_row := thumbs_per_row t; view_width := v; view_height := view_height t;
     thumb_width := thumb_width t; thumb_height := thumb_height t;
     thumbs_inited := thumbs_inited t; collection_inited := collection_inited t;
     configured := configured t; reset_collection := reset_collection t;
     collection_hash := collection_hash t; collection_count := collection_count t;
     min_row_id := min_row_id t; max_row_id := max_row_id t; lut := lut t;
     x_position := x_position t; y_position := y_position t; v_scrollbar := v_scrollbar t;
     h_scrollbar := h_scrollbar t; heap_script := heap_script t |}.

Definition set_view_height (v : Z) (t : dt_thumbtable_t) : dt_thumbtable_t :=
  {| mode := mode t; tlist := tlist t; mem := mem t; thumb_nb := thumb_nb t;
     thumbs_per_row := thumbs_per_row t; view_width := view_width t; view_height := v;
     thumb_width := thumb_width t; thumb_height := thumb_height t;
     thumbs_inited := thumbs_inited t; collection_inited := collection_inited t;
     configured := configured t; reset_collection := reset_collection t;
     collection_hash := collection_hash t; collection_count := collection_count t;
     min_row_id := min_row_id t; max_row_id := max_row_id t; lut := lut t;
     x_position := x_position t; y_position := y_position t; v_scrollbar := v_scrollbar t;
     h_scrollbar := h_scrollbar t; heap_script := heap_script t |}.

Definition set_thumb_width (v : Z) (t : dt_thumbtable_t) : dt_thumbtable_t :=
  {| mode := mode t; tlist := tlist t; mem := mem t; thumb_nb := thumb_nb t;
     thumbs_per_row := thumbs_per_row t; view_width := view_width t;
     view_height := view_height t; thumb_width := v; thumb_height := thumb_height t;
     thumbs_inited := thumbs_inited t; collection_inited := collection_inited t;
     configured := configured t; reset_collection := reset_collection t;
     collection_hash := collection_hash t; collection_count := collection_count t;
     min_row_id := min_row_id t; max_row_id := max_row_id t; lut := lut t;
     x_position := x_position t; y_position := y_position t; v_scrollbar := v_scrollbar t;
     h_scrollbar := h_scrollbar t; heap_script := heap_script t |}.

Definition set_thumb_height (v : Z) (t : dt_thumbtable_t) : dt_thumbtable_t :=
  {| mode := mode t; tlist := tlist t; mem := mem t; thumb_nb := thumb_nb t;
     thumbs_per_row := thumbs_per_row t; view_width := view_width t;
     view_height := view_height t; thumb_width := thumb_width t; thumb_height := v;
     thumbs_inited := thumbs_inited t; collection_inited := collection_inited t;
     configured := configured t; reset_collection := reset_collection t;
     collection_hash := collection_hash t; collection_count := collection_count t;
     min_row_id := min_row_id t; max_row_id := max_row_id t; lut := lut t;
     x_position := x_position t; y_position := y_position t; v_scrollbar := v_scrollbar t;
     h_scrollbar := h_scrollbar t; heap_script := heap_script t |}.

Definition set_thumbs_inited (v : bool) (t : dt_thumbtable_t) : dt_thumbtable_t :=
  {| mode := mode t; tlist := tlist t; mem := mem t; thumb_nb := thumb_nb t;
     thumbs_per_row := thumbs_per_row t; view_width := view_width t;
     view_height := view_height t; thumb_width := thumb_width t;
     thumb_height := thumb_height t; thumbs_inited := v;
     collection_inited := collection_inited t; configured := configured t;
     reset_collection := reset_collection t; collection_hash := collection_hash t;
     collection_count := collection_count t; min_row_id := min_row_id t;
     max_row_id := max_row_id t; lut := lut t; x_position := x_position t;
     y_position := y_position t; v_scrollbar := v_scrollbar t;
     h_scrollbar := h_scrollbar t; heap_script := heap_script t |}.

Definition set_collection_inited (v : bool) (t : dt_thumbtable_t) : dt_thumbtable_t :=
  {| mode := mode t; tlist := tlist t; mem := mem t; thumb_nb := thumb_nb t;
     thumbs_per_row := thumbs_per_row t; view_width := view_width t;
     view_height := view_height t; thumb_width := thumb_width t;
     thumb_height := thumb_height t; thumbs_inited := thumbs_inited t;
     collection_inited := v; configured := configured t;
     reset_collection := reset_collection t; collection_hash := collection_hash t;
     collection_count := collection_count t; min_row_id := min_row_id t;
     max_row_id := max_row_id t; lut := lut t; x_position := x_position t;
     y_position := y_position t; v_scrollbar := v_scrollbar t;
     h_scrollbar := h_scrollbar t; heap_script := heap_script t |}.

Definition set_configured (v : bool) (t : dt_thumbtable_t) : dt_thumbtable_t :=
  {| mode := mode t; tlist := tlist t; mem := mem t; thumb_nb := thumb_nb t;
     thumbs_per_row := thumbs_per_row t; view_width := view_width t;
     view_height := view_height t; thumb_width := thumb_width t;
     thumb_height := thumb_height t; thumbs_inited := thumbs_inited t;
     collection_inited := collection_inited t; configured := v;
     reset_collection := reset_collection t; collection_hash := collection_hash t;
     collection_count := collection_count t; min_row_id := min_row_id t;
     max_row_id := max_row_id t; lut := lut t; x_position := x_position t;
     y_position := y_position t; v_scrollbar := v_scrollbar t;
     h_scrollbar := h_scrollbar t; heap_script := heap_script t |}.

Definition set_reset_collection (v : bool) (t : dt_thumbtable_t) : dt_thumbtable_t :=
  {| mode := mode t; tlist := tlist t; mem := mem t; thumb_nb := thumb_nb t;
     thumbs_per_row := thumbs_per_row t; view_width := view_width t;
     view_height := view_height t; thumb_width := thumb_width t;
     thumb_height := thumb_height t; thumbs_inited := thumbs_inited t;
     collection_inited := collection_inited t; configured := configured t;
     reset_collection := v; collection_hash := collection_hash t;
     collection_count := collection_count t; min_row_id := min_row_id t;
     max_row_id := max_row_id t; lut := lut t; x_position := x_position t;
     y_position := y_position t; v_scrollbar := v_scrollbar t;
     h_scrollbar := h_scrollbar t; heap_script := heap_script t |}.

Definition set_collection_hash (v : Z) (t : dt_thumbtable_t) : dt_thumbtable_t :=
  {| mode := mode t; tlist := tlist t; mem := mem t; thumb_nb := thumb_nb t;
     thumbs_per_row := thumbs_per_row t; view_width := view_width t;
     view_height := view_height t; thumb_width := thumb_width t;
     thumb_height := thumb_height t; thumbs_inited := thumbs_inited t;
     collection_inited := collection_inited t; configured := configured t;
     reset_collection := reset_collection t; collection_hash := v;
     collection_count := collection_count t; min_row_id := min_row_id t;
     max_row_id := max_row_id t; lut := lut t; x_position := x_position t;
     y_position := y_position t; v_scrollbar := v_scrollbar t;
     h_scrollbar := h_scrollbar t; heap_script := heap_script t |}.

Definition set_collection_count (v : Z) (t : dt_thumbtable_t) : dt_thumbtable_t :=
  {| mode := mode t; tlist := tlist t; mem := mem t; thumb_nb := thumb_nb t;
     thumbs_per_row := thumbs_per_row t; view_width := view_width t;
     view_height := view_height t; thumb_width := thumb_width t;
     thumb_height := thumb_height t; thumbs_inited := thumbs_inited t;
     collection_inited := collection_inited t; configured := configured t;
     reset_collection := reset_collection t; collection_hash := collection_hash t;
     collection_count := v; min_row_id := min_row_id t; max_row_id := max_row_id t;
     lut := lut t; x_position := x_position t; y_position := y_position t;
     v_scrollbar := v_scrollbar t; h_scrollbar := h_scrollbar t; heap_script := heap_script t |}.

Definition set_min_row_id (v : Z) (t : dt_thumbtable_t) : dt_thumbtable_t :=
  {| mode := mode t; tlist := tlist t; mem := mem t; thumb_nb := thumb_nb t;
     thumbs_per_row := thumbs_per_row t; view_width := view_width t;
     view_height := view_height t; thumb_width := thumb_width t;
     thumb_height := thumb_height t; thumbs_inited := thumbs_inited t;
     collection_inited := collection_inited t; configured := configured t;
     reset_collection := reset_collection t; collection_hash := collection_hash t;
     collection_count := collection_count t; min_row_id := v; max_row_id := max_row_id t;
     lut := lut t; x_position := x_position t; y_position := y_position t;
     v_scrollbar := v_scrollbar t; h_scrollbar := h_scrollbar t; heap_script := heap_script t |}.

Definition set_max_row_id (v : Z) (t : dt_thumbtable_t) : dt_thumbtable_t :=
  {| mode := mode t; tlist := tlist t; mem := mem t; thumb_nb := thumb_nb t;
     thumbs_per_row := thumbs_per_row t; view_width := view_width t;
     view_height := view_height t; thumb_width := thumb_width t;
     thumb_height := thumb_height t; thumbs_inited := thumbs_inited t;
     collection_inited := collection_inited t; configured := configured t;
     reset_collection := reset_collection t; collection_hash := collection_hash t;
     collection_count := collection_count t; min_row_id := min_row_id t; max_row_id := v;
     lut := lut t; x_position := x_position t; y_position := y_position t;
     v_scrollbar := v_scrollbar t; h_scrollbar := h_scrollbar t; heap_script := heap_script t |}.

Definition set_lut (v : option (list dt_thumbtable_cache_t)) (t : dt_thumbtable_t) : dt_thumbtable_t :=
  {| mode := mode t; tlist := tlist t; mem := mem t; thumb_nb := thumb_nb t;
     thumbs_per_row := thumbs_per_row t; view_width := view_width t;
     view_height := view_height t; thumb_width := thumb_width t;
     thumb_height := thumb_height t; thumbs_inited := thumbs_inited t;
     collection_inited := collection_inited t; configured := configured t;
     reset_collection := reset_collection t; collection_hash := collection_hash t;
     collection_count := collection_count t; min_row_id := min_row_id t;
     max_row_id := max_row_id t; lut := v; x_position := x_position t;
     y_position := y_position t; v_scrollbar := v_scrollbar t;
     h_scrollbar := h_scrollbar t; heap_script := heap_script t |}.

Definition set_x_position (v : Z) (t : dt_thumbtable_t) : dt_thumbtable_t :=
  {| mode := mode t; tlist := tlist t; mem := mem t; thumb_nb := thumb_nb t;
     thumbs_per_row := thumbs_per_row t; view_width := view_width t;
     view_height := view_height t; thumb_width := thumb_width t;
     thumb_height := thumb_height t; thumbs_inited := thumbs_inited t;
     collection_inited := collection_inited t; configured := configured t;
     reset_collection := reset_collection t; collection_hash := collection_hash t;
     collection_count := collection_count t; min_row_id := min_row_id t;
     max_row_id := max_row_id t; lut := lut t; x_position := v; y_position := y_position t;
     v_scrollbar := v_scrollbar t; h_scrollbar := h_scrollbar t; heap_script := heap_script t |}.

Definition set_y_position (v : Z) (t : dt_thumbtable_t) : dt_thumbtable_t :=
  {| mode := mode t; tlist := tlist t; mem := mem t; thumb_nb := thumb_nb t;
     thumbs_per_row := thumbs_per_row t; view_width := view_width t;
     view_height := view_height t; thumb_width := thumb_width t;
     thumb_height := thumb_height t; thumbs_inited := thumbs_inited t;
     collection_inited := collection_inited t; configured := configured t;
     reset_collection := reset_collection t; collection_hash := collection_hash t;
     collection_count := collection_count t; min_row_id := min_row_id t;
     max_row_id := max_row_id t; lut := lut t; x_position := x_position t; y_position := v;
     v_scrollbar := v_scrollbar t; h_scrollbar := h_scrollbar t; heap_script := heap_script t |}.

Definition set_heap_script (v : list bool) (t : dt_thumbtable_t) : dt_thumbtable_t :=
  {| mode := mode t; tlist := tlist t; mem := mem t; thumb_nb := thumb_nb t;
     thumbs_per_row := thumbs_per_row t; view_width := view_width t;
     view_height := view_height t; thumb_width := thumb_width t;
     thumb_height := thumb_height t; thumbs_inited := thumbs_inited t;
     collection_inited := collection_inited t; configured := configured t;
     reset_collection := reset_collection t; collection_hash := collection_hash t;
     collection_count := collection_count t; min_row_id := min_row_id t;
     max_row_id := max_row_id t; lut := lut t; x_position := x_position t;
     y_position := y_position t; v_scrollbar := v_scrollbar t;
     h_scrollbar := h_scrollbar t; heap_script := v |}.

(** ** Machine arithmetic *)

(** The value of an [int] expression whose exact value is [z]: the 32 low
    bits, in two's complement. *)
Definition int_wrap (z : Z) : Z := (z + 2 ^ 31) mod 2 ^ 32 - 2 ^ 31.

(** [z] is the value of an [int]. *)
Definition fits_int (z : Z) : Prop := - 2 ^ 31 <= z < 2 ^ 31.

(** A positive binary32 is [m * 2 ^ e] with a mantissa [m] of 24 bits.
    For the positive rational [n / d], [f32_exp n d] is the exponent [e]
    that brings the mantissa between 2^23 and 2^24: the mantissa is the
    quotient of [f32_num n e] by [f32_den d e]. *)
Definition f32_num (n e : Z) : Z := n * 2 ^ Z.max 0 (- e).

Definition f32_den (d e : Z) : Z := d * 2 ^ Z.max 0 e.

Definition f32_exp (n d : Z) : Z :=
  let e0 := Z.log2 n - Z.log2 d - 23 in
  if f32_num n e0 <? 2 ^ 23 * f32_den d e0 then e0 - 1 else e0.

(** The binary32 nearest to [n / d], ties to even, as mantissa and
    exponent.  Quotients and products of [int] values are far from the
    subnormal numbers and from the infinities. *)
Definition f32_round (n d : Z) : Z * Z :=
  let e := f32_exp n d in
  let q := f32_num n e / f32_den d e in
  let r := f32_num n e mod f32_den d e in
  (if (f32_den d e <? 2 * r) || ((f32_den d e =? 2 * r) && Z.odd q) then q + 1 else q, e).

(** [floorf] and [ceilf] of a positive binary32. *)
Definition f32_floor (v : Z * Z) : Z :=
  let '(m, e) := v in if 0 <=? e then m * 2 ^ e else m / 2 ^ (- e).

Definition f32_ceil (v : Z * Z) : Z :=
  let '(m, e) := v in if 0 <=? e then m * 2 ^ e else - ((- m) / 2 ^ (- e)).

(** [(float)z] for an [int] [z]: an integer again. *)
Definition float_of_int (z : Z) : Z :=
  if z =? 0 then 0 else Z.sgn z * f32_floor (f32_round (Z.abs z) 1).

(** [floorf(a / b)] and [ceilf(a / b)] for two [float] [a] and [b] that
    hold integers, [b] not zero. *)
Definition floorf_div (a b : Z) : Z :=
  if (a =? 0) || (b =? 0) then 0
  else
    let v := f32_round (Z.abs a) (Z.abs b) in
    if 0 <? a * b then f32_floor v else - f32_ceil v.

Definition ceilf_div (a b : Z) : Z :=
  if (a =? 0) || (b =? 0) then 0
  else
    let v := f32_round (Z.abs a) (Z.abs b) in
    if 0 <? a * b then f32_ceil v else - f32_floor v.

(** [a * b] for two [float] that hold integers. *)
Definition float_mul (a b : Z) : Z := float_of_int (a * b).

(** [(int)f] for a [float] or a [double] [f] that holds the integer [z]. *)
Definition float_to_int (z : Z) : result Z :=
  if (- 2 ^ 31 <=? z) && (z <? 2 ^ 31) then Ok z else Fault FloatToIntUndefined.

(** ** Thumbnails in memory *)

(** [thumb->field] through a pointer: the slot must hold a live thumbnail. *)
Definition deref (m : list (option dt_thumbnail_t)) (p : ptr) : result dt_thumbnail_t :=
  match m !! p with
  | Some (Some th) => Ok th
  | _ => Fault UseAfterFree
  end.

(** Writing the fields of a live thumbnail back through its pointer. *)
Definition store (m : list (option dt_thumbnail_t)) (p : ptr) (th : dt_thumbnail_t)
  : list (option dt_thumbnail_t) :=
  <[p := Some th]> m.

(** Modelled from the spec: [dt_thumbnail_new] lives in [thumbnail.c]; the
    materialization collaborator "create(identifier, position, geometry)"
    returns a handle that is not in use, carrying the identifier and the
    position it was given, or no handle on an "allocation failure while
    creating a live object": the NULL that [_populate_thumbnails] tests.
    Sizes and coordinates start at zero and are set by the caller right
    after.  [script] holds the answers of the allocator to the requests to
    come, [false] for a failure; once it is used up memory is given. *)
Definition dt_thumbnail_new (nid nrow : Z) (script : list bool)
    (m : list (option dt_thumbnail_t))
  : option ptr * list bool * list (option dt_thumbnail_t) :=
  match script with
  | false :: rest => (None, rest, m)
  | _ =>
      (Some (length m), tail script,
       m ++ [Some {| th_imgid := nid; th_rowid := nrow; th_width := 0; th_height := 0;
                     th_x := 0; th_y := 0; th_mouse_over := false |}])
  end.

(** Modelled from the spec: [dt_thumbnail_destroy] lives in [thumbnail.c];
    "destroy(handle)" releases the resources of the handle, which must not be
    used afterwards.  The handle is one that "create" returned and that
    was not destroyed. *)
Definition dt_thumbnail_destroy (m : list (option dt_thumbnail_t)) (p : ptr)
  : result (list (option dt_thumbnail_t)) :=
  match m !! p with
  | Some (Some _) => Ok (<[p := None]> m)
  | _ => Fault UseAfterFree
  end.

(** Modelled from the spec: [dt_thumbnail_resize] lives in [thumbnail.c]; it
    "records the new geometry" of the thumbnail. *)
Definition dt_thumbnail_resize (th : dt_thumbnail_t) (w h : Z) : dt_thumbnail_t :=
  {| th_imgid := th_imgid th; th_rowid := th_rowid th; th_width := w; th_height := h;
     th_x := th_x th; th_y := th_y th; th_mouse_over := th_mouse_over th |}.

(** Modelled from the spec: [dt_thumbnail_set_mouseover] lives in
    [thumbnail.c]; it sets the hover flag of the thumbnail. *)
Definition dt_thumbnail_set_mouseover (th : dt_thumbnail_t) (over : bool) : dt_thumbnail_t :=
  {| th_imgid := th_imgid th; th_rowid := th_rowid th; th_width := th_width th;
     th_height := th_height th; th_x := th_x th; th_y := th_y th; th_mouse_over := over |}.

Definition set_th_xy (th : dt_thumbnail_t) (xy : Z * Z) : dt_thumbnail_t :=
  {| th_imgid := th_imgid th; th_rowid := th_rowid th; th_width := th_width th;
     th_height := th_height th; th_x := fst xy; th_y := snd xy;
     th_mouse_over := th_mouse_over th |}.

(** ** The look-up table *)

(** [lut[i]] on the allocated array. *)
Definition lut_get (l : list dt_thumbtable_cache_t) (i : Z) : result dt_thumbtable_cache_t :=
  if i <? 0 then Fault OutOfBounds
  else match l !! Z.to_nat i with
       | Some e => Ok e
       | None => Fault OutOfBounds
       end.

(** [table->lut[i]]. *)
Definition lut_at (t : dt_thumbtable_t) (i : Z) : result dt_thumbtable_cache_t :=
  match lut t with
  | None => Fault NullPointer
  | Some l => lut_get l i
  end.

(** [table->lut[i].thumb = v]. *)
Definition lut_set_thumb (t : dt_thumbtable_t) (i : Z) (v : option ptr) : result dt_thumbtable_t :=
  match lut t with
  | None => Fault NullPointer
  | Some l =>
      e ← lut_get l i;
      Ok (set_lut (Some (<[Z.to_nat i := {| lut_imgid := lut_imgid e; lut_thumb := v |}]> l)) t)
  end.

(** ** Layout: from a row id to grid coordinates *)

(** [_rowid_to_position]: [xy] is what [*x], [*y] hold on entry; they are
    left as they are when the table has no mode.  The two products are
    [int] products.  Nothing here tests the number of thumbnails per row. *)
Definition _rowid_to_position (t : dt_thumbtable_t) (index : Z) (xy : Z * Z) : result (Z * Z) :=
  match mode t with
  | DT_THUMBTABLE_MODE_FILEMANAGER =>
      if thumbs_per_row t =? 0 then Fault DivisionByZero
      else
        let row := Z.quot index (thumbs_per_row t) in
        let col := Z.rem index (thumbs_per_row t) in
        Ok (int_wrap (col * thumb_width t), int_wrap (row * thumb_height t))
  | DT_THUMBTABLE_MODE_FILMSTRIP => Ok (int_wrap (index * thumb_width t), 0)
  | DT_THUMBTABLE_MODE_NONE => Ok xy
  end.

(** [_set_thumb_position]: the flag is the [gboolean] returned. *)
Definition _set_thumb_position (t : dt_thumbtable_t) (thumb : dt_thumbnail_t)
  : result (bool * dt_thumbnail_t) :=
  if thumbs_per_row t <? 1 then Ok (false, thumb)
  else
    xy ← _rowid_to_position t (th_rowid thumb) (th_x thumb, th_y thumb);
    Ok (true, set_th_xy thumb xy).

(** ** The window of row ids around the viewport *)

(** [_get_row_ids]: [ids] is what [*rowid_min], [*rowid_max] hold on entry. *)
Definition _get_row_ids (t : dt_thumbtable_t) (ids : Z * Z) : result (bool * (Z * Z)) :=
  match configured t, v_scrollbar t, h_scrollbar t with
  | true, Some v, Some h =>
      match mode t with
      | DT_THUMBTABLE_MODE_FILEMANAGER =>
          let page_size := adj_page_size v in
          let position := adj_value v in
          if thumb_height t =? 0 then Fault DivisionByZero
          else
            let row_min := Z.quot position (thumb_height t) - 2 in
            let row_max := Z.quot (position + page_size) (thumb_height t) + 2 in
            Ok (true, (row_min * thumbs_per_row t, row_max * thumbs_per_row t))
      | DT_THUMBTABLE_MODE_FILMSTRIP =>
          let page_size := adj_page_size h in
          let position := adj_value h in
          if thumb_width t =? 0 then Fault DivisionByZero
          else
            let row_min := Z.quot (position - page_size) (thumb_width t) in
            let row_max := Z.quot (position + 2 * page_size) (thumb_width t) in
            Ok (true, (row_min * thumbs_per_row t, row_max * thumbs_per_row t))
      | DT_THUMBTABLE_MODE_NONE => Ok (true, ids)
      end
  | _, _, _ => Ok (false, ids)
  end.

(** [_is_rowid_visible]: the viewport itself, without margin. *)
Definition _is_rowid_visible (t : dt_thumbtable_t) (rowid : Z) : result bool :=
  match configured t, v_scrollbar t, h_scrollbar t with
  | true, Some v, Some h =>
      match mode t with
      | DT_THUMBTABLE_MODE_FILEMANAGER =>
          let page_size := adj_page_size v in
          let position := adj_value v in
          let page_bottom := page_size + position in
          if thumbs_per_row t =? 0 then Fault DivisionByZero
          else
            let img_top := Z.quot rowid (thumbs_per_row t) * thumb_height t in
            let img_bottom := img_top + thumb_height t in
            Ok ((img_top >=? position) && (img_bottom <=? page_bottom))
      | DT_THUMBTABLE_MODE_FILMSTRIP =>
          let page_size := adj_page_size h in
          let position := adj_value h in
          let page_right := page_size + position in
          let img_left := rowid * thumb_height t in
          let img_right := img_left + thumb_width t in
          Ok ((img_left >=? position) && (img_right <=? page_right))
      | DT_THUMBTABLE_MODE_NONE => Ok false
      end
  | _, _, _ => Ok false
  end.

(** [_update_row_ids]. *)
Definition _update_row_ids (t : dt_thumbtable_t) : result dt_thumbtable_t :=
  '(_, (rowid_min, rowid_max)) ← _get_row_ids t (0, 210);
  if negb (rowid_min =? min_row_id t) || negb (rowid_max =? max_row_id t)
  then Ok (set_thumbs_inited false (set_max_row_id rowid_max (set_min_row_id rowid_min t)))
  else Ok t.

(** [_grid_configure].  The width of a thumbnail is
    [(int)floorf((float)width / (float)cols)], computed on [float]; with
    [cols = 0] the quotient is infinite or not a number and its conversion
    to [int] is undefined. *)
Definition _grid_configure (t : dt_thumbtable_t) (width height cols : Z) : result dt_thumbtable_t :=
  if (width <? 32) || (height <? 32) then Ok t
  else
    match mode t with
    | DT_THUMBTABLE_MODE_FILEMANAGER =>
        if cols =? 0 then Fault FloatToIntUndefined
        else
          tw ← float_to_int (floorf_div (float_of_int width) (float_of_int cols));
          let t1 := set_view_height height (set_view_width width (set_thumbs_per_row cols t)) in
          let t2 := set_thumb_width tw t1 in
          let t3 := set_thumb_height (if cols =? 1 then height else tw) t2 in
          Ok (set_configured true t3)
    | DT_THUMBTABLE_MODE_FILMSTRIP =>
        let t1 := set_view_height height (set_view_width width (set_thumbs_per_row 1 t)) in
        Ok (set_configured true (set_thumb_width height (set_thumb_height height t1)))
    | DT_THUMBTABLE_MODE_NONE => Ok (set_configured true t)
    end.

(** ** The update cycle *)

(** [_dt_thumbtable_empty_list]: every thumbnail of the list is destroyed,
    then the list is dropped.  The cells of the look-up table are not
    touched.  A NULL link is handed to [dt_thumbnail_destroy] like the
    others.  Modelled from the spec: "destroy(handle)" takes a handle that
    "create" returned; what [thumbnail.c] does with NULL is not in this
    file, and the call is taken as a fault. *)
Fixpoint destroy_all (links : list (option ptr)) (m : list (option dt_thumbnail_t))
  : result (list (option dt_thumbnail_t)) :=
  match links with
  | [] => Ok m
  | None :: _ => Fault NullPointer
  | Some p :: rest => m' ← dt_thumbnail_destroy m p; destroy_all rest m'
  end.

Definition _dt_thumbtable_empty_list (t : dt_thumbtable_t) : result dt_thumbtable_t :=
  m' ← destroy_all (tlist t) (mem t);
  Ok (set_thumbs_inited false (set_thumb_nb 0 (set_tlist [] (set_mem m' t)))).

(** One turn of the loop of [_populate_thumbnails] at index [i]; the state
    is the table and [*num_thumb].  What [dt_thumbnail_new] returns is
    written to the cell, prepended to the list and counted before it is
    tested: when it is NULL the turn ends there. *)
Definition populate_step (mouse_over : Z) (i : Z) (st : dt_thumbtable_t * Z)
  : result (dt_thumbtable_t * Z) :=
  let '(t, num_thumb) := st in
  e ← lut_at t i;
  let nrow := i in
  let nid := lut_imgid e in
  '(r, new_item, t1, num1) ←
    match lut_thumb e with
    | Some p => Ok (Some p, false, t, num_thumb)
    | None =>
        let '(r, script', m') := dt_thumbnail_new nid nrow (heap_script t) (mem t) in
        t' ← lut_set_thumb (set_heap_script script' (set_mem m' t)) i r;
        Ok (r, true, set_tlist (r :: tlist t') t', num_thumb + 1)
    end;
  match r with
  | None => Ok (t1, num1)
  | Some p =>
      thumb ← deref (mem t1) p;
      if negb (th_rowid thumb =? nrow) || negb (th_imgid thumb =? nid)
      then Fault AssertionFailed
      else
        let size_changed :=
          negb (thumb_height t1 =? th_height thumb)
          || negb (thumb_width t1 =? th_width thumb) in
        thumb1 ←
          (if new_item || size_changed
           then '(_, th') ← _set_thumb_position t1
                              (dt_thumbnail_resize thumb (thumb_width t1) (thumb_height t1));
                Ok th'
           else Ok thumb);
        let thumb2 := dt_thumbnail_set_mouseover thumb1 (mouse_over =? th_imgid thumb1) in
        Ok (set_mem (store (mem t1) p thumb2) t1, num1)
  end.

Fixpoint populate_loop (n : nat) (mouse_over : Z) (i : Z) (st : dt_thumbtable_t * Z)
  : result (dt_thumbtable_t * Z) :=
  match n with
  | O => Ok st
  | S n' => st' ← populate_step mouse_over i st; populate_loop n' mouse_over (i + 1) st'
  end.

(** [_populate_thumbnails]: [i] runs from [MAX(min_row_id, 0)] up to
    [MIN(max_row_id, collection_count)].  The counter is a [size_t]: a
    negative bound compares as a huge number and the loop walks off the end
    of the table. *)
Definition _populate_thumbnails (t : dt_thumbtable_t) (mouse_over : Z) (num_thumb : Z)
  : result (dt_thumbtable_t * Z) :=
  let lo := Z.max (min_row_id t) 0 in
  let hi := Z.min (max_row_id t) (collection_count t) in
  if hi <? 0 then Fault OutOfBounds
  else populate_loop (Z.to_nat (hi - lo)) mouse_over lo (t, num_thumb).

(** The two tests of [_garbage_collection] on one thumbnail. *)
Definition collect_garbage (t : dt_thumbtable_t) (num_thumb : Z) (thumb : dt_thumbnail_t) : bool :=
  (thumb_nb t + num_thumb >? 210)
  && ((th_rowid thumb <? min_row_id t) || (th_rowid thumb >? max_row_id t)).

Definition is_in_collection (t : dt_thumbtable_t) (thumb : dt_thumbnail_t) : result bool :=
  e ← lut_at t (th_rowid thumb);
  Ok (th_imgid thumb =? lut_imgid e).

(** The loop of [_garbage_collection] over the links still to visit; it
    returns the links that stay, in their order: [g_list_delete_link]
    removes only the link at hand.  The fields of the thumbnail are read
    through the link without a test for NULL. *)
Fixpoint gc_loop (links : list (option ptr)) (t : dt_thumbtable_t) (num_thumb : Z)
  : result (list (option ptr) * dt_thumbtable_t * Z) :=
  match links with
  | [] => Ok ([], t, num_thumb)
  | None :: _ => Fault NullPointer
  | Some p :: rest =>
      thumb ← deref (mem t) p;
      let cg := collect_garbage t num_thumb thumb in
      inc ← is_in_collection t thumb;
      t1 ← (if cg && inc then lut_set_thumb t (th_rowid thumb) None else Ok t);
      if cg || negb inc
      then
        m' ← dt_thumbnail_destroy (mem t1) p;
        gc_loop rest (set_mem m' t1) (num_thumb - 1)
      else
        '(kept, t2, n2) ← gc_loop rest t1 num_thumb;
        Ok (Some p :: kept, t2, n2)
  end.

Definition _garbage_collection (t : dt_thumbtable_t) (num_thumb : Z)
  : result (dt_thumbtable_t * Z) :=
  '(kept, t', n') ← gc_loop (tlist t) t num_thumb;
  Ok (set_tlist kept t', n').

(** [_resize_thumbnails]. *)
Definition resize_step (t : dt_thumbtable_t) (p : ptr) : result dt_thumbtable_t :=
  thumb ← deref (mem t) p;
  let already_processed :=
    (th_rowid thumb >=? min_row_id t) && (th_rowid thumb <? max_row_id t) in
  let size_changed :=
    negb (thumb_height t =? th_height thumb) || negb (thumb_width t =? th_width thumb) in
  if negb already_processed && size_changed
  then
    '(_, th') ← _set_thumb_position t
                  (dt_thumbnail_resize thumb (thumb_width t) (thumb_height t));
    Ok (set_mem (store (mem t) p th') t)
  else Ok t.

Fixpoint resize_loop (links : list (option ptr)) (t : dt_thumbtable_t)
  : result dt_thumbtable_t :=
  match links with
  | [] => Ok t
  | None :: _ => Fault NullPointer
  | Some p :: rest => t' ← resize_step t p; resize_loop rest t'
  end.

Definition _resize_thumbnails (t : dt_thumbtable_t) : result dt_thumbtable_t :=
  resize_loop (tlist t) t.

(** The test at the head of [dt_thumbtable_update]: the cycle runs. *)
Definition update_runs (t : dt_thumbtable_t) : bool :=
  match lut t with Some _ => true | None => false end
  && configured t && collection_inited t && negb (thumbs_inited t).

Definition list_is_null (l : list (option ptr)) : bool :=
  match l with [] => true | _ => false end.

(** [dt_thumbtable_update]; [mouse_over] is what
    [dt_control_get_mouse_over_id] returns. *)
Definition dt_thumbtable_update (mouse_over : Z) (t : dt_thumbtable_t) : result dt_thumbtable_t :=
  if negb (update_runs t) then Ok t
  else
    t1 ← (if reset_collection t
          then t' ← _dt_thumbtable_empty_list t; Ok (set_reset_collection false t')
          else Ok t);
    let empty_list := list_is_null (tlist t1) in
    '(t2, num_thumb) ← _populate_thumbnails t1 mouse_over 0;
    '(t3, num_thumb') ←
      (if negb empty_list
       then '(tg, n) ← _garbage_collection t2 num_thumb;
            tr ← _resize_thumbnails tg;
            Ok (tr, n)
       else Ok (t2, num_thumb));
    Ok (set_thumbs_inited true (set_thumb_nb (thumb_nb t3 + num_thumb') t3)).

(** ** Rebuilding the look-up table when the collection changes *)

(** [_dt_collection_lut]: [collection] is the column of imgids SQLite
    returns, in rowid order; [malloc_ok] tells whether [malloc] gives
    memory for the new table.  The function returns nothing. *)
Definition _dt_collection_lut (t : dt_thumbtable_t) (collection : list Z) (malloc_ok : bool)
  : dt_thumbtable_t :=
  match collection with
  | [] => set_collection_count 0 t
  | _ :: _ =>
      let t1 := set_collection_count (Z.of_nat (length collection)) t in
      if malloc_ok
      then set_lut (Some (map (fun id => {| lut_imgid := id; lut_thumb := None |}) collection)) t1
      else set_lut None t1
  end.

(** [_dt_collection_get_hash]: [hash] is the value [dt_hash] gives for the
    query string and the count, [num_pics] what [dt_collection_get_count]
    returns. *)
Definition _dt_collection_get_hash (t : dt_thumbtable_t) (hash : Z) (num_pics : Z)
    (collection : list Z) (malloc_ok : bool) : Z * dt_thumbtable_t :=
  if negb (hash =? collection_hash t) || reset_collection t
  then
    let t1 := set_collection_hash hash t in
    let t2 := set_collection_count num_pics t1 in
    let t3 := set_collection_inited true t2 in
    let t4 := set_thumbs_inited false t3 in
    (1, _dt_collection_lut t4 collection malloc_ok)
  else (0, t).

(** ** Looking an image up *)

(** The search loop shared by [_imgid_to_rowid] and
    [dt_thumbtable_scroll_to_imgid]: the first [i] below [collection_count]
    whose cell holds [imgid], or -1. *)
Fixpoint lut_search (n : nat) (l : list dt_thumbtable_cache_t) (imgid : Z) (i : Z) : result Z :=
  match n with
  | O => Ok (-1)
  | S n' =>
      e ← lut_get l i;
      if lut_imgid e =? imgid then Ok i else lut_search n' l imgid (i + 1)
  end.

(** [_imgid_to_rowid]. *)
Definition _imgid_to_rowid (t : dt_thumbtable_t) (imgid : Z) : result Z :=
  match lut t with
  | None => Ok (-1)
  | Some l => lut_search (Z.to_nat (collection_count t)) l imgid 0
  end.

(** ** Moving with the keyboard *)

Inductive dt_thumbtable_direction_t : Type :=
  | DT_TT_MOVE_UP
  | DT_TT_MOVE_DOWN
  | DT_TT_MOVE_LEFT
  | DT_TT_MOVE_RIGHT
  | DT_TT_MOVE_PREVIOUS_PAGE
  | DT_TT_MOVE_NEXT_PAGE
  | DT_TT_MOVE_START
  | DT_TT_MOVE_END.

(** The macro [CLAMP] of GLib. *)
Definition CLAMP (x low high : Z) : Z :=
  if x >? high then high else if x <? low then low else x.

(** The [switch] of [_move_in_grid]. *)
Definition move_offset (t : dt_thumbtable_t) (direction : dt_thumbtable_direction_t)
    (origin_imgid : Z) : result Z :=
  match direction with
  | DT_TT_MOVE_UP => Ok (- thumbs_per_row t)
  | DT_TT_MOVE_DOWN => Ok (thumbs_per_row t)
  | DT_TT_MOVE_LEFT => Ok (-1)
  | DT_TT_MOVE_RIGHT => Ok 1
  | DT_TT_MOVE_PREVIOUS_PAGE =>
      if thumb_height t =? 0 then Fault DivisionByZero
      else Ok (Z.quot (- view_height t) (thumb_height t) * thumbs_per_row t)
  | DT_TT_MOVE_NEXT_PAGE =>
      if thumb_height t =? 0 then Fault DivisionByZero
      else Ok (Z.quot (view_height t) (thumb_height t) * thumbs_per_row t)
  | DT_TT_MOVE_START => Ok (- origin_imgid)
  | DT_TT_MOVE_END => Ok (collection_count t)
  end.

(** [new_rowid] of [_move_in_grid]. *)
Definition move_target (t : dt_thumbtable_t) (direction : dt_thumbtable_direction_t)
    (origin_imgid : Z) : result Z :=
  current_rowid ← _imgid_to_rowid t origin_imgid;
  offset ← move_offset t direction origin_imgid;
  Ok (CLAMP (current_rowid + offset) 0 (collection_count t - 1)).

(** Modelled from the spec: [dt_control_set_mouse_over_id] and
    [dt_control_set_keyboard_over_id] live in [control.c]; they set the
    global mouse-over and keyboard-over identifiers. *)
Definition dt_control_set_mouse_over_id (v : Z) (c : dt_control_t) : dt_control_t :=
  {| mouse_over_id := v; keyboard_over_id := keyboard_over_id c |}.

Definition dt_control_set_keyboard_over_id (v : Z) (c : dt_control_t) : dt_control_t :=
  {| mouse_over_id := mouse_over_id c; keyboard_over_id := v |}.

(** [dt_thumbtable_scroll_to_imgid]: the value returned, the table, and the
    values handed to [gtk_adjustment_set_value] for the vertical and the
    horizontal scrollbar when the function gets that far. *)
Definition dt_thumbtable_scroll_to_imgid (t : dt_thumbtable_t) (imgid : Z)
  : result (Z * dt_thumbtable_t * option (Z * Z)) :=
  if negb (collection_inited t) || (imgid <? 0) then Ok (1, t, None)
  else
    rowid ← match lut t with
            | None => if collection_count t >? 0 then Fault NullPointer else Ok (-1)
            | Some l => lut_search (Z.to_nat (collection_count t)) l imgid 0
            end;
    if rowid =? -1 then Ok (0, t, None)
    else
      '(x0, y0) ← _rowid_to_position t rowid (0, 0);
      let x := int_wrap (x0 + Z.quot (thumb_width t) 2) in
      let y := int_wrap (y0 + Z.quot (thumb_height t) 2) in
      let v := y - Z.quot (view_height t) 2 in
      let h := x - Z.quot (view_width t) 2 in
      Ok (0, set_y_position y (set_x_position x t), Some (v, h)).

(** What [_move_in_grid] ends with: a scroll towards the target, or a
    refresh in place. *)
Inductive move_outcome : Type :=
  | MoveScrolled (request : option (Z * Z))
  | MoveRefreshed.

(** The last [if] of [_move_in_grid], once both global ids are set. *)
Definition move_dispatch (t : dt_thumbtable_t) (c : dt_control_t) (new_rowid new_imgid : Z)
  : result (dt_thumbtable_t * move_outcome) :=
  visible ← _is_rowid_visible t new_rowid;
  if negb visible
  then
    '(_, t', request) ← dt_thumbtable_scroll_to_imgid t new_imgid;
    Ok (t', MoveScrolled request)
  else
    t' ← dt_thumbtable_update (mouse_over_id c) (set_thumbs_inited false t);
    Ok (t', MoveRefreshed).

(** [_move_in_grid]. *)
Definition _move_in_grid (t : dt_thumbtable_t) (c : dt_control_t)
    (direction : dt_thumbtable_direction_t) (origin_imgid : Z)
  : result (dt_thumbtable_t * dt_control_t * move_outcome) :=
  new_rowid ← move_target t direction origin_imgid;
  e ← lut_at t new_rowid;
  let new_imgid := lut_imgid e in
  let c1 := dt_control_set_mouse_over_id new_imgid c in
  let c2 := dt_control_set_keyboard_over_id new_imgid c1 in
  '(t', outcome) ← move_dispatch t c2 new_rowid new_imgid;
  Ok (t', c2, outcome).

(** The table as [dt_thumbtable_new] leaves it: [calloc] zeroes the struct,
    the two adjustments come from the scrolled window.  The allocator is
    taken with memory to give. *)
Definition dt_thumbtable_new (v h : GtkAdjustment) : dt_thumbtable_t :=
  {| mode := DT_THUMBTABLE_MODE_NONE; tlist := []; mem := []; thumb_nb := 0;
     thumbs_per_row := 0; view_width := 0; view_height := 0; thumb_width := 0;
     thumb_height := 0; thumbs_inited := false; collection_inited := false;
     configured := false; reset_collection := false; collection_hash := -1;
     collection_count := 0; min_row_id := 0; max_row_id := 0; lut := None;
     x_position := 0; y_position := 0; v_scrollbar := Some v; h_scrollbar := Some h;
     heap_script := [] |}.

(** ** The window the specification describes *)




(** ** Sample tables *)

Definition sample_adjustment (value page_size : Z) : GtkAdjustment :=
  {| adj_value := value; adj_page_size := page_size |}.

Definition fresh_cells (ids : list Z) : list dt_thumbtable_cache_t :=
  map (fun id => {| lut_imgid := id; lut_thumb := None |}) ids.

(** A configured table without thumbnails: [cols] thumbnails of
    [tw] x [thh] pixels per row, a view of [vw] x [vh] pixels, the
    collection [ids], the window [[lo, hi)], both scrollbars at [adj], and
    an allocator with memory to give. *)
Definition sample_table (m : dt_thumbtable_mode_t) (cols tw thh vw vh : Z) (ids : list Z)
    (lo hi : Z) (adj : GtkAdjustment) : dt_thumbtable_t :=
  {| mode := m; tlist := []; mem := []; thumb_nb := 0;
     thumbs_per_row := cols; view_width := vw; view_height := vh; thumb_width := tw;
     thumb_height := thh; thumbs_inited := false; collection_inited := true;
     configured := true; reset_collection := false; collection_hash := 1;
     collection_count := Z.of_nat (length ids); min_row_id := lo; max_row_id := hi;
     lut := Some (fresh_cells ids);
     x_position := 0; y_position := 0; v_scrollbar := Some adj; h_scrollbar := Some adj;
     heap_script := [] |}.

Definition sample_thumb (imgid rowid w h x y : Z) : dt_thumbnail_t :=
  {| th_imgid := imgid; th_rowid := rowid; th_width := w; th_height := h;
     th_x := x; th_y := y; th_mouse_over := false |}.

Definition no_focus : dt_control_t := {| mouse_over_id := -1; keyboard_over_id := -1 |}.

(** A file manager of three columns on twelve images, nothing loaded yet. *)
Definition grid12 : dt_thumbtable_t :=
  sample_table DT_THUMBTABLE_MODE_FILEMANAGER 3 100 100 300 300
    [11; 12; 13; 14; 15; 16; 17; 18; 19; 20; 21; 22] 0 9 (sample_adjustment 0 300).

(** A filmstrip of cells 100 pixels wide on a hundred images, scrolled to
    pixel 5000 with a page of 1000 pixels. *)
Definition strip100 : dt_thumbtable_t :=
  sample_table DT_THUMBTABLE_MODE_FILMSTRIP 1 100 100 1000 100
    (map Z.of_nat (seq 1 100)) 40 70 (sample_adjustment 5000 1000).

(** [grid12] after the collection changed to one that SQLite returns no row
    for: the count is zero, the table of the former collection is still
    there. *)
Definition grid12_emptied : dt_thumbtable_t :=
  snd (_dt_collection_get_hash grid12 2 0 [] true).

(** A table of one column with [n] thumbnails alive, at the positions 0 to
    [n - 1] of a collection of [total] images, the image at position [i]
    being [1000 + i]; the list holds them last created first, as
    [g_list_prepend] builds it; the window is [[lo, hi)]. *)
Definition loaded_cells (n total : nat) : list dt_thumbtable_cache_t :=
  map (fun i => {| lut_imgid := 1000 + Z.of_nat i;
                   lut_thumb := if (i <? n)%nat then Some i else None |}) (seq 0 total).

Definition loaded_mem (n : nat) (tw thh : Z) : list (option dt_thumbnail_t) :=
  map (fun i => Some (sample_thumb (1000 + Z.of_nat i) (Z.of_nat i) tw thh 0 (Z.of_nat i * thh)))
      (seq 0 n).

Definition loaded_table (n total : nat) (lo hi : Z) : dt_thumbtable_t :=
  {| mode := DT_THUMBTABLE_MODE_FILEMANAGER; tlist := Some <$> rev (seq 0 n);
     mem := loaded_mem n 100 100; thumb_nb := Z.of_nat n;
     thumbs_per_row := 1; view_width := 100; view_height := 100; thumb_width := 100;
     thumb_height := 100; thumbs_inited := false; collection_inited := true;
     configured := true; reset_collection := false; collection_hash := 1;
     collection_count := Z.of_nat total; min_row_id := lo; max_row_id := hi;
     lut := Some (loaded_cells n total);
     x_position := 0; y_position := 0;
     v_scrollbar := Some (sample_adjustment 0 100);
     h_scrollbar := Some (sample_adjustment 0 100); heap_script := [] |}.

(** 211 thumbnails alive at the positions 0 to 210, the window being
    [[0, 210)]. *)
Definition crowded : dt_thumbtable_t := loaded_table 211 300 0 210.

(** The table [t] with zero thumbnails per row, thumbnails of [tw] x [thh]
    pixels, and the window [[0, 0)] that [_get_row_ids] computes from zero
    thumbnails per row. *)
Definition zero_columns (tw thh : Z) (t : dt_thumbtable_t) : dt_thumbtable_t :=
  set_thumbs_inited false
    (set_max_row_id 0 (set_min_row_id 0
       (set_thumb_height thh (set_thumb_width tw (set_thumbs_per_row 0 t))))).

(** [grid12] after one cycle: the nine thumbnails of the window are alive. *)
Definition grid12_loaded : dt_thumbtable_t :=
  match dt_thumbtable_update (-1) grid12 with
  | Ok t => t
  | Fault _ => grid12
  end.

(** [grid12_loaded] after the collection changed to twelve other images. *)
Definition grid12_replaced : dt_thumbtable_t :=
  snd (_dt_collection_get_hash grid12_loaded 2 12
         [31; 32; 33; 34; 35; 36; 37; 38; 39; 40; 41; 42] true).

(** [grid12_loaded] after the collection changed to one that SQLite returns
    no row for. *)
Definition grid12_loaded_emptied : dt_thumbtable_t :=
  snd (_dt_collection_get_hash grid12_loaded 2 0 [] true).

(** A collection that lists image 7 at the positions 0 and 2. *)
Definition grid_twice : dt_thumbtable_t :=
  sample_table DT_THUMBTABLE_MODE_FILEMANAGER 3 100 100 300 300 [7; 8; 7] 0 9
    (sample_adjustment 0 300).

(** [grid12_loaded] after the collection changed to six other images: the
    look-up table has six cells, the nine thumbnails of the former
    collection are still in the list. *)
Definition grid12_shrunk : dt_thumbtable_t :=
  snd (_dt_collection_get_hash grid12_loaded 2 6 [31; 32; 33; 34; 35; 36] true).

(** [grid12] with an allocator that gives memory once, fails once, and
    gives memory from then on. *)
Definition grid12_starved : dt_thumbtable_t := set_heap_script [true; false] grid12.

(** ** Predicates on the list and the look-up table *)

(** The image ids of the look-up table, cell by cell. *)
Definition lut_ids (t : dt_thumbtable_t) : option (list Z) :=
  match lut t with
  | Some l => Some (lut_imgid <$> l)
  | None => None
  end.

(** [p] points to a live thumbnail and the cell at its row id holds its
    image. *)
Definition in_sync (t : dt_thumbtable_t) (p : ptr) : Prop :=
  exists thumb e,
    deref (mem t) p = Ok thumb
    /\ lut_at t (th_rowid thumb) = Ok e
    /\ lut_imgid e = th_imgid thumb.

(** [p] points to a live thumbnail and the cell at its row id holds another
    image: the thumbnail belongs to a former collection. *)
Definition stale (t : dt_thumbtable_t) (p : ptr) : Prop :=
  exists thumb e,
    deref (mem t) p = Ok thumb
    /\ lut_at t (th_rowid thumb) = Ok e
    /\ lut_imgid e <> th_imgid thumb.

(** Two thumbnails are the same item: same image at the same position. *)
Definition same_item (a b : dt_thumbnail_t) : Prop :=
  th_rowid a = th_rowid b /\ th_imgid a = th_imgid b.

(** Every thumbnail alive in [m] is alive in [m'] as the same item. *)
Definition mem_keeps (m m' : list (option dt_thumbnail_t)) : Prop :=
  forall p th, deref m p = Ok th -> exists th', deref m' p = Ok th' /\ same_item th th'.

(** Every thumbnail alive in [m'] at a slot of [m] was alive in [m] as the
    same item: no slot comes back to life. *)
Definition mem_from (m m' : list (option dt_thumbnail_t)) : Prop :=
  forall p th', deref m' p = Ok th' -> (p < length m)%nat ->
                exists th, deref m p = Ok th /\ same_item th th'.

(** What a step of the cycle leaves alone: the count of the collection, the
    number of thumbnails recorded, the window, the image ids of the look-up
    table, and the request for a reset. *)
Definition same_frame (t t' : dt_thumbtable_t) : Prop :=
  collection_count t' = collection_count t
  /\ thumb_nb t' = thumb_nb t
  /\ min_row_id t' = min_row_id t
  /\ max_row_id t' = max_row_id t
  /\ lut_ids t' = lut_ids t
  /\ reset_collection t' = reset_collection t.

(** The garbage collection, reached with [*num_thumb] at [n], leaves the
    thumbnail alone. *)
Definition kept_by (t : dt_thumbtable_t) (n : Z) (th : dt_thumbnail_t) : Prop :=
  collect_garbage t n th = false /\ is_in_collection t th = Ok true.

(** Every cell of the look-up table that points to a thumbnail points to a
    live one, created for the position and the image of that cell. *)
Definition refs_ok (t : dt_thumbtable_t) : Prop :=
  forall l i e p,
    lut t = Some l -> l !! i = Some e -> lut_thumb e = Some p ->
    exists th, deref (mem t) p = Ok th
               /\ th_rowid th = Z.of_nat i /\ th_imgid th = lut_imgid e.

(** Every link of [links] points to a live thumbnail of [m]; no link is
    NULL. *)
Definition links_alive (m : list (option dt_thumbnail_t)) (links : list (option ptr)) : Prop :=
  forall l, l ∈ links -> exists p th, l = Some p /\ deref m p = Ok th.

(** Every link of the list points to a live thumbnail whose row id is a
    position of the look-up table; no link is NULL. *)
Definition links_ok (t : dt_thumbtable_t) (links : list (option ptr)) : Prop :=
  forall l, l ∈ links ->
    exists p th e, l = Some p /\ deref (mem t) p = Ok th /\ lut_at t (th_rowid th) = Ok e.

(** The allocator gives memory to every request to come. *)
Definition malloc_succeeds (t : dt_thumbtable_t) : Prop :=
  Forall (fun b => b = true) (heap_script t).

(** A table on which a cycle can run without touching memory it must not
    touch: the look-up table covers the count of the collection, no
    thumbnail is listed twice, links and cells point to live thumbnails, a
    pending reset finds no cell pointing to a thumbnail, and the allocator
    has memory for the thumbnails to come. *)
Definition wf_table (t : dt_thumbtable_t) : Prop :=
  exists l,
    lut t = Some l
    /\ 0 <= collection_count t <= Z.of_nat (length l)
    /\ 0 <= max_row_id t
    /\ NoDup (tlist t)
    /\ links_ok t (tlist t)
    /\ refs_ok t
    /\ (reset_collection t = true -> forall e, e ∈ l -> lut_thumb e = None)
    /\ malloc_succeeds t.

(** The coordinates of the position [index] are values of an [int]: the
    products of [_rowid_to_position] do not leave 32 bits. *)
Definition position_fits (t : dt_thumbtable_t) (index : Z) : Prop :=
  match mode t with
  | DT_THUMBTABLE_MODE_FILEMANAGER =>
      fits_int (Z.rem index (thumbs_per_row t) * thumb_width t)
      /\ fits_int (Z.quot index (thumbs_per_row t) * thumb_height t)
  | DT_THUMBTABLE_MODE_FILMSTRIP => fits_int (index * thumb_width t)
  | DT_THUMBTABLE_MODE_NONE => True
  end.

(** ** Asking for a reset *)

(** [dt_thumbtable_reset_collection]. *)
Definition dt_thumbtable_reset_collection (t : dt_thumbtable_t) : dt_thumbtable_t :=
  set_reset_collection true t.

(** ** Hovering *)

(** The loop of [_mouse_over_image_callback] over the links of the list;
    [mouse_over] is what [dt_control_get_mouse_over_id] returns. *)
Fixpoint mouse_over_loop (links : list (option ptr)) (mouse_over : Z)
    (m : list (option dt_thumbnail_t))
  : result (list (option dt_thumbnail_t)) :=
  match links with
  | [] => Ok m
  | None :: _ => Fault NullPointer
  | Some p :: rest =>
      thumb ← deref m p;
      mouse_over_loop rest mouse_over
        (store m p (dt_thumbnail_set_mouseover thumb (th_imgid thumb =? mouse_over)))
  end.

(** [_mouse_over_image_callback]. *)
Definition _mouse_over_image_callback (t : dt_thumbtable_t) (mouse_over : Z)
  : result dt_thumbtable_t :=
  m' ← mouse_over_loop (tlist t) mouse_over (mem t);
  Ok (set_mem m' t).

(** ** Sizing the grid and drawing *)

(** What Gtk and the configuration hold when [dt_thumbtable_configure] asks:
    the allocation of [overlay_center] and the width of the vertical
    scrollbar, [plugins/lighttable/images_in_row], the allocated width of
    [overlay_filmstrip], [darkroom/ui/0/bottom_size] and the height of the
    horizontal scrollbar. *)
Record gtk_sizes : Type := {
  center_width : Z;
  center_height : Z;
  vscrollbar_width : Z;
  images_in_row : Z;
  filmstrip_width : Z;
  bottom_size : Z;
  hscrollbar_height : Z
}.

(** [_update_grid_area] writes no field of the table: it returns the size
    it requests for the grid, width then height, or nothing when it returns
    at its head.  In the file manager the height is computed on [float],
    [ceilf] of the quotient times the height of a thumbnail, kept in a
    [double] and converted to the [gint] that Gtk takes; with zero
    thumbnails per row the quotient is infinite or not a number, and that
    conversion is undefined.  In the filmstrip the width is an [int]
    product. *)
Definition _update_grid_area (t : dt_thumbtable_t) : result (option (Z * Z)) :=
  if negb (configured t) || negb (collection_inited t) then Ok None
  else
    match mode t with
    | DT_THUMBTABLE_MODE_FILEMANAGER =>
        if thumbs_per_row t =? 0 then Fault FloatToIntUndefined
        else
          let rows := ceilf_div (float_of_int (collection_count t))
                                (float_of_int (thumbs_per_row t)) in
          height ← float_to_int (float_mul rows (float_of_int (thumb_height t)));
          Ok (Some (-1, height))
    | DT_THUMBTABLE_MODE_FILMSTRIP =>
        Ok (Some (int_wrap (collection_count t * thumb_height t), -1))
    | DT_THUMBTABLE_MODE_NONE => Ok (Some (-1, -1))
    end.

(** What [dt_thumbtable_configure] does once it has read [new_width],
    [new_height] and [cols]: the table, and the size requested for the grid
    when one is. *)
Definition configure_with (t : dt_thumbtable_t) (new_width new_height cols : Z)
  : result (dt_thumbtable_t * option (Z * Z)) :=
  t1 ← (if ((new_width >? 0) && negb (new_width =? view_width t))
           || ((new_height >? 0) && negb (new_height =? view_height t))
           || negb (cols =? thumbs_per_row t)
        then _grid_configure (set_thumbs_inited false t) new_width new_height cols
        else Ok t);
  if negb (thumbs_inited t1)
  then
    request ← _update_grid_area t1;
    t2 ← _update_row_ids t1;
    Ok (t2, request)
  else Ok (t1, None).

(** [dt_thumbtable_configure]. *)
Definition dt_thumbtable_configure (t : dt_thumbtable_t) (g : gtk_sizes)
  : result (dt_thumbtable_t * option (Z * Z)) :=
  match mode t with
  | DT_THUMBTABLE_MODE_FILEMANAGER =>
      configure_with t (center_width g - vscrollbar_width g) (center_height g)
        (images_in_row g)
  | DT_THUMBTABLE_MODE_FILMSTRIP =>
      configure_with t (filmstrip_width g) (bottom_size g - hscrollbar_height g)
        (thumbs_per_row t)
  | DT_THUMBTABLE_MODE_NONE => Ok (t, Some (-1, -1))
  end.

(** [_draw_callback], for a table that is there: the background is
    painted, then the table is configured and updated. *)
Definition _draw_callback (t : dt_thumbtable_t) (g : gtk_sizes) (mouse_over : Z)
  : result dt_thumbtable_t :=
  '(t1, _) ← dt_thumbtable_configure t g;
  dt_thumbtable_update mouse_over t1.


(** ** Keys *)

(** The key values [_key_pressed_grid] tells apart. *)
Inductive GdkKey : Type :=
  | GDK_KEY_Up | GDK_KEY_KP_Up
  | GDK_KEY_Down | GDK_KEY_KP_Down
  | GDK_KEY_Left | GDK_KEY_KP_Left
  | GDK_KEY_Right | GDK_KEY_KP_Right
  | GDK_KEY_Page_Up | GDK_KEY_KP_Page_Up
  | GDK_KEY_Page_Down | GDK_KEY_KP_Page_Down
  | GDK_KEY_Home | GDK_KEY_KP_Home
  | GDK_KEY_End | GDK_KEY_KP_End
  | GDK_KEY_space
  | GDK_KEY_nobreakspace
  | GDK_KEY_Return | GDK_KEY_KP_Enter
  | GDK_KEY_other.

(** What a key press asks of the rest of the program. *)
Inductive key_effect : Type :=
  | KeyMove (outcome : move_outcome)
  | KeySelectRange (imgid : Z)
  | KeySelectToggle (imgid : Z)
  | KeySelectSingle (imgid : Z)
  | KeyActivate (imgid : Z)
  | KeyIgnored.

(** The image a key press starts from: the keyboard-over id, else the
    mouse-over id, else [first_selected], which is what
    [dt_selection_get_first_id] returns, else the image of the first cell
    when there is a look-up table. *)
Definition key_origin (t : dt_thumbtable_t) (c : dt_control_t) (first_selected : Z) : result Z :=
  let imgid := keyboard_over_id c in
  let imgid := if imgid <? 0 then mouse_over_id c else imgid in
  let imgid := if imgid <? 0 then first_selected else imgid in
  if (imgid <? 0) && match lut t with Some _ => true | None => false end
  then e ← lut_at t 0; Ok (lut_imgid e)
  else Ok imgid.

(** [_key_pressed_grid], for a table that is there; [shift] and [control]
    are what [dt_modifier_is] returns for [GDK_SHIFT_MASK] and for
    [GDK_CONTROL_MASK].  The value returned comes first. *)
Definition _key_pressed_grid (t : dt_thumbtable_t) (c : dt_control_t) (first_selected : Z)
    (keyval : GdkKey) (shift control : bool)
  : result (bool * dt_thumbtable_t * dt_control_t * key_effect) :=
  imgid ← key_origin t c first_selected;
  let move direction :=
    '(t', c', outcome) ← _move_in_grid t c direction imgid;
    Ok (true, t', c', KeyMove outcome) in
  match keyval with
  | GDK_KEY_Up | GDK_KEY_KP_Up =>
      match mode t with
      | DT_THUMBTABLE_MODE_FILEMANAGER => move DT_TT_MOVE_UP
      | _ => Ok (false, t, c, KeyIgnored)
      end
  | GDK_KEY_Down | GDK_KEY_KP_Down =>
      match mode t with
      | DT_THUMBTABLE_MODE_FILEMANAGER => move DT_TT_MOVE_DOWN
      | _ => Ok (false, t, c, KeyIgnored)
      end
  | GDK_KEY_Left | GDK_KEY_KP_Left => move DT_TT_MOVE_LEFT
  | GDK_KEY_Right | GDK_KEY_KP_Right => move DT_TT_MOVE_RIGHT
  | GDK_KEY_Page_Up | GDK_KEY_KP_Page_Up => move DT_TT_MOVE_PREVIOUS_PAGE
  | GDK_KEY_Page_Down | GDK_KEY_KP_Page_Down => move DT_TT_MOVE_NEXT_PAGE
  | GDK_KEY_Home | GDK_KEY_KP_Home => move DT_TT_MOVE_START
  | GDK_KEY_End | GDK_KEY_KP_End => move DT_TT_MOVE_END
  | GDK_KEY_space =>
      if shift then Ok (true, t, c, KeySelectRange imgid)
      else if control then Ok (true, t, c, KeySelectToggle imgid)
      else Ok (true, t, c, KeySelectSingle imgid)
  | GDK_KEY_nobreakspace => Ok (true, t, c, KeySelectRange imgid)
  | GDK_KEY_Return | GDK_KEY_KP_Enter => Ok (true, t, c, KeyActivate imgid)
  | GDK_KEY_other => Ok (false, t, c, KeyIgnored)
  end.

(** The keys that move in the grid. *)
Definition key_direction (m : dt_thumbtable_mode_t) (keyval : GdkKey)
  : option dt_thumbtable_direction_t :=
  match keyval with
  | GDK_KEY_Up | GDK_KEY_KP_Up =>
      match m with DT_THUMBTABLE_MODE_FILEMANAGER => Some DT_TT_MOVE_UP | _ => None end
  | GDK_KEY_Down | GDK_KEY_KP_Down =>
      match m with DT_THUMBTABLE_MODE_FILEMANAGER => Some DT_TT_MOVE_DOWN | _ => None end
  | GDK_KEY_Left | GDK_KEY_KP_Left => Some DT_TT_MOVE_LEFT
  | GDK_KEY_Right | GDK_KEY_KP_Right => Some DT_TT_MOVE_RIGHT
  | GDK_KEY_Page_Up | GDK_KEY_KP_Page_Up => Some DT_TT_MOVE_PREVIOUS_PAGE
  | GDK_KEY_Page_Down | GDK_KEY_KP_Page_Down => Some DT_TT_MOVE_NEXT_PAGE
  | GDK_KEY_Home | GDK_KEY_KP_Home => Some DT_TT_MOVE_START
  | GDK_KEY_End | GDK_KEY_KP_End => Some DT_TT_MOVE_END
  | _ => None
  end.

(** ** What a cycle leaves alone *)

(** The fields no step of the cycle writes: the mode, the geometry of the
    grid, the flags of the configuration and of the collection, the hash and
    the count of the collection, the window, the position scrolled to and
    the two adjustments. *)
Definition geometry (t : dt_thumbtable_t) :=
  (mode t, thumbs_per_row t, view_width t, view_height t, thumb_width t, thumb_height t,
   configured t, collection_inited t, collection_hash t, collection_count t,
   min_row_id t, max_row_id t, x_position t, y_position t, v_scrollbar t, h_scrollbar t).

(** The direction that undoes a move by a fixed offset. *)
Definition opposite_direction (d : dt_thumbtable_direction_t)
  : option dt_thumbtable_direction_t :=
  match d with
  | DT_TT_MOVE_UP => Some DT_TT_MOVE_DOWN
  | DT_TT_MOVE_DOWN => Some DT_TT_MOVE_UP
  | DT_TT_MOVE_LEFT => Some DT_TT_MOVE_RIGHT
  | DT_TT_MOVE_RIGHT => Some DT_TT_MOVE_LEFT
  | DT_TT_MOVE_PREVIOUS_PAGE => Some DT_TT_MOVE_NEXT_PAGE
  | DT_TT_MOVE_NEXT_PAGE => Some DT_TT_MOVE_PREVIOUS_PAGE
  | DT_TT_MOVE_START | DT_TT_MOVE_END => None
  end.

(** ** The callbacks as Gtk runs them *)








(** [grid12_loaded] after the collection was fetched again, under another
    hash, with the same twelve images at the same positions. *)
Definition grid12_refetched : dt_thumbtable_t :=
  snd (_dt_collection_get_hash grid12_loaded 2 12
         [11; 12; 13; 14; 15; 16; 17; 18; 19; 20; 21; 22] true).

(** * Properties *)

(** ** Reasoning on results *)

Lemma result_bind_ok {A B} (f : A -> result B) (m : result A) (b : B) :
  mbind f m = Ok b -> exists a, m = Ok a /\ f a = Ok b.
Proof. destruct m as [a|e]; simpl; [eauto | discriminate]. Qed.

(** Splits a hypothesis [x ← m; k = Ok b] into [m = Ok a] and [k a = Ok b]. *)
Tactic Notation "ok_bind" hyp(H) "as" simple_intropattern(a) ident(E) :=
  apply result_bind_ok in H as (a & E & H); simpl in H.

(** ** Machine arithmetic *)

Section Floats.

Lemma int_wrap_fits (z : Z) : fits_int z -> int_wrap z = z.
Proof.
  unfold fits_int, int_wrap. intros Hz.
  rewrite Z.mod_small; change (2 ^ 32) with (2 * 2 ^ 31); lia.
Qed.

Lemma f32_exp_norm (n d : Z) :
  0 < n -> 0 < d ->
  2 ^ 23 * f32_den d (f32_exp n d) <= f32_num n (f32_exp n d).
Proof.
  intros Hn Hd. unfold f32_exp.
  remember (Z.log2 n - Z.log2 d - 23) as e0 eqn:He0.
  destruct (Z.ltb_spec (f32_num n e0) (2 ^ 23 * f32_den d e0)) as [Hlt|Hge]; [|exact Hge].
  clear Hlt.
  pose proof (Z.log2_spec n Hn) as [Hn1 _].
  pose proof (Z.log2_spec d Hd) as [_ Hd2].
  pose proof (Z.log2_nonneg n) as Hln. pose proof (Z.log2_nonneg d) as Hld.
  unfold f32_num, f32_den.
  rewrite Z.pow_succ_r in Hd2 by lia.
  assert (0 < 2 ^ Z.log2 d) by (apply Z.pow_pos_nonneg; lia).
  destruct (Z.le_gt_cases 1 e0) as [Hpos|Hneg].
  - rewrite (Z.max_l 0 (- (e0 - 1))), (Z.max_r 0 (e0 - 1)) by lia.
    rewrite Z.pow_0_r, Z.mul_1_r.
    assert (2 ^ Z.log2 n = 2 ^ 23 * 2 ^ Z.log2 d * 2 * 2 ^ (e0 - 1)) as E.
    { replace (Z.log2 n) with (23 + Z.log2 d + 1 + (e0 - 1)) at 1 by lia.
      rewrite !Z.pow_add_r by lia. reflexivity. }
    assert (0 < 2 ^ (e0 - 1)) by (apply Z.pow_pos_nonneg; lia).
    nia.
  - rewrite (Z.max_r 0 (- (e0 - 1))), (Z.max_l 0 (e0 - 1)) by lia.
    rewrite Z.pow_0_r, Z.mul_1_r.
    assert (2 ^ Z.log2 n * 2 ^ (- (e0 - 1)) = 2 ^ 23 * (2 * 2 ^ Z.log2 d)) as E.
    { rewrite <- Z.pow_add_r by lia.
      replace (Z.log2 n + - (e0 - 1)) with (23 + (1 + Z.log2 d)) by lia.
      rewrite !Z.pow_add_r by lia. reflexivity. }
    assert (0 < 2 ^ (- (e0 - 1))) by (apply Z.pow_pos_nonneg; lia).
    nia.
Qed.

(** Below 2^24 the conversion of an [int] to [float] is exact. *)
Lemma float_of_int_exact (z : Z) : 0 <= z < 2 ^ 24 -> float_of_int z = z.
Proof.
  intros Hz. unfold float_of_int.
  destruct (Z.eqb_spec z 0) as [->|Hnz]; [reflexivity|].
  assert (0 < z) as Hpos by lia.
  rewrite Z.sgn_pos, Z.abs_eq, Z.mul_1_l by lia.
  pose proof (f32_exp_norm z 1 Hpos ltac:(lia)) as Hnorm.
  unfold f32_round, f32_floor.
  set (e := f32_exp z 1) in *.
  unfold f32_num, f32_den in *.
  destruct (Z.leb_spec 0 e) as [He|He].
  - rewrite (Z.max_l 0 (- e)), (Z.max_r 0 e) in * by lia.
    rewrite Z.pow_0_r, Z.mul_1_r, Z.mul_1_l in *.
    assert (0 < 2 ^ e) by (apply Z.pow_pos_nonneg; lia).
    assert (e = 0) as ->.
    { destruct (Z.eq_dec e 0) as [|Hne]; [assumption|].
      assert (2 ^ 1 <= 2 ^ e) by (apply Z.pow_le_mono_r; lia).
      change (2 ^ 1) with 2 in *. change (2 ^ 24) with (2 * 2 ^ 23) in Hz. lia. }
    change (2 ^ 0) with 1. rewrite Z.div_1_r, Z.mod_1_r.
    change (1 <? 2 * 0) with false. change (1 =? 2 * 0) with false. cbn [orb andb]. lia.
  - rewrite (Z.max_r 0 (- e)), (Z.max_l 0 e) in * by lia.
    rewrite Z.pow_0_r, Z.mul_1_r in *.
    rewrite Z.div_1_r, Z.mod_1_r.
    change (1 <? 2 * 0) with false. change (1 =? 2 * 0) with false.
    cbn [orb andb].
    apply Z.div_mul. assert (0 < 2 ^ (- e)) by (apply Z.pow_pos_nonneg; lia). lia.
Qed.

(** Between two positive [int] below 2^24, rounding the quotient to
    [float] does not reach the next integer: [floorf] gives the integer
    quotient. *)
Lemma floorf_div_exact (a b : Z) :
  0 <= a < 2 ^ 24 -> 0 < b < 2 ^ 24 -> floorf_div a b = a / b.
Proof.
  intros Ha Hb. unfold floorf_div.
  destruct (Z.eqb_spec a 0) as [->|Hnz]; [reflexivity|].
  destruct (Z.eqb_spec b 0) as [|_]; [lia|]. cbn [orb].
  assert (0 < a) as Hpos by lia.
  destruct (Z.ltb_spec 0 (a * b)) as [_|]; [|nia].
  rewrite !Z.abs_eq by lia.
  pose proof (f32_exp_norm a b Hpos ltac:(lia)) as Hnorm.
  unfold f32_round, f32_floor.
  set (e := f32_exp a b) in *.
  unfold f32_num, f32_den in *.
  destruct (Z.leb_spec 0 e) as [He|He].
  - rewrite (Z.max_l 0 (- e)), (Z.max_r 0 e) in * by lia.
    rewrite Z.pow_0_r, Z.mul_1_r in *.
    assert (0 < 2 ^ e) by (apply Z.pow_pos_nonneg; lia).
    assert (e = 0) as ->.
    { destruct (Z.eq_dec e 0) as [|Hne]; [assumption|].
      assert (2 ^ 1 <= 2 ^ e) by (apply Z.pow_le_mono_r; lia).
      change (2 ^ 1) with 2 in *. change (2 ^ 24) with (2 * 2 ^ 23) in Ha. nia. }
    change (2 ^ 0) with 1 in *. rewrite !Z.mul_1_r in *.
    assert (b = 1) as -> by (change (2 ^ 24) with (2 * 2 ^ 23) in Ha; lia).
    rewrite Z.div_1_r, Z.mod_1_r.
    change (1 <? 2 * 0) with false. change (1 =? 2 * 0) with false. cbn [orb andb]. lia.
  - rewrite (Z.max_r 0 (- e)), (Z.max_l 0 e) in * by lia.
    rewrite Z.pow_0_r, Z.mul_1_r in *.
    set (P := 2 ^ (- e)) in *.
    assert (2 <= P) as HP.
    { change 2 with (2 ^ 1) at 1. apply Z.pow_le_mono_r; lia. }
    assert (b < 2 * P) as HbP by (change (2 ^ 24) with (2 * 2 ^ 23) in Ha; nia).
    pose proof (Z.div_mod (a * P) b ltac:(lia)) as Hdm.
    pose proof (Z.mod_pos_bound (a * P) b ltac:(lia)) as Hr.
    pose proof (Z.div_mod a b ltac:(lia)) as Hdm'.
    pose proof (Z.mod_pos_bound a b ltac:(lia)) as Hr'.
    set (q := a * P / b) in *. set (r := (a * P) mod b) in *.
    set (k := a / b) in *. set (s := a mod b) in *.
    assert (k * P <= q) as Hlo by nia.
    assert (q < (k + 1) * P) as Hhi by nia.
    symmetry. apply Z.div_unique with
      (r := (if (b <? 2 * r) || (b =? 2 * r) && Z.odd q then q + 1 else q) - k * P);
      [|lia].
    left.
    destruct ((b <? 2 * r) || (b =? 2 * r) && Z.odd q) eqn:Hup; [|lia].
    assert (b <= 2 * r) as Hhalf.
    { apply orb_true_iff in Hup as [Hup|Hup]; [lia|].
      apply andb_true_iff in Hup as [Hup _]. lia. }
    split; [lia|].
    (* q + 1 < (k + 1) * P, or else 2 * P <= b *)
    destruct (Z.eq_dec (q + 1) ((k + 1) * P)) as [Heq|]; [|lia].
    exfalso. nia.
Qed.



(** The width of a thumbnail as [_grid_configure] computes it. *)
Lemma thumb_width_exact (width cols : Z) :
  0 <= width < 2 ^ 24 -> 0 < cols < 2 ^ 24 ->
  float_to_int (floorf_div (float_of_int width) (float_of_int cols)) = Ok (width / cols).
Proof.
  intros Hw Hc. rewrite !float_of_int_exact by lia. rewrite floorf_div_exact by lia.
  unfold float_to_int.
  pose proof (Z.div_pos width cols ltac:(lia) ltac:(lia)) as Hlo.
  pose proof (Z.div_le_upper_bound width cols width ltac:(lia) ltac:(nia)) as Hhi.
  destruct (Z.leb_spec (- 2 ^ 31) (width / cols)); [|lia].
  destruct (Z.ltb_spec (width / cols) (2 ^ 31)); [done|].
  change (2 ^ 24) with 16777216 in *. change (2 ^ 31) with 2147483648 in *. lia.
Qed.

End Floats.

(** ** Layout *)

Section Layout.

Variable t : dt_thumbtable_t.

Lemma rowid_to_position_no_fault index xy :
  1 <= thumbs_per_row t -> exists xy', _rowid_to_position t index xy = Ok xy'.
Proof.
  intros Hc. unfold _rowid_to_position.
  destruct (mode t); eauto.
  destruct (Z.eqb_spec (thumbs_per_row t) 0) as [E|_]; [lia | eauto].
Qed.


Lemma set_thumb_position_grid thumb :
  mode t = DT_THUMBTABLE_MODE_FILEMANAGER ->
  1 <= thumbs_per_row t -> 0 <= th_rowid thumb ->
  fits_int ((th_rowid thumb mod thumbs_per_row t) * thumb_width t) ->
  fits_int ((th_rowid thumb / thumbs_per_row t) * thumb_height t) ->
  _set_thumb_position t thumb =
    Ok (true, set_th_xy thumb ((th_rowid thumb mod thumbs_per_row t) * thumb_width t,
                               (th_rowid thumb / thumbs_per_row t) * thumb_height t)).
Proof.
  intros Hm Hc Hp Hx Hy. unfold _set_thumb_position, _rowid_to_position.
  destruct (Z.ltb_spec (thumbs_per_row t) 1); [lia|].
  rewrite Hm. destruct (Z.eqb_spec (thumbs_per_row t) 0); [lia|].
  simpl. rewrite Z.rem_mod_nonneg, Z.quot_div_nonneg by lia.
  rewrite !int_wrap_fits by assumption. reflexivity.
Qed.


End Layout.




(** ** The window of row ids *)

Section Window.

Variable t : dt_thumbtable_t.
Variables v h : GtkAdjustment.
Hypothesis Hconf : configured t = true.
Hypothesis Hv : v_scrollbar t = Some v.
Hypothesis Hh : h_scrollbar t = Some h.



End Window.





(** ** Rebuilding the look-up table *)

(** C5 (as stated, refuted): when SQLite returns no row the count of the
    table is overwritten with zero, and the caller gets the same answer as
    for a rebuild that went well. *)
Lemma collection_lut_failure_overwrites :
  collection_count grid12 = 12
  /\ collection_count (_dt_collection_lut grid12 [] true) = 0
  /\ collection_count (snd (_dt_collection_get_hash grid12 2 12 [] true)) = 0
  /\ lut (snd (_dt_collection_get_hash grid12 2 12 [] true)) = lut grid12
  /\ fst (_dt_collection_get_hash grid12 2 12 [] true)
     = fst (_dt_collection_get_hash grid12 2 12
              [31; 32; 33; 34; 35; 36; 37; 38; 39; 40; 41; 42] true).
Proof. repeat split; reflexivity. Qed.

(** C5 (amended): when the collection changed, or a reset was asked for,
    and SQLite returns no row, the look-up table is kept as it was and the
    count becomes zero, whatever count the collection announced; the
    caller is told of a change, as it is whatever was fetched; and the new
    hash is recorded, so that without a pending reset the next call with
    the same hash fetches nothing and leaves the table as it is. *)
Theorem collection_lut_failure (t : dt_thumbtable_t) (hash num_pics : Z) (ok : bool) :
  negb (hash =? collection_hash t) || reset_collection t = true ->
  exists t',
    _dt_collection_get_hash t hash num_pics [] ok = (1, t')
    /\ lut t' = lut t
    /\ collection_count t' = 0
    /\ (forall collection ok',
          fst (_dt_collection_get_hash t hash num_pics collection ok')
          = fst (_dt_collection_get_hash t hash num_pics [] ok))
    /\ (reset_collection t = false ->
        forall num_pics' collection ok',
          _dt_collection_get_hash t' hash num_pics' collection ok' = (0, t')).
Proof.
  intros Hchanged. unfold _dt_collection_get_hash at 1. rewrite Hchanged.
  eexists. split; [reflexivity|]. split; [reflexivity|]. split; [reflexivity|]. split.
  - intros collection ok'. unfold _dt_collection_get_hash. by rewrite Hchanged.
  - intros Hreset num_pics' collection ok'. unfold _dt_collection_get_hash. simpl.
    by rewrite Z.eqb_refl, Hreset.
Qed.

Lemma collection_lut_failure_witness :
  exists t',
    _dt_collection_get_hash grid12 2 12 [] true = (1, t')
    /\ lut t' = lut grid12
    /\ collection_count t' = 0
    /\ _dt_collection_get_hash t' 2 12 [31; 32] true = (0, t').
Proof.
  destruct (collection_lut_failure grid12 2 12 true eq_refl)
    as (t' & H & Hl & Hc & _ & Hagain).
  exists t'. split; [exact H|]. split; [exact Hl|]. split; [exact Hc|].
  exact (Hagain eq_refl 12 [31; 32] true).
Defined.

(** X27: the rebuild when [malloc] fails for a collection that has rows:
    the former look-up table is released before the allocation, the
    pointer is left NULL and the count is the number of rows fetched; the
    caller is told of a change as after a rebuild that went well, and the
    scroll to an image that follows reads through the NULL pointer. *)
Theorem collection_lut_malloc_failure_faults (t : dt_thumbtable_t) (hash num_pics : Z)
    (id : Z) (ids : list Z) (imgid : Z) :
  negb (hash =? collection_hash t) || reset_collection t = true ->
  0 <= imgid ->
  exists t',
    _dt_collection_get_hash t hash num_pics (id :: ids) false = (1, t')
    /\ lut t' = None
    /\ collection_count t' = Z.of_nat (length (id :: ids))
    /\ (forall i, lut_at t' i = Fault NullPointer)
    /\ dt_thumbtable_scroll_to_imgid t' imgid = Fault NullPointer.
Proof.
  intros Hchanged Himg. unfold _dt_collection_get_hash. rewrite Hchanged.
  eexists. split; [reflexivity|]. split; [reflexivity|]. split; [reflexivity|].
  split; [reflexivity|].
  unfold dt_thumbtable_scroll_to_imgid.
  change (collection_inited (_dt_collection_lut _ (id :: ids) false)) with true.
  change (lut (_dt_collection_lut _ (id :: ids) false)) with (@None (list dt_thumbtable_cache_t)).
  change (collection_count (_dt_collection_lut _ (id :: ids) false))
    with (Z.of_nat (length (id :: ids))).
  destruct (Z.ltb_spec imgid 0); [lia|]. cbn [negb orb].
  destruct (Z.gtb_spec (Z.of_nat (length (id :: ids))) 0) as [_|Hz]; [reflexivity|].
  simpl in Hz. lia.
Qed.

Lemma collection_lut_malloc_failure_faults_witness :
  exists t',
    _dt_collection_get_hash grid12_loaded 2 2 [31; 32] false = (1, t')
    /\ lut t' = None
    /\ collection_count t' = 2
    /\ dt_thumbtable_scroll_to_imgid t' 31 = Fault NullPointer.
Proof.
  destruct (collection_lut_malloc_failure_faults grid12_loaded 2 2 31 [32] 31)
    as (t' & H & Hl & Hc & _ & Hs).
  - vm_compute. reflexivity.
  - intros [=].
  - exists t'. split; [exact H|]. split; [exact Hl|]. split; [exact Hc | exact Hs].
Defined.

(** ** The list and the look-up table stay in step *)

Section Memory.

Implicit Types m : list (option dt_thumbnail_t).
Implicit Types p q : ptr.

Lemma deref_cases m p : (exists th, deref m p = Ok th) \/ deref m p = Fault UseAfterFree.
Proof. unfold deref. destruct (m !! p) as [[th|]|]; eauto. Qed.

Lemma deref_Ok m p th : deref m p = Ok th <-> m !! p = Some (Some th).
Proof.
  unfold deref. destruct (m !! p) as [[th'|]|]; split; intros H; try discriminate;
    by simplify_eq.
Qed.

Lemma deref_lt m p th : deref m p = Ok th -> (p < length m)%nat.
Proof. rewrite deref_Ok. apply lookup_lt_Some. Qed.

Lemma deref_store_eq m p th th' : deref m p = Ok th -> deref (store m p th') p = Ok th'.
Proof.
  intros H. apply deref_Ok. unfold store. rewrite list_lookup_insert_eq; [done|].
  by eapply deref_lt.
Qed.

Lemma deref_store_ne m p q th' : p <> q -> deref (store m p th') q = deref m q.
Proof. intros H. unfold deref, store. by rewrite list_lookup_insert_ne. Qed.

Lemma length_store m p th : length (store m p th) = length m.
Proof. apply length_insert. Qed.

Lemma deref_new m script nid nrow p script' m' :
  dt_thumbnail_new nid nrow script m = (Some p, script', m') ->
  p = length m
  /\ (exists th, deref m' p = Ok th /\ th_imgid th = nid /\ th_rowid th = nrow)
  /\ (forall q, (q < length m)%nat -> deref m' q = deref m q)
  /\ length m' = S (length m)
  /\ script' = tail script.
Proof.
  unfold dt_thumbnail_new. intros H.
  assert (Some p = Some (length m) /\ script' = tail script
          /\ m' = m ++ [Some {| th_imgid := nid; th_rowid := nrow; th_width := 0;
                                th_height := 0; th_x := 0; th_y := 0;
                                th_mouse_over := false |}]) as ([= ->] & -> & ->).
  { destruct script as [|[|] rest]; by simplify_eq. }
  clear H. split; [done|]. split; [|split; [|split]].
  - eexists. split.
    + apply deref_Ok. rewrite lookup_app_r by lia. by rewrite Nat.sub_diag.
    + done.
  - intros q Hq. unfold deref. by rewrite lookup_app_l.
  - rewrite length_app. simpl. lia.
  - done.
Qed.

(** A failed allocation leaves the memory as it was. *)
Lemma new_null m script nid nrow script' m' :
  dt_thumbnail_new nid nrow script m = (None, script', m') ->
  m' = m /\ script = false :: script'.
Proof.
  unfold dt_thumbnail_new. destruct script as [|[|] rest]; intros H; by simplify_eq.
Qed.

(** With memory to give, the allocation succeeds. *)
Lemma new_succeeds m script nid nrow :
  Forall (fun b => b = true) script ->
  exists p m', dt_thumbnail_new nid nrow script m = (Some p, tail script, m')
               /\ Forall (fun b => b = true) (tail script).
Proof.
  intros Hs. unfold dt_thumbnail_new. destruct script as [|b rest].
  - eexists _, _. split; [reflexivity | constructor].
  - apply Forall_cons in Hs as [-> Hs]. eexists _, _. split; [reflexivity | exact Hs].
Qed.

Lemma destroy_spec m p m' :
  dt_thumbnail_destroy m p = Ok m' ->
  deref m' p = Fault UseAfterFree
  /\ (forall q, q <> p -> deref m' q = deref m q)
  /\ length m' = length m.
Proof.
  unfold dt_thumbnail_destroy. destruct (m !! p) as [[th|]|] eqn:E; try discriminate.
  intros [= <-]. split; [|split].
  - unfold deref. rewrite list_lookup_insert_eq; [done|]. by eapply lookup_lt_Some.
  - intros q Hq. unfold deref. by rewrite list_lookup_insert_ne.
  - apply length_insert.
Qed.

Lemma same_item_refl a : same_item a a.
Proof. by split. Qed.

Lemma same_item_trans a b c : same_item a b -> same_item b c -> same_item a c.
Proof. intros [? ?] [? ?]. split; congruence. Qed.

Lemma mem_keeps_refl m : mem_keeps m m.
Proof. intros p th H. eauto using same_item_refl. Qed.

Lemma mem_keeps_trans m1 m2 m3 : mem_keeps m1 m2 -> mem_keeps m2 m3 -> mem_keeps m1 m3.
Proof.
  intros H1 H2 p th H. destruct (H1 _ _ H) as (th' & H' & Hs).
  destruct (H2 _ _ H') as (th'' & H'' & Hs'). eauto using same_item_trans.
Qed.

Lemma mem_from_refl m : mem_from m m.
Proof. intros p th H _. eauto using same_item_refl. Qed.

Lemma mem_from_trans m1 m2 m3 :
  (length m1 <= length m2)%nat -> mem_from m1 m2 -> mem_from m2 m3 -> mem_from m1 m3.
Proof.
  intros Hl H1 H2 p th H Hp. destruct (H2 _ _ H ltac:(lia)) as (th' & H' & Hs).
  destruct (H1 _ _ H' Hp) as (th'' & H'' & Hs'). eauto using same_item_trans.
Qed.

(** Writing a thumbnail back over itself, as the same item. *)
Lemma store_keeps m p th th' :
  deref m p = Ok th -> same_item th th' ->
  mem_keeps m (store m p th') /\ mem_from m (store m p th').
Proof.
  intros Hd Hs. split.
  - intros q tq Hq. destruct (decide (p = q)) as [<-|Hne].
    + exists th'. split; [by eapply deref_store_eq|]. congruence.
    + exists tq. rewrite deref_store_ne by done. eauto using same_item_refl.
  - intros q tq Hq _. destruct (decide (p = q)) as [<-|Hne].
    + exists th. erewrite deref_store_eq in Hq by done. by simplify_eq.
    + rewrite deref_store_ne in Hq by done. eauto using same_item_refl.
Qed.

End Memory.

Section Cells.

Implicit Types t : dt_thumbtable_t.

Lemma same_frame_refl t : same_frame t t.
Proof. by repeat split. Qed.

Lemma same_frame_trans t1 t2 t3 : same_frame t1 t2 -> same_frame t2 t3 -> same_frame t1 t3.
Proof.
  intros (?&?&?&?&?&?) (?&?&?&?&?&?). repeat split; congruence.
Qed.

Lemma lut_get_Some (l : list dt_thumbtable_cache_t) i e :
  lut_get l i = Ok e <-> 0 <= i /\ l !! Z.to_nat i = Some e.
Proof.
  unfold lut_get. destruct (Z.ltb_spec i 0).
  - split; [discriminate | lia].
  - destruct (l !! Z.to_nat i); split; intros H'; try discriminate; try by simplify_eq.
    + by destruct H' as [_ [= ->]].
    + by destruct H' as [_ ?].
Qed.

(** Cells are read alike in two tables that hold the same image ids. *)
Lemma lut_at_ids t t' i e :
  lut_ids t' = lut_ids t -> lut_at t i = Ok e ->
  exists e', lut_at t' i = Ok e' /\ lut_imgid e' = lut_imgid e.
Proof.
  unfold lut_ids, lut_at. intros Hids H.
  destruct (lut t) as [l|]; [|discriminate]. destruct (lut t') as [l'|]; [|discriminate].
  simpl in Hids. injection Hids as Hids.
  apply lut_get_Some in H as [Hi H].
  assert ((lut_imgid <$> l') !! Z.to_nat i = Some (lut_imgid e)) as H'.
  { rewrite Hids, list_lookup_fmap, H. done. }
  rewrite list_lookup_fmap in H'. destruct (l' !! Z.to_nat i) as [e'|] eqn:E; [|discriminate].
  exists e'. split; [by apply lut_get_Some | by injection H'].
Qed.

Lemma lut_set_thumb_spec t i v t' :
  lut_set_thumb t i v = Ok t' ->
  same_frame t t' /\ mem t' = mem t /\ tlist t' = tlist t
  /\ exists e, lut_at t i = Ok e
               /\ lut_at t' i = Ok {| lut_imgid := lut_imgid e; lut_thumb := v |}.
Proof.
  unfold lut_set_thumb, lut_at, same_frame, lut_ids.
  destruct (lut t) as [l|]; [|discriminate]. simpl.
  intros H. ok_bind H as e E. injection H as <-. simpl.
  pose proof E as E'. apply lut_get_Some in E' as [Hi E'].
  repeat split.
  - f_equal. rewrite list_fmap_insert. simpl. by rewrite list_insert_id by (by rewrite list_lookup_fmap, E').
  - exists e. split; [done|]. apply lut_get_Some. split; [done|].
    rewrite list_lookup_insert_eq; [done|]. by eapply lookup_lt_Some.
Qed.

Lemma lut_set_thumb_script t i v t' :
  lut_set_thumb t i v = Ok t' -> heap_script t' = heap_script t.
Proof.
  unfold lut_set_thumb. destruct (lut t) as [l|]; [|discriminate]. simpl.
  intros H. ok_bind H as e E. by injection H as <-.
Qed.

Lemma in_sync_keeps t t' p :
  lut_ids t' = lut_ids t -> mem_keeps (mem t) (mem t') -> in_sync t p -> in_sync t' p.
Proof.
  intros Hids Hm (th & e & Hd & He & Hi).
  destruct (Hm _ _ Hd) as (th' & Hd' & Hr & Himg).
  rewrite Hr in He. destruct (lut_at_ids _ _ _ _ Hids He) as (e' & He' & Hi').
  exists th', e'. split; [done|]. split; [done|]. congruence.
Qed.

Lemma set_thumb_position_same_item t th b th' :
  _set_thumb_position t th = Ok (b, th') -> same_item th th'.
Proof.
  unfold _set_thumb_position. destruct (thumbs_per_row t <? 1).
  - intros [= <- <-]. apply same_item_refl.
  - intros H. ok_bind H as xy E. injection H as <- <-. by split.
Qed.

End Cells.

(** ** Loading thumbnails *)

Section Populate.

Implicit Types t : dt_thumbtable_t.

(** One turn of the loop keeps every live thumbnail the same item, leaves
    the image ids of the look-up table alone, and adds to the list at most
    one thumbnail, created in step with its cell. *)
Lemma populate_step_spec mouse_over i t n t' n' :
  populate_step mouse_over i (t, n) = Ok (t', n') ->
  same_frame t t' /\ mem_keeps (mem t) (mem t') /\ mem_from (mem t) (mem t')
  /\ (length (mem t) <= length (mem t'))%nat
  /\ (tlist t' = tlist t /\ heap_script t' = heap_script t
      \/ (tlist t' = None :: tlist t /\ heap_script t = false :: heap_script t')
      \/ exists p, tlist t' = Some p :: tlist t /\ in_sync t' p
                   /\ p = length (mem t) /\ (p < length (mem t'))%nat
                   /\ heap_script t' = tail (heap_script t)).
Proof.
  unfold populate_step. intros H. ok_bind H as e He.
  ok_bind H as [[[r new_item] t1] num1] Hsel.
  destruct r as [p|]; cycle 1.
  { injection H as <- <-.
    destruct (lut_thumb e) as [q|] eqn:Hth; [discriminate|].
    destruct (dt_thumbnail_new (lut_imgid e) i (heap_script t) (mem t))
      as [[r script'] m'] eqn:Hnew.
    ok_bind Hsel as t2 Hset. injection Hsel as -> _ <- _.
    apply new_null in Hnew as [-> Hscript].
    pose proof (lut_set_thumb_script _ _ _ _ Hset) as Hscr.
    apply lut_set_thumb_spec in Hset as (Hfr & Hmem & Hlist & _).
    simpl in *. rewrite Hmem.
    split; [|split; [|split; [|split]]].
    - destruct Hfr as (?&?&?&?&?&?). by repeat split.
    - apply mem_keeps_refl.
    - apply mem_from_refl.
    - lia.
    - right. left. split; [by rewrite Hlist | by rewrite Hscr]. }
  ok_bind H as thumb Hd.
  destruct (negb (th_rowid thumb =? i) || negb (th_imgid thumb =? lut_imgid e)) eqn:Hassert;
    [discriminate|].
  apply orb_false_elim in Hassert as [Hrow Himg].
  apply negb_false_iff, Z.eqb_eq in Hrow. apply negb_false_iff, Z.eqb_eq in Himg.
  ok_bind H as thumb1 H1. injection H as <- <-.
  set (thumb2 := dt_thumbnail_set_mouseover thumb1 (mouse_over =? th_imgid thumb1)).
  assert (same_item thumb thumb2) as Hsame.
  { assert (same_item thumb thumb1) as Hs1.
    { destruct (new_item || _).
      - ok_bind H1 as [b th'] E. injection H1 as <-.
        apply set_thumb_position_same_item in E. destruct E as [E1 E2]. by split.
      - injection H1 as <-. apply same_item_refl. }
    destruct Hs1. by split. }
  destruct (store_keeps _ _ _ _ Hd Hsame) as [Hk Hf].
  destruct (lut_thumb e) as [q|] eqn:Hth.
  - injection Hsel as <- <- <- <-. simpl.
    repeat split; try done. { by rewrite length_store. } by left.
  - destruct (dt_thumbnail_new (lut_imgid e) i (heap_script t) (mem t))
      as [[r script'] m'] eqn:Hnew.
    ok_bind Hsel as t2 Hset. injection Hsel as -> <- <- <-.
    apply deref_new in Hnew as (Hp & _ & Hold & Hlen & Hscript).
    pose proof (lut_set_thumb_script _ _ _ _ Hset) as Hscr.
    apply lut_set_thumb_spec in Hset as (Hfr & Hmem & Hlist & e0 & He0 & He2).
    simpl in *. rewrite Hmem in *.
    split; [|split; [|split; [|split]]].
    + destruct Hfr as (?&?&?&?&?&?). by repeat split.
    + intros r th Hr. apply Hk. rewrite Hold; [done|]. by eapply deref_lt.
    + intros r th Hr Hlt.
      destruct (Hf _ _ Hr) as (th0 & Hth0 & Hs0).
      { apply deref_lt in Hr. by rewrite length_store in Hr. }
      rewrite Hold in Hth0 by done. eauto.
    + rewrite length_store. lia.
    + right. right. exists p. split; [by rewrite Hlist|].
      split; [|split; [done | split; [rewrite length_store; lia | congruence]]].
      exists thumb2, {| lut_imgid := lut_imgid e0; lut_thumb := Some p |}.
      simpl. split; [by eapply deref_store_eq|].
      destruct Hsame as [Hs1 Hs2]. simpl in Hs1, Hs2. rewrite <- Hs1, <- Hs2, Hrow, Himg.
      split; [done|].
      unfold lut_at in He, He0. simpl in He0. rewrite He in He0. by injection He0 as ->.
Qed.

(** The links a run of the loop adds in front of the list: the new
    thumbnails, each in step with its cell, and a NULL link for every
    allocation that failed. *)
Lemma populate_loop_spec k mouse_over : forall i t n t' n',
  populate_loop k mouse_over i (t, n) = Ok (t', n') ->
  same_frame t t' /\ mem_keeps (mem t) (mem t') /\ mem_from (mem t) (mem t')
  /\ (length (mem t) <= length (mem t'))%nat
  /\ exists new, tlist t' = new ++ tlist t /\ ((None ∉ new) -> NoDup new)
                 /\ (malloc_succeeds t -> (None ∉ new) /\ malloc_succeeds t')
                 /\ forall p, Some p ∈ new -> in_sync t' p /\ (length (mem t) <= p)%nat.
Proof.
  induction k as [|k IH]; intros i t n t' n' H; simpl in H.
  - injection H as <- <-.
    repeat split; auto using mem_keeps_refl, mem_from_refl.
    exists []. split; [done|]. split; [constructor|]. split.
    + intros Hs. split; [apply not_elem_of_nil | done].
    + intros p Hp. by apply elem_of_nil in Hp.
  - ok_bind H as [t1 n1] Hstep.
    apply populate_step_spec in Hstep as (Hf1 & Hk1 & Hm1 & Hl1 & Hlist1).
    apply IH in H as (Hf2 & Hk2 & Hm2 & Hl2 & new & Hnew & Hnd & Hheap & Hsync).
    split; [by eapply same_frame_trans|]. split; [by eapply mem_keeps_trans|].
    split; [by eapply mem_from_trans|]. split; [lia|].
    destruct Hlist1 as [[Heq Hscr] | [[Heq Hscr] | (p & Heq & Hp & Hpl & Hpl' & Hscr)]].
    + exists new. split; [by rewrite Hnew, Heq|]. split; [done|]. split.
      * intros Hs. apply Hheap. unfold malloc_succeeds. by rewrite Hscr.
      * intros q Hq. destruct (Hsync q Hq). split; [done | lia].
    + exists (new ++ [None]). split; [by rewrite Hnew, Heq, <- app_assoc|]. split.
      { intros Hn. exfalso. apply Hn, elem_of_app. right. by apply list_elem_of_singleton. }
      split.
      * intros Hs. unfold malloc_succeeds in Hs. rewrite Hscr in Hs.
        apply Forall_cons in Hs as [[=] _].
      * intros q Hq. apply elem_of_app in Hq as [Hq | Hq].
        -- destruct (Hsync q Hq). split; [done | lia].
        -- by apply list_elem_of_singleton in Hq.
    + exists (new ++ [Some p]). split; [by rewrite Hnew, Heq, <- app_assoc|]. split.
      { intros Hn. apply NoDup_app. split.
        - apply Hnd. intros Hin. apply Hn, elem_of_app. by left.
        - split; [|apply NoDup_singleton].
          intros q Hq Hq'. apply list_elem_of_singleton in Hq' as ->.
          destruct (Hsync p Hq). lia. }
      split.
      * intros Hs.
        assert (malloc_succeeds t1) as Hs1.
        { unfold malloc_succeeds in *. rewrite Hscr.
          destruct (heap_script t) as [|b rest]; [done|]. by apply Forall_cons in Hs as [_ ?]. }
        destruct (Hheap Hs1) as [Hnn Hs']. split; [|done].
        intros Hin. apply elem_of_app in Hin as [Hin|Hin]; [done|].
        by apply list_elem_of_singleton in Hin.
      * intros q Hq. apply elem_of_app in Hq as [Hq | Hq].
        -- destruct (Hsync q Hq). split; [done | lia].
        -- apply list_elem_of_singleton in Hq as [= ->]. split; [|lia].
           apply (in_sync_keeps t1 t'); [by destruct Hf2 as (?&?&?&?&?&?) | done | done].
Qed.

Lemma populate_thumbnails_spec t mouse_over n t' n' :
  _populate_thumbnails t mouse_over n = Ok (t', n') ->
  same_frame t t' /\ mem_keeps (mem t) (mem t') /\ mem_from (mem t) (mem t')
  /\ (length (mem t) <= length (mem t'))%nat
  /\ exists new, tlist t' = new ++ tlist t /\ ((None ∉ new) -> NoDup new)
                 /\ (malloc_succeeds t -> (None ∉ new) /\ malloc_succeeds t')
                 /\ forall p, Some p ∈ new -> in_sync t' p /\ (length (mem t) <= p)%nat.
Proof.
  unfold _populate_thumbnails.
  destruct (Z.min (max_row_id t) (collection_count t) <? 0); [discriminate|].
  apply populate_loop_spec.
Qed.

End Populate.

(** ** Collecting garbage and resizing *)

Section Collect.

Implicit Types t : dt_thumbtable_t.

Lemma collect_garbage_frame t t' n n' th :
  same_frame t t' -> n' <= n ->
  collect_garbage t n th = false -> collect_garbage t' n' th = false.
Proof.
  intros (_ & Hnb & Hmin & Hmax & _ & _) Hn. unfold collect_garbage.
  rewrite Hnb, Hmin, Hmax. intros H.
  apply andb_false_iff in H as [H|H]; apply andb_false_iff; [left | by right].
  destruct (Z.gtb_spec (thumb_nb t + n) 210); [discriminate|].
  destruct (Z.gtb_spec (thumb_nb t + n') 210); [lia | done].
Qed.

Lemma is_in_collection_frame t t' th b :
  same_frame t t' -> is_in_collection t th = Ok b -> is_in_collection t' th = Ok b.
Proof.
  intros (_ & _ & _ & _ & Hids & _) H. unfold is_in_collection in *.
  ok_bind H as e He. injection H as <-.
  destruct (lut_at_ids _ _ _ _ Hids He) as (e' & He' & Hi'). rewrite He'. simpl.
  by rewrite Hi'.
Qed.

Lemma same_frame_set_mem t m : same_frame t (set_mem m t).
Proof. by repeat split. Qed.

Lemma gc_loop_spec links : forall t n kept t' n',
  gc_loop links t n = Ok (kept, t', n') ->
  same_frame t t' /\ n' <= n /\ length (mem t') = length (mem t)
  /\ (forall p th, deref (mem t') p = Ok th -> deref (mem t) p = Ok th)
  /\ (forall p th, deref (mem t) p = Ok th -> kept_by t n th -> deref (mem t') p = Ok th)
  /\ (forall p, Some p ∈ kept -> Some p ∈ links /\ in_sync t' p)
  /\ (forall p th, Some p ∈ links -> deref (mem t) p = Ok th ->
                   is_in_collection t th = Ok false ->
                   deref (mem t') p = Fault UseAfterFree).
Proof.
  induction links as [|[p|] rest IH]; intros t n kept t' n' H; simpl in H; [| |discriminate].
  - injection H as <- <- <-. split; [apply same_frame_refl|]. split; [lia|].
    split; [done|]. split; [auto|]. split; [auto|]. split.
    + intros q Hq. by apply elem_of_nil in Hq.
    + intros q th Hq. by apply elem_of_nil in Hq.
  - ok_bind H as thumb Hd. ok_bind H as inc Hi. ok_bind H as t1 Ht1.
    assert (same_frame t t1 /\ mem t1 = mem t) as [Hf1 Hm1].
    { destruct (collect_garbage t n thumb && inc).
      - apply lut_set_thumb_spec in Ht1 as (? & ? & _). done.
      - injection Ht1 as <-. split; [apply same_frame_refl | done]. }
    destruct (collect_garbage t n thumb || negb inc) eqn:Hgo.
    + ok_bind H as m' Hdes. rewrite Hm1 in Hdes.
      apply destroy_spec in Hdes as (Hp & Hother & Hlen).
      apply IH in H as (Hf & Hn & Hlen' & Hback & Hkeep & Hkept & Hstale). simpl in *.
      assert (same_frame t (set_mem m' t1)) as Hf2
        by (eapply same_frame_trans; [exact Hf1 | apply same_frame_set_mem]).
      split; [by eapply same_frame_trans|]. split; [lia|]. split; [congruence|].
      split; [|split; [|split]].
      * intros q th Hq. apply Hback in Hq. destruct (decide (q = p)) as [->|Hne].
        -- congruence.
        -- by rewrite Hother in Hq.
      * intros q th Hq [Hk1 Hk2]. destruct (decide (q = p)) as [->|Hne].
        -- rewrite Hd in Hq. injection Hq as ->. rewrite Hi in Hk2. injection Hk2 as ->.
           rewrite Hk1 in Hgo. discriminate.
        -- apply Hkeep; [by rewrite Hother|]. split.
           ++ eapply collect_garbage_frame; [exact Hf2 | | exact Hk1]. lia.
           ++ by eapply is_in_collection_frame.
      * intros q Hq. apply Hkept in Hq as [Hq1 Hq2]. split; [by apply elem_of_cons; right | done].
      * intros q th Hq Hdq Hiq. destruct (decide (q = p)) as [->|Hne].
        -- destruct (deref_cases (mem t') p) as [[th' Hth']|Hth']; [|done].
           apply Hback in Hth'. congruence.
        -- apply elem_of_cons in Hq as [[=]|Hq]; [done|].
           eapply Hstale; [done | by rewrite Hother | by eapply is_in_collection_frame].
    + apply orb_false_elim in Hgo as [Hcg Hinc]. apply negb_false_iff in Hinc. subst inc.
      rewrite Hcg in Ht1. simpl in Ht1. injection Ht1 as <-.
      ok_bind H as [[kept' t2] n2] Hrec. injection H as <- <- <-.
      apply IH in Hrec as (Hf & Hn & Hlen' & Hback & Hkeep & Hkept & Hstale).
      split; [done|]. split; [done|]. split; [done|]. split; [done|]. split; [done|]. split.
      * intros q Hq. apply elem_of_cons in Hq as [[= ->]|Hq].
        -- split; [by apply elem_of_cons; left|].
           pose proof (Hkeep _ _ Hd (conj Hcg Hi)) as Hd'.
           unfold is_in_collection in Hi. ok_bind Hi as e He. injection Hi as Hi.
           apply Z.eqb_eq in Hi.
           destruct Hf as (_ & _ & _ & _ & Hids & _).
           destruct (lut_at_ids _ _ _ _ Hids He) as (e' & He' & Hie').
           exists thumb, e'. split; [done|]. split; [done|]. congruence.
        -- apply Hkept in Hq as [Hq1 Hq2]. split; [by apply elem_of_cons; right | done].
      * intros q th Hq Hdq Hiq. apply elem_of_cons in Hq as [[= ->]|Hq].
        -- rewrite Hd in Hdq. injection Hdq as ->. congruence.
        -- by eapply Hstale.
Qed.

(** A collection that returns met no NULL link; it leaves the allocator
    alone and keeps links of the list only. *)
Lemma gc_loop_links links : forall t n kept t' n',
  gc_loop links t n = Ok (kept, t', n') ->
  (None ∉ links) /\ heap_script t' = heap_script t /\ (forall l, l ∈ kept -> l ∈ links).
Proof.
  induction links as [|[p|] rest IH]; intros t n kept t' n' H; simpl in H; [| |discriminate].
  - injection H as <- <- <-. split; [apply not_elem_of_nil | done].
  - ok_bind H as thumb Hd. ok_bind H as inc Hi. ok_bind H as t1 Ht1.
    assert (heap_script t1 = heap_script t) as Hs1.
    { destruct (collect_garbage t n thumb && inc).
      - by eapply lut_set_thumb_script.
      - by injection Ht1 as <-. }
    destruct (collect_garbage t n thumb || negb inc).
    + ok_bind H as m' Hdes. apply IH in H as (Hn & Hs & Hsub). simpl in Hs.
      split; [|split; [congruence|]].
      * intros Hin. apply elem_of_cons in Hin as [[=]|Hin]. done.
      * intros l Hl. apply elem_of_cons. right. by apply Hsub.
    + ok_bind H as [[kept' t2] n2] Hrec. injection H as <- <- <-.
      apply IH in Hrec as (Hn & Hs & Hsub).
      split; [|split; [congruence|]].
      * intros Hin. apply elem_of_cons in Hin as [[=]|Hin]. done.
      * intros l Hl. apply elem_of_cons in Hl as [->|Hl]; apply elem_of_cons; [by left|].
        right. by apply Hsub.
Qed.

Lemma resize_step_spec t p t' :
  resize_step t p = Ok t' ->
  same_frame t t' /\ tlist t' = tlist t
  /\ mem_keeps (mem t) (mem t') /\ mem_from (mem t) (mem t')
  /\ length (mem t') = length (mem t).
Proof.
  unfold resize_step. intros H. ok_bind H as thumb Hd.
  destruct (negb _ && _).
  - ok_bind H as [b th'] Hpos. injection H as <-. simpl.
    apply set_thumb_position_same_item in Hpos.
    assert (same_item thumb th') as Hs by (destruct Hpos; by split).
    destruct (store_keeps _ _ _ _ Hd Hs) as [Hk Hf].
    repeat split; try done. by rewrite length_store.
  - injection H as <-. repeat split; auto using mem_keeps_refl, mem_from_refl.
Qed.

Lemma resize_step_script t p t' :
  resize_step t p = Ok t' -> heap_script t' = heap_script t.
Proof.
  unfold resize_step. intros H. ok_bind H as thumb Hd.
  destruct (negb _ && _).
  - ok_bind H as [b th'] Hpos. by injection H as <-.
  - by injection H as <-.
Qed.

Lemma resize_loop_links links : forall t t',
  resize_loop links t = Ok t' -> (None ∉ links) /\ heap_script t' = heap_script t.
Proof.
  induction links as [|[p|] rest IH]; intros t t' H; simpl in H; [| |discriminate].
  - injection H as <-. split; [apply not_elem_of_nil | done].
  - ok_bind H as t1 Hstep. apply resize_step_script in Hstep.
    apply IH in H as [Hn Hs]. split; [|congruence].
    intros Hin. apply elem_of_cons in Hin as [[=]|Hin]. done.
Qed.

Lemma resize_loop_spec links : forall t t',
  resize_loop links t = Ok t' ->
  same_frame t t' /\ tlist t' = tlist t
  /\ mem_keeps (mem t) (mem t') /\ mem_from (mem t) (mem t')
  /\ length (mem t') = length (mem t).
Proof.
  induction links as [|[p|] rest IH]; intros t t' H; simpl in H; [| |discriminate].
  - injection H as <-. repeat split; auto using mem_keeps_refl, mem_from_refl.
  - ok_bind H as t1 Hstep. apply resize_step_spec in Hstep as (Hf1 & Hl1 & Hk1 & Hm1 & Hn1).
    apply IH in H as (Hf2 & Hl2 & Hk2 & Hm2 & Hn2).
    split; [by eapply same_frame_trans|]. split; [congruence|].
    split; [by eapply mem_keeps_trans|]. split; [|congruence].
    eapply mem_from_trans; [|done|done]. lia.
Qed.

Lemma destroy_all_spec links : forall m m',
  destroy_all links m = Ok m' ->
  length m' = length m
  /\ (forall p th, deref m' p = Ok th -> deref m p = Ok th)
  /\ (forall p, Some p ∈ links -> deref m' p = Fault UseAfterFree).
Proof.
  induction links as [|[p|] rest IH]; intros m m' H; simpl in H; [| |discriminate].
  - injection H as <-. repeat split; auto. intros p Hp. by apply elem_of_nil in Hp.
  - ok_bind H as m1 Hdes. apply destroy_spec in Hdes as (Hp & Hother & Hlen).
    apply IH in H as (Hlen' & Hback & Hgone).
    split; [congruence|]. split.
    + intros q th Hq. apply Hback in Hq. destruct (decide (q = p)) as [->|Hne].
      * congruence.
      * by rewrite Hother in Hq.
    + intros q Hq. destruct (decide (Some q ∈ rest)) as [Hin|Hnin]; [by apply Hgone|].
      apply elem_of_cons in Hq as [[= ->]|?]; [|done].
      destruct (deref_cases m' p) as [[th Hth]|Hth]; [|done].
      apply Hback in Hth. congruence.
Qed.

End Collect.

(** ** The rule of the garbage collection *)

(** What [_garbage_collection] does with the link at the head of the links
    still to visit: the thumbnail is destroyed exactly when it is out of the
    collection, or when there are more than 210 thumbnails and its row id is
    below [min_row_id] or above [max_row_id]. *)
Lemma gc_loop_head (p : ptr) (rest : list (option ptr)) (t : dt_thumbtable_t)
    (num_thumb : Z)
    (thumb : dt_thumbnail_t) (inc : bool) kept t' n' :
  deref (mem t) p = Ok thumb ->
  is_in_collection t thumb = Ok inc ->
  gc_loop (Some p :: rest) t num_thumb = Ok (kept, t', n') ->
  if (negb inc
      || ((thumb_nb t + num_thumb >? 210)
          && ((th_rowid thumb <? min_row_id t) || (th_rowid thumb >? max_row_id t))))
  then exists t1, gc_loop rest t1 (num_thumb - 1) = Ok (kept, t', n')
                  /\ deref (mem t1) p = Fault UseAfterFree
  else exists kept', kept = Some p :: kept' /\ gc_loop rest t num_thumb = Ok (kept', t', n').
Proof.
  intros Hd Hi H. simpl in H. rewrite Hd in H. simpl in H. rewrite Hi in H. simpl in H.
  fold (collect_garbage t num_thumb thumb).
  rewrite orb_comm.
  destruct (collect_garbage t num_thumb thumb) eqn:Hcg, inc; simpl in *.
  - ok_bind H as t1 E1. ok_bind H as m' E2. exists (set_mem m' t1). split; [done|].
    unfold dt_thumbnail_destroy in E2. simpl. unfold deref.
    destruct (mem t1 !! p) as [[th|]|] eqn:E; try discriminate.
    injection E2 as <-. rewrite list_lookup_insert_eq; [done|]. by eapply lookup_lt_Some.
  - ok_bind H as m' E2. exists (set_mem m' t). split; [done|].
    unfold dt_thumbnail_destroy in E2. simpl. unfold deref.
    destruct (mem t !! p) as [[th|]|] eqn:E; try discriminate.
    injection E2 as <-. rewrite list_lookup_insert_eq; [done|]. by eapply lookup_lt_Some.
  - ok_bind H as [[kept' t2] n2] E2. injection H as <- <- <-. eauto.
  - ok_bind H as m' E2. exists (set_mem m' t). split; [done|].
    unfold dt_thumbnail_destroy in E2. simpl. unfold deref.
    destruct (mem t !! p) as [[th|]|] eqn:E; try discriminate.
    injection E2 as <-. rewrite list_lookup_insert_eq; [done|]. by eapply lookup_lt_Some.
Qed.

(** C1 (what the code does at the upper end of the window): with 211
    thumbnails alive and the window [[0, 210)], the thumbnail at position 210
    is in the collection, lies outside the window into which
    [_populate_thumbnails] loads, and is the first one visited; the garbage
    collection keeps it, and every other one.  With 212 thumbnails alive the
    one at position 211 is destroyed and the one at position 210 is kept:
    211 thumbnails stay, one of them outside [[0, 210)]. *)
Theorem gc_keeps_thumb_at_max_row_id :
  thumb_nb crowded = 211 /\ min_row_id crowded = 0 /\ max_row_id crowded = 210
  /\ tlist crowded !! 0%nat = Some (Some 210%nat)
  /\ deref (mem crowded) 210%nat = Ok (sample_thumb 1210 210 100 100 0 21000)
  /\ is_in_collection crowded (sample_thumb 1210 210 100 100 0 21000) = Ok true
  /\ collect_garbage crowded 0 (sample_thumb 1210 210 100 100 0 21000) = false
  /\ _garbage_collection crowded 0 = Ok (crowded, 0)
  /\ (exists t',
        _garbage_collection (loaded_table 212 300 0 210) 0 = Ok (t', -1)
        /\ length (tlist t') = 211%nat
        /\ deref (mem t') 211%nat = Fault UseAfterFree
        /\ deref (mem t') 210%nat = Ok (sample_thumb 1210 210 100 100 0 21000)).
Proof.
  repeat split; try (vm_compute; reflexivity).
  eexists. split; [vm_compute; reflexivity|]. repeat split.
Qed.

(** ** The whole cycle *)

Section Cycle.

Implicit Types t : dt_thumbtable_t.

Lemma in_sync_fields t t' p :
  mem t' = mem t -> lut t' = lut t -> in_sync t p -> in_sync t' p.
Proof.
  intros Hm Hl (th & e & Hd & He & Hi). exists th, e.
  unfold lut_at in *. by rewrite Hm, Hl.
Qed.

(** The table after the list was emptied on request, or the table as it
    was. *)
Lemma update_reset_spec t t1 :
  (if reset_collection t
   then t' ← _dt_thumbtable_empty_list t; Ok (set_reset_collection false t')
   else Ok t) = Ok t1 ->
  lut t1 = lut t /\ collection_count t1 = collection_count t
  /\ length (mem t1) = length (mem t)
  /\ (forall p th, deref (mem t1) p = Ok th -> deref (mem t) p = Ok th)
  /\ ((tlist t1 = [] /\ forall p, Some p ∈ tlist t -> deref (mem t1) p = Fault UseAfterFree)
      \/ t1 = t).
Proof.
  destruct (reset_collection t).
  - intros H. ok_bind H as t0 E. injection H as <-.
    unfold _dt_thumbtable_empty_list in E. ok_bind E as m' Hd. injection E as <-. simpl.
    apply destroy_all_spec in Hd as (Hlen & Hback & Hgone).
    repeat split; auto.
  - intros [= <-]. repeat split; auto.
Qed.

Lemma update_cycle_spec mouse_over t t' :
  update_runs t = true -> dt_thumbtable_update mouse_over t = Ok t' ->
  lut_ids t' = lut_ids t /\ collection_count t' = collection_count t
  /\ (forall p, Some p ∈ tlist t' -> in_sync t' p)
  /\ (forall p, Some p ∈ tlist t -> stale t p -> deref (mem t') p = Fault UseAfterFree).
Proof.
  intros Hr H. unfold dt_thumbtable_update in H. rewrite Hr in H. simpl in H.
  ok_bind H as t1 Hreset. ok_bind H as [t2 n2] Hpop. ok_bind H as [t3 n3] Hgc.
  injection H as <-.
  apply update_reset_spec in Hreset as (Hlut1 & Hcount1 & Hlen1 & Hback1 & Hlist1).
  apply populate_thumbnails_spec in Hpop
    as ((Hc2 & _ & _ & _ & Hids2 & _) & Hk2 & Hm2 & Hl2 & new & Hnew & _ & _ & Hsync2).
  assert (lut_ids t1 = lut_ids t) as Hids1 by (unfold lut_ids; by rewrite Hlut1).
  destruct (list_is_null (tlist t1)) eqn:Hnull; simpl in Hgc.
  - injection Hgc as <- <-. destruct (tlist t1) as [|? ?] eqn:Hl; [|discriminate].
    rewrite app_nil_r in Hnew.
    split; [unfold lut_ids in *; simpl in *; congruence|]. split; [simpl; congruence|]. split.
    + intros p Hp. simpl in Hp. rewrite Hnew in Hp.
      apply (in_sync_fields t2); [done | done | by apply Hsync2].
    + intros p Hp (th & e & Hd & _). simpl.
      destruct Hlist1 as [[_ Hgone] | ->]; [|rewrite Hl in Hp; by apply elem_of_nil in Hp].
      destruct (deref_cases (mem t2) p) as [[th' Hth']|Hth']; [|done].
      destruct (Hm2 _ _ Hth') as (th0 & Hth0 & _).
      * rewrite Hlen1. by eapply deref_lt.
      * rewrite (Hgone p Hp) in Hth0. discriminate.
  - ok_bind Hgc as [tg ng] Hg. ok_bind Hgc as tr Hres. injection Hgc as <- <-.
    unfold _garbage_collection in Hg. ok_bind Hg as [[kept tc] nc] Hloop.
    injection Hg as <- <-.
    apply gc_loop_spec in Hloop
      as ((Hcc & _ & _ & _ & Hidsc & _) & _ & Hlenc & Hbackc & _ & Hkept & Hstale).
    apply resize_loop_spec in Hres
      as ((Hcr & _ & _ & _ & Hidsr & _) & Hlr & Hkr & Hmr & Hlenr).
    simpl in *.
    split; [unfold lut_ids in *; simpl in *; congruence|]. split; [congruence|]. split.
    + intros p Hp. rewrite Hlr in Hp. apply Hkept in Hp as [_ Hp].
      apply (in_sync_fields tr); [done | done |].
      apply (in_sync_keeps (set_tlist kept tc)); [done | done |].
      by apply (in_sync_fields tc).
    + intros p Hp (th & e & Hd & He & Hne).
      destruct Hlist1 as [[Hnil _] | ->]; [by rewrite Hnil in Hnull|].
      destruct (Hk2 _ _ Hd) as (th2 & Hd2 & Hrow & Himg).
      rewrite Hrow in He. destruct (lut_at_ids _ _ _ _ Hids2 He) as (e2 & He2 & Hie2).
      assert (deref (mem tc) p = Fault UseAfterFree) as Hgone.
      { eapply Hstale; [|exact Hd2|].
        - rewrite Hnew. apply elem_of_app. by right.
        - unfold is_in_collection. rewrite He2. simpl. f_equal.
          apply Z.eqb_neq. congruence. }
      destruct (deref_cases (mem tr) p) as [[th' Hth']|Hth']; [|done].
      destruct (Hmr _ _ Hth') as (th0 & Hth0 & _); [|congruence].
      rewrite Hlenc. by eapply deref_lt.
Qed.

End Cycle.

(** What the garbage collection compares: after a cycle of
    [dt_thumbtable_update] that ran to its end, every thumbnail of the list
    is alive and the cell of the array at its row id, read whatever the
    count of the collection, holds its image; a thumbnail that was in the
    list and whose cell held another image has been destroyed and is no
    longer in the list, wherever its row id lies with respect to the
    window. *)
Lemma update_keeps_list_in_sync (mouse_over : Z) (t t' : dt_thumbtable_t) :
  update_runs t = true ->
  dt_thumbtable_update mouse_over t = Ok t' ->
  (forall p, Some p ∈ tlist t' -> in_sync t' p)
  /\ (forall p, Some p ∈ tlist t -> stale t p ->
        (Some p ∉ tlist t') /\ deref (mem t') p = Fault UseAfterFree).
Proof.
  intros Hr H. destruct (update_cycle_spec _ _ _ Hr H) as (_ & _ & Hsync & Hstale).
  split; [done|]. intros p Hp Hs. pose proof (Hstale p Hp Hs) as Hgone.
  split; [|done]. intros Hin. destruct (Hsync p Hin) as (th & _ & Hd & _). congruence.
Qed.

Lemma update_keeps_list_in_sync_witness :
  exists t',
    dt_thumbtable_update (-1) grid12_replaced = Ok t'
    /\ (forall p, Some p ∈ tlist t' -> in_sync t' p)
    /\ Some (4%nat) ∈ tlist grid12_replaced
    /\ stale grid12_replaced 4%nat
    /\ min_row_id grid12_replaced <= 4 < max_row_id grid12_replaced
    /\ (Some (4%nat) ∉ tlist t')
    /\ deref (mem t') 4%nat = Fault UseAfterFree.
Proof.
  assert (update_runs grid12_replaced = true) as Hr by (vm_compute; reflexivity).
  assert (Some (4%nat) ∈ tlist grid12_replaced) as Hin.
  { apply list_elem_of_lookup. exists 4%nat. vm_compute. reflexivity. }
  assert (stale grid12_replaced 4%nat) as Hs.
  { exists (sample_thumb 15 4 100 100 100 100), {| lut_imgid := 35; lut_thumb := None |}.
    split; [vm_compute; reflexivity|]. split; [vm_compute; reflexivity|].
    simpl. intros [=]. }
  assert (min_row_id grid12_replaced <= 4 < max_row_id grid12_replaced) as Hwin.
  { vm_compute. split; [intros [=] | reflexivity]. }
  assert (exists t', dt_thumbtable_update (-1) grid12_replaced = Ok t') as [t' E]
    by (eexists; vm_compute; reflexivity).
  destruct (update_keeps_list_in_sync (-1) grid12_replaced t' Hr E) as [Hsync Hstale].
  destruct (Hstale _ Hin Hs) as [Hout Hgone].
  exists t'. split; [exact E|]. split; [exact Hsync|]. split; [exact Hin|].
  split; [exact Hs|]. split; [exact Hwin|]. split; [exact Hout | exact Hgone].
Defined.

(** A cycle that does not complete: once the collection has shrunk below
    the position of a thumbnail of the list, [_garbage_collection] reads the
    look-up table past its end. *)
Lemma update_after_shrink_reads_out_of_bounds :
  update_runs grid12_shrunk = true
  /\ deref (mem grid12_shrunk) 8%nat = Ok (sample_thumb 19 8 100 100 200 200)
  /\ lut_at grid12_shrunk 8 = Fault OutOfBounds
  /\ dt_thumbtable_update (-1) grid12_shrunk = Fault OutOfBounds.
Proof. repeat split; vm_compute; reflexivity. Qed.

(** C2 (what the code does with the thumbnails of a former collection):
    [_garbage_collection] compares a thumbnail with the cell of the array
    at its row id and never looks at the count of the collection.  After
    the collection became empty the array of the former collection is
    still there: the cycle runs to its end and leaves its nine thumbnails
    alive and in the list, although the collection counts no image.  After
    the collection shrank to six images, the thumbnails at the positions 6
    to 8 are still in the list and the cycle reads the array of six cells
    at their row ids. *)
Theorem update_keeps_superseded_thumbnails :
  (update_runs grid12_loaded_emptied = true
   /\ collection_count grid12_loaded_emptied = 0
   /\ exists t',
        dt_thumbtable_update (-1) grid12_loaded_emptied = Ok t'
        /\ collection_count t' = 0
        /\ length (tlist t') = 9%nat
        /\ tlist t' = tlist grid12_loaded
        /\ mem t' = mem grid12_loaded
        /\ deref (mem t') 4%nat = Ok (sample_thumb 15 4 100 100 100 100))
  /\ (update_runs grid12_shrunk = true
      /\ collection_count grid12_shrunk = 6
      /\ tlist grid12_shrunk !! 0%nat = Some (Some 8%nat)
      /\ deref (mem grid12_shrunk) 8%nat = Ok (sample_thumb 19 8 100 100 200 200)
      /\ lut_at grid12_shrunk 8 = Fault OutOfBounds
      /\ dt_thumbtable_update (-1) grid12_shrunk = Fault OutOfBounds).
Proof.
  split.
  - split; [vm_compute; reflexivity|]. split; [vm_compute; reflexivity|].
    eexists. split; [vm_compute; reflexivity|].
    split; [|split; [|split; [|split]]]; vm_compute; reflexivity.
  - split; [|split; [|split; [|split; [|split]]]]; vm_compute; reflexivity.
Qed.

(** ** One cycle, then another *)

Lemma update_skipped mouse_over t :
  update_runs t = false -> dt_thumbtable_update mouse_over t = Ok t.
Proof. intros H. unfold dt_thumbtable_update. by rewrite H. Qed.

Lemma update_ends_inited mouse_over t t' :
  update_runs t = true -> dt_thumbtable_update mouse_over t = Ok t' ->
  thumbs_inited t' = true.
Proof.
  intros Hr H. unfold dt_thumbtable_update in H. rewrite Hr in H. simpl in H.
  ok_bind H as t1 E1. ok_bind H as [t2 n2] E2. ok_bind H as [t3 n3] E3.
  by injection H as <-.
Qed.

(** C3: a second call of [dt_thumbtable_update] right after a first one
    returns the table as the first call left it: the same list, the same
    thumbnails with the same positions and coordinates. *)
Theorem update_idempotent (mouse_over mouse_over' : Z) (t t' : dt_thumbtable_t) :
  dt_thumbtable_update mouse_over t = Ok t' ->
  dt_thumbtable_update mouse_over' t' = Ok t'.
Proof.
  intros H. destruct (update_runs t) eqn:Hr.
  - apply update_skipped. pose proof (update_ends_inited _ _ _ Hr H) as Hi.
    unfold update_runs. rewrite Hi. simpl. by rewrite !andb_false_r.
  - rewrite (update_skipped _ _ Hr) in H. injection H as <-.
    by apply update_skipped.
Qed.

Lemma update_idempotent_witness :
  exists t', dt_thumbtable_update (-1) grid12 = Ok t'
             /\ dt_thumbtable_update 12 t' = Ok t'.
Proof.
  assert (exists t', dt_thumbtable_update (-1) grid12 = Ok t') as [t' E]
    by (eexists; vm_compute; reflexivity).
  exists t'. split; [exact E|]. exact (update_idempotent (-1) 12 grid12 t' E).
Defined.

(** ** Looking up the position of a live thumbnail *)

Lemma lut_search_finds (l : list dt_thumbtable_cache_t) (imgid : Z) (k : nat)
    (e : dt_thumbtable_cache_t) :
  NoDup (lut_imgid <$> l) -> l !! k = Some e -> lut_imgid e = imgid ->
  forall n i, (i <= k)%nat -> (k < i + n)%nat ->
              lut_search n l imgid (Z.of_nat i) = Ok (Z.of_nat k).
Proof.
  intros Hnd Hk He. induction n as [|n IH]; intros i Hik Hkn; [lia|]. simpl.
  assert (i < length l)%nat as Hil by (apply lookup_lt_Some in Hk; lia).
  destruct (lookup_lt_is_Some_2 l i Hil) as [ei Hei].
  assert (lut_get l (Z.of_nat i) = Ok ei) as ->.
  { apply lut_get_Some. split; [lia|]. by rewrite Nat2Z.id. }
  simpl. destruct (Z.eqb_spec (lut_imgid ei) imgid) as [Heq|Hne].
  - assert (i = k) as ->; [|done].
    eapply NoDup_lookup; [exact Hnd | |].
    + by rewrite list_lookup_fmap, Hei.
    + rewrite list_lookup_fmap, Hk. simpl. congruence.
  - assert (i <> k) by (intros ->; congruence).
    replace (Z.of_nat i + 1) with (Z.of_nat (S i)) by lia. apply IH; lia.
Qed.

(** C8 (as stated, refuted): after a cycle that ran to its end, the
    thumbnail at position 2 of a collection that lists image 7 at the
    positions 0 and 2 is looked up at position 0; and after the collection
    became empty, the thumbnails of the former collection are still in the
    list, and their image is not found at all. *)
Lemma lookup_position_misses_live_thumbnail :
  (exists t',
     dt_thumbtable_update (-1) grid_twice = Ok t'
     /\ tlist t' = [Some 2; Some 1; Some 0]%nat
     /\ deref (mem t') 2%nat = Ok (sample_thumb 7 2 100 100 200 0)
     /\ _imgid_to_rowid t' 7 = Ok 0)
  /\ (exists t',
     dt_thumbtable_update (-1) grid12_loaded_emptied = Ok t'
     /\ update_runs grid12_loaded_emptied = true
     /\ tlist t' !! 4%nat = Some (Some 4%nat)
     /\ deref (mem t') 4%nat = Ok (sample_thumb 15 4 100 100 100 100)
     /\ _imgid_to_rowid t' 15 = Ok (-1)).
Proof.
  split; eexists; (split; [vm_compute; reflexivity|]); repeat split; vm_compute; reflexivity.
Qed.

(** C8 (amended): when the look-up table lists no image twice and has as
    many cells as the collection counts images, then after a cycle that ran
    to its end [_imgid_to_rowid], asked for the image of a thumbnail of the
    list, returns the row id of that thumbnail. *)
Theorem lookup_position_round_trip (mouse_over : Z) (t t' : dt_thumbtable_t)
    (l : list dt_thumbtable_cache_t) :
  update_runs t = true ->
  dt_thumbtable_update mouse_over t = Ok t' ->
  lut t = Some l ->
  collection_count t = Z.of_nat (length l) ->
  NoDup (lut_imgid <$> l) ->
  forall p, Some p ∈ tlist t' ->
    exists thumb, deref (mem t') p = Ok thumb
                  /\ _imgid_to_rowid t' (th_imgid thumb) = Ok (th_rowid thumb).
Proof.
  intros Hr H Hl Hc Hnd p Hp.
  destruct (update_cycle_spec _ _ _ Hr H) as (Hids & Hcount & Hsync & _).
  destruct (Hsync p Hp) as (th & e & Hd & He & Hi). exists th. split; [done|].
  unfold lut_ids in Hids. rewrite Hl in Hids. unfold _imgid_to_rowid, lut_at in *.
  destruct (lut t') as [l'|]; [|discriminate]. injection Hids as Hids.
  apply lut_get_Some in He as [Hpos He].
  assert (length l' = length l) as Hlen.
  { rewrite <- (length_fmap lut_imgid l'), Hids. apply length_fmap. }
  rewrite Hcount, Hc, Nat2Z.id, <- Hlen.
  rewrite <- (Z2Nat.id (th_rowid th)) by done.
  apply (lut_search_finds l' (th_imgid th) (Z.to_nat (th_rowid th)) e
           ltac:(by rewrite Hids) He Hi (length l') 0%nat); [lia|].
  apply lookup_lt_Some in He. lia.
Qed.

Lemma lookup_position_round_trip_witness :
  exists t',
    dt_thumbtable_update (-1) grid12 = Ok t'
    /\ forall p, Some p ∈ tlist t' ->
         exists thumb, deref (mem t') p = Ok thumb
                       /\ _imgid_to_rowid t' (th_imgid thumb) = Ok (th_rowid thumb).
Proof.
  assert (NoDup (lut_imgid <$> fresh_cells [11; 12; 13; 14; 15; 16; 17; 18; 19; 20; 21; 22]))
    as Hnd by (apply (bool_decide_unpack _); vm_compute; exact I).
  assert (exists t', dt_thumbtable_update (-1) grid12 = Ok t') as [t' E]
    by (eexists; vm_compute; reflexivity).
  exists t'. split; [exact E|].
  exact (lookup_position_round_trip (-1) grid12 t' _ eq_refl E eq_refl eq_refl Hnd).
Defined.

(** ** A cycle on a well-formed table runs to its end *)

Section Completion.

Implicit Types t : dt_thumbtable_t.

Lemma set_thumb_position_total t th : exists r, _set_thumb_position t th = Ok r.
Proof.
  unfold _set_thumb_position. destruct (Z.ltb_spec (thumbs_per_row t) 1); [eauto|].
  destruct (rowid_to_position_no_fault t (th_rowid th) (th_x th, th_y th)) as [xy ->];
    [lia|]. simpl. eauto.
Qed.

Lemma links_ok_alive t links : links_ok t links -> links_alive (mem t) links.
Proof. intros H l Hl. destruct (H l Hl) as (p & th & e & -> & Hd & _). eauto. Qed.

Lemma links_alive_Some m links p :
  links_alive m links -> Some p ∈ links -> exists th, deref m p = Ok th.
Proof. intros H Hp. destruct (H _ Hp) as (q & th & [= <-] & Hd). eauto. Qed.

Lemma links_alive_no_null m links : links_alive m links -> None ∉ links.
Proof. intros H Hn. by destruct (H _ Hn) as (q & th & [=] & _). Qed.

Lemma destroy_all_ok links : forall m,
  NoDup links -> links_alive m links ->
  exists m', destroy_all links m = Ok m'.
Proof.
  induction links as [|[p|] rest IH]; intros m Hnd Hal; simpl; [eauto| |].
  - apply NoDup_cons in Hnd as [Hp Hnd].
    destruct (links_alive_Some m _ p Hal) as [th Hth]; [by apply elem_of_cons; left|].
    unfold dt_thumbnail_destroy at 1. apply deref_Ok in Hth as Hth'. rewrite Hth'. simpl.
    apply IH; [done|]. intros l Hl.
    destruct (Hal l) as (q & tq & -> & Htq); [by apply elem_of_cons; right|].
    exists q, tq. split; [done|]. unfold deref.
    rewrite list_lookup_insert_ne; [done|]. intros ->. done.
  - exfalso. apply (links_alive_no_null _ _ Hal). by apply elem_of_cons; left.
Qed.

Lemma lut_same_length t t' l l' :
  lut_ids t' = lut_ids t -> lut t = Some l -> lut t' = Some l' -> length l' = length l.
Proof.
  unfold lut_ids. intros H E E'. rewrite E, E' in H. injection H as H.
  by rewrite <- (length_fmap lut_imgid l'), H, length_fmap.
Qed.

Lemma lut_ids_Some t t' l :
  lut_ids t' = lut_ids t -> lut t = Some l -> exists l', lut t' = Some l'.
Proof.
  unfold lut_ids. intros H E. rewrite E in H. destruct (lut t'); [eauto | discriminate].
Qed.

Lemma populate_step_malloc mouse_over i t n t' n' :
  populate_step mouse_over i (t, n) = Ok (t', n') ->
  malloc_succeeds t -> malloc_succeeds t'.
Proof.
  intros H Hs. apply populate_step_spec in H as (_ & _ & _ & _ & Hlist).
  unfold malloc_succeeds in *.
  destruct Hlist as [[Heq Hscr] | [[Heq Hscr] | (p & Heq & _ & _ & _ & Hscr)]].
  - by rewrite Hscr.
  - rewrite Hscr in Hs. by apply Forall_cons in Hs as [[=] _].
  - rewrite Hscr. destruct (heap_script t) as [|b rest]; [done|].
    by apply Forall_cons in Hs as [_ ?].
Qed.

Lemma populate_step_ok mouse_over (k : nat) t n l :
  lut t = Some l -> (k < length l)%nat -> refs_ok t -> malloc_succeeds t ->
  exists t' n', populate_step mouse_over (Z.of_nat k) (t, n) = Ok (t', n') /\ refs_ok t'.
Proof.
  intros Hl Hk Hrefs Hheap. unfold populate_step.
  destruct (lookup_lt_is_Some_2 l k Hk) as [e He].
  assert (lut_at t (Z.of_nat k) = Ok e) as Hat.
  { unfold lut_at. rewrite Hl. apply lut_get_Some. split; [lia|]. by rewrite Nat2Z.id. }
  rewrite Hat. simpl. destruct (lut_thumb e) as [p|] eqn:Hth; simpl.
  - destruct (Hrefs l k e p Hl He Hth) as (th & Hd & Hrow & Himg).
    rewrite Hd. simpl. rewrite Hrow, Himg, !Z.eqb_refl. simpl.
    set (chg := negb (thumb_height t =? th_height th) || negb (thumb_width t =? th_width th)).
    assert (exists th1, (if chg
                         then '(_, th') ← _set_thumb_position t
                                (dt_thumbnail_resize th (thumb_width t) (thumb_height t));
                              Ok th'
                         else Ok th) = Ok th1 /\ same_item th th1) as (th1 & -> & Hs1).
    { destruct chg; [|eauto using same_item_refl].
      destruct (set_thumb_position_total t
                  (dt_thumbnail_resize th (thumb_width t) (thumb_height t))) as [[b th'] E].
      rewrite E. simpl. exists th'. split; [done|].
      apply set_thumb_position_same_item in E. destruct E. by split. }
    simpl. eexists _, _. split; [done|].
    intros l0 i e0 q Hl0 He0 Hq. simpl in *.
    destruct (Hrefs l0 i e0 q Hl0 He0 Hq) as (tq & Hdq & Hrq & Hiq).
    set (th2 := dt_thumbnail_set_mouseover th1 (mouse_over =? th_imgid th1)).
    assert (same_item th th2) as Hs2 by (destruct Hs1; by split).
    destruct (store_keeps _ _ _ _ Hd Hs2) as [Hkeep _].
    destruct (Hkeep _ _ Hdq) as (tq' & Hdq' & Hr' & Hi'). exists tq'.
    split; [done|]. split; congruence.
  - destruct (new_succeeds (mem t) (heap_script t) (lut_imgid e) (Z.of_nat k) Hheap)
      as (p & m' & Hnew & _).
    rewrite Hnew.
    apply deref_new in Hnew as (Hp & (thn & Hdn & Hin & Hrn) & Hold & Hlen & _).
    unfold lut_set_thumb. simpl. rewrite Hl. unfold lut_at in Hat. rewrite Hl in Hat.
    rewrite Hat. simpl.
    rewrite Hdn. simpl. rewrite Hrn, Hin, !Z.eqb_refl. simpl.
    match goal with
    | |- context [_set_thumb_position ?tt ?th] =>
        destruct (set_thumb_position_total tt th) as [[b th'] E]; rewrite E;
        apply set_thumb_position_same_item in E
    end.
    simpl. eexists _, _. split; [done|].
    intros l0 i e0 q Hl0 He0 Hq. simpl in *. injection Hl0 as <-.
    set (th2 := dt_thumbnail_set_mouseover th' (mouse_over =? th_imgid th')) in *.
    assert (same_item thn th2) as Hs2 by (destruct E; by split).
    destruct (store_keeps _ _ _ _ Hdn Hs2) as [Hkeep _].
    rewrite Nat2Z.id in He0.
    destruct (decide (i = k)) as [->|Hne].
    + rewrite list_lookup_insert_eq in He0 by done. injection He0 as <-. simpl in Hq.
      injection Hq as <-. destruct (Hkeep _ _ Hdn) as (tq' & Hdq' & Hr' & Hi').
      exists tq'. split; [done|]. simpl. split; congruence.
    + rewrite list_lookup_insert_ne in He0 by done.
      destruct (Hrefs l i e0 q Hl He0 Hq) as (tq & Hdq & Hrq & Hiq).
      pose proof (deref_lt _ _ _ Hdq) as Hlt. rewrite <- Hold in Hdq by done.
      destruct (Hkeep _ _ Hdq) as (tq' & Hdq' & Hr' & Hi').
      exists tq'. split; [done|]. split; congruence.
Qed.

Lemma populate_loop_ok mouse_over (k : nat) : forall (i : nat) t n l,
  lut t = Some l -> (i + k <= length l)%nat -> refs_ok t -> malloc_succeeds t ->
  exists t' n', populate_loop k mouse_over (Z.of_nat i) (t, n) = Ok (t', n') /\ refs_ok t'.
Proof.
  induction k as [|k IH]; intros i t n l Hl Hik Hrefs Hheap; [simpl; eauto|].
  destruct (populate_step_ok mouse_over i t n l Hl ltac:(lia) Hrefs Hheap)
    as (t1 & n1 & Hstep & Hrefs1).
  cbn [populate_loop]. rewrite Hstep. cbn [mbind result_bind].
  pose proof (populate_step_malloc _ _ _ _ _ _ Hstep Hheap) as Hheap1.
  apply populate_step_spec in Hstep as ((_ & _ & _ & _ & Hids & _) & _).
  destruct (lut_ids_Some _ _ _ Hids Hl) as [l1 Hl1].
  pose proof (lut_same_length _ _ _ _ Hids Hl Hl1) as Hlen.
  replace (Z.of_nat i + 1) with (Z.of_nat (S i)) by lia.
  apply (IH (S i) t1 n1 l1); [done | lia | done | done].
Qed.

Lemma populate_thumbnails_ok mouse_over t n l :
  lut t = Some l -> 0 <= collection_count t <= Z.of_nat (length l) ->
  0 <= max_row_id t -> refs_ok t -> malloc_succeeds t ->
  exists t' n', _populate_thumbnails t mouse_over n = Ok (t', n') /\ refs_ok t'.
Proof.
  intros Hl Hc Hmax Hrefs Hheap. unfold _populate_thumbnails.
  destruct (Z.ltb_spec (Z.min (max_row_id t) (collection_count t)) 0); [lia|].
  set (lo := Z.max (min_row_id t) 0). set (hi := Z.min (max_row_id t) (collection_count t)).
  destruct (Z.le_gt_cases hi lo) as [Hle|Hgt].
  - replace (Z.to_nat (hi - lo)) with O by lia. simpl. eauto.
  - rewrite <- (Z2Nat.id lo) by lia.
    apply (populate_loop_ok mouse_over _ _ t n l); [done | lia | done | done].
Qed.

Lemma lut_set_thumb_ok t i v e :
  lut_at t i = Ok e -> exists t', lut_set_thumb t i v = Ok t'.
Proof.
  unfold lut_at, lut_set_thumb. destruct (lut t); [|discriminate].
  intros ->. simpl. eauto.
Qed.

Lemma gc_loop_ok links : forall t n,
  NoDup links -> links_ok t links -> exists r, gc_loop links t n = Ok r.
Proof.
  induction links as [|[p|] rest IH]; intros t n Hnd Hok; simpl; [eauto| |].
  2: { destruct (Hok None) as (? & ? & ? & [=] & _). by apply elem_of_cons; left. }
  apply NoDup_cons in Hnd as [Hp Hnd].
  destruct (Hok (Some p)) as (? & th & e & [= <-] & Hd & He); [by apply elem_of_cons; left|].
  rewrite Hd. simpl. unfold is_in_collection. rewrite He. simpl.
  set (cg := collect_garbage t n th). set (inc := th_imgid th =? lut_imgid e).
  assert (exists t1, (if cg && inc then lut_set_thumb t (th_rowid th) None else Ok t) = Ok t1
                     /\ same_frame t t1 /\ mem t1 = mem t) as (t1 & -> & Hf1 & Hm1).
  { destruct (cg && inc).
    - destruct (lut_set_thumb_ok t (th_rowid th) None e He) as [t1 Ht1].
      exists t1. split; [done|]. apply lut_set_thumb_spec in Ht1 as (? & ? & _). done.
    - exists t. split; [done|]. split; [apply same_frame_refl | done]. }
  simpl.
  assert (links_ok t1 rest) as Hok1.
  { intros lq Hq.
    destruct (Hok lq) as (q & tq & eq & -> & Hdq & Heq); [by apply elem_of_cons; right|].
    destruct Hf1 as (_ & _ & _ & _ & Hids & _).
    destruct (lut_at_ids _ _ _ _ Hids Heq) as (eq' & Heq' & _).
    exists q, tq, eq'. by rewrite Hm1. }
  destruct (cg || negb inc).
  - unfold dt_thumbnail_destroy. rewrite Hm1. apply deref_Ok in Hd as Hd'. rewrite Hd'. simpl.
    apply IH; [done|]. intros lq Hq. destruct (Hok1 lq Hq) as (q & tq & eq & -> & Hdq & Heq).
    exists q, tq, eq. split; [done|]. split; [|done]. simpl. unfold deref.
    rewrite list_lookup_insert_ne by (intros ->; done). by rewrite <- Hm1.
  - destruct (IH t1 n Hnd Hok1) as [[[kept t2] n2] ->]. simpl. eauto.
Qed.

Lemma resize_loop_ok links : forall t,
  links_alive (mem t) links -> exists t', resize_loop links t = Ok t'.
Proof.
  induction links as [|[p|] rest IH]; intros t Hal; simpl; [eauto| |].
  2: { exfalso. apply (links_alive_no_null _ _ Hal). by apply elem_of_cons; left. }
  assert (exists t1, resize_step t p = Ok t1) as [t1 Hstep].
  { unfold resize_step.
    destruct (links_alive_Some _ _ p Hal) as [th ->]; [by apply elem_of_cons; left|]. simpl.
    destruct (negb _ && _); [|eauto].
    match goal with
    | |- context [_set_thumb_position ?tt ?th] =>
        destruct (set_thumb_position_total tt th) as [[b th'] ->]
    end. simpl. eauto. }
  rewrite Hstep. simpl. apply resize_step_spec in Hstep as (_ & _ & Hk & _).
  apply IH. intros lq Hq.
  destruct (Hal lq) as (q & tq & -> & Htq); [by apply elem_of_cons; right|].
  destruct (Hk _ _ Htq) as (tq' & ? & _). eauto.
Qed.

(** A cycle on a well-formed table runs to its end. *)
Lemma update_completes mouse_over t :
  wf_table t -> exists t', dt_thumbtable_update mouse_over t = Ok t'.
Proof.
  intros (l & Hl & Hc & Hmax & Hnd & Hlinks & Hrefs & Hreset & Hheap).
  unfold dt_thumbtable_update. destruct (update_runs t); simpl; [|eauto].
  assert (exists t1,
            (if reset_collection t
             then t' ← _dt_thumbtable_empty_list t; Ok (set_reset_collection false t')
             else Ok t) = Ok t1
            /\ lut t1 = Some l /\ collection_count t1 = collection_count t
            /\ max_row_id t1 = max_row_id t /\ refs_ok t1 /\ malloc_succeeds t1
            /\ (tlist t1 = [] \/ t1 = t))
    as (t1 & -> & Hl1 & Hc1 & Hmax1 & Hrefs1 & Hheap1 & Hlist1).
  { destruct (reset_collection t) eqn:Hrc.
    - unfold _dt_thumbtable_empty_list.
      destruct (destroy_all_ok (tlist t) (mem t) Hnd) as [m' ->];
        [by apply links_ok_alive|].
      simpl. eexists. split; [done|]. repeat split; try done; [|by left].
      intros l0 i e p Hl0 He Hp. simpl in Hl0. rewrite Hl in Hl0. injection Hl0 as <-.
      rewrite (Hreset eq_refl e) in Hp; [discriminate|].
      apply list_elem_of_lookup. eauto.
    - exists t. repeat split; try done. by right. }
  simpl.
  destruct (populate_thumbnails_ok mouse_over t1 0 l Hl1 ltac:(lia) ltac:(lia) Hrefs1 Hheap1)
    as (t2 & n2 & Hpop & Hrefs2).
  rewrite Hpop. simpl.
  destruct (list_is_null (tlist t1)) eqn:Hnull; simpl; [eauto|].
  destruct Hlist1 as [Hnil | ->]; [by rewrite Hnil in Hnull|].
  apply populate_thumbnails_spec in Hpop
    as ((_ & _ & _ & _ & Hids2 & _) & Hk2 & _ & _ & new & Hnew & Hndnew & Hnull2 & Hsync2).
  destruct (Hnull2 Hheap) as [Hnonull _].
  unfold _garbage_collection.
  destruct (gc_loop_ok (tlist t2) t2 n2) as [[[kept tc] nc] Hloop].
  { rewrite Hnew. apply NoDup_app. split; [by apply Hndnew|]. split; [|done].
    intros [p|] Hp Hp'; [|done]. destruct (Hsync2 p Hp) as [_ Hge].
    destruct (Hlinks _ Hp') as (? & th & _ & [= <-] & Hd & _). apply deref_lt in Hd. lia. }
  { intros [p|] Hp; rewrite Hnew in Hp; apply elem_of_app in Hp as [Hp|Hp].
    - destruct (Hsync2 p Hp) as [(th & e & Hd & He & _) _]. by exists p, th, e.
    - destruct (Hlinks _ Hp) as (? & th & e & [= <-] & Hd & He).
      destruct (Hk2 _ _ Hd) as (th2 & Hd2 & Hrow & _).
      rewrite Hrow in He. destruct (lut_at_ids _ _ _ _ Hids2 He) as (e2 & He2 & _).
      by exists p, th2, e2.
    - done.
    - by destruct (Hlinks _ Hp) as (? & ? & ? & [=] & _). }
  rewrite Hloop. simpl. unfold _resize_thumbnails. simpl.
  pose proof (gc_loop_links _ _ _ _ _ _ Hloop) as (Hnn & _ & Hsub).
  apply gc_loop_spec in Hloop as (_ & _ & _ & _ & _ & Hkept & _).
  destruct (resize_loop_ok kept (set_tlist kept tc)) as [tr ->]; [|simpl; eauto].
  intros [p|] Hp.
  - destruct (Hkept p Hp) as [_ (th & _ & Hd & _)]. eauto.
  - by apply Hsub in Hp.
Qed.

End Completion.

(** ** A cycle leaves a well-formed table well-formed *)

Section Preservation.

Implicit Types t : dt_thumbtable_t.

Lemma refs_ok_store t p th th' :
  refs_ok t -> deref (mem t) p = Ok th -> same_item th th' ->
  refs_ok (set_mem (store (mem t) p th') t).
Proof.
  intros Hrefs Hd Hs l i e q Hl He Hq. simpl in *.
  destruct (Hrefs l i e q Hl He Hq) as (tq & Hdq & Hrq & Hiq).
  destruct (store_keeps _ _ _ _ Hd Hs) as [Hkeep _].
  destruct (Hkeep _ _ Hdq) as (tq' & Hdq' & Hr' & Hi'). exists tq'.
  split; [done|]. split; congruence.
Qed.

Lemma resize_step_refs t p t' : resize_step t p = Ok t' -> refs_ok t -> refs_ok t'.
Proof.
  unfold resize_step. intros H Hrefs. ok_bind H as thumb Hd.
  destruct (negb _ && _).
  - ok_bind H as [b th'] Hpos. injection H as <-.
    apply set_thumb_position_same_item in Hpos.
    apply (refs_ok_store t p thumb); [done | done |]. destruct Hpos. by split.
  - by injection H as <-.
Qed.

Lemma resize_loop_refs links : forall t t',
  resize_loop links t = Ok t' -> refs_ok t -> refs_ok t'.
Proof.
  induction links as [|[p|] rest IH]; intros t t' H Hrefs; simpl in H; [| |discriminate].
  - by injection H as <-.
  - ok_bind H as t1 Hstep. eapply IH; [done|]. by eapply resize_step_refs.
Qed.

(** Clearing a cell keeps the cells in order. *)
Lemma refs_ok_clear t i t' :
  lut_set_thumb t i None = Ok t' -> refs_ok t ->
  refs_ok t'
  /\ forall l' e', lut t' = Some l' -> l' !! Z.to_nat i = Some e' -> lut_thumb e' = None.
Proof.
  unfold lut_set_thumb. intros H Hrefs. destruct (lut t) as [l|] eqn:Hl; [|discriminate].
  ok_bind H as e He. injection H as <-. apply lut_get_Some in He as [Hi He]. split.
  - intros l0 j e0 q Hl0 He0 Hq. simpl in *. injection Hl0 as <-.
    destruct (decide (j = Z.to_nat i)) as [->|Hne].
    + rewrite list_lookup_insert_eq in He0 by (by eapply lookup_lt_Some).
      injection He0 as <-. discriminate.
    + rewrite list_lookup_insert_ne in He0 by done. by apply (Hrefs l j e0 q).
  - intros l' e' Hl' He'. simpl in Hl'. injection Hl' as <-.
    rewrite list_lookup_insert_eq in He' by (by eapply lookup_lt_Some).
    by injection He' as <-.
Qed.

Lemma gc_loop_wf links : forall t n kept t' n',
  gc_loop links t n = Ok (kept, t', n') ->
  NoDup links -> refs_ok t ->
  NoDup kept /\ refs_ok t'.
Proof.
  induction links as [|[p|] rest IH]; intros t n kept t' n' H Hnd Hrefs; simpl in H;
    [| |discriminate].
  - injection H as <- <- <-. split; [constructor | done].
  - apply NoDup_cons in Hnd as [Hp Hnd].
    ok_bind H as thumb Hd. pose proof H as Hcopy.
    ok_bind H as inc Hi. ok_bind H as t1 Ht1.
    destruct (collect_garbage t n thumb || negb inc) eqn:Hgo.
    + ok_bind H as m' Hdes. apply (IH _ _ _ _ _ H Hnd). clear H Hcopy IH.
      assert (refs_ok t1 /\ mem t1 = mem t
              /\ forall l1 i e, lut t1 = Some l1 -> l1 !! i = Some e ->
                                lut_thumb e = Some p -> False) as (Hrefs1 & Hm1 & Hnop).
      { destruct (collect_garbage t n thumb && inc) eqn:Hboth.
        - pose proof (lut_set_thumb_spec _ _ _ _ Ht1) as (_ & Hm1 & _).
          destruct (refs_ok_clear _ _ _ Ht1 Hrefs) as [Hrefs1 Hcl].
          split; [done|]. split; [done|]. intros l1 i e Hl1 He Hq.
          destruct (Hrefs1 l1 i e p Hl1 He Hq) as (th' & Hd' & Hr' & _).
          rewrite Hm1, Hd in Hd'. injection Hd' as <-.
          rewrite (Hcl l1 e Hl1) in Hq; [discriminate|]. by rewrite Hr', Nat2Z.id.
        - injection Ht1 as <-. split; [done|]. split; [done|]. intros l1 i e Hl1 He Hq.
          destruct (Hrefs l1 i e p Hl1 He Hq) as (th' & Hd' & Hr' & Hi').
          rewrite Hd in Hd'. injection Hd' as <-.
          unfold is_in_collection, lut_at in Hi. rewrite Hl1 in Hi.
          assert (lut_get l1 (th_rowid thumb) = Ok e) as Hget.
          { apply lut_get_Some. rewrite Hr', Nat2Z.id. split; [lia | done]. }
          rewrite Hget in Hi. simpl in Hi. injection Hi as <-.
          rewrite Hi', Z.eqb_refl in Hgo, Hboth. simpl in *.
          rewrite orb_false_r in Hgo. rewrite andb_true_r in Hboth. congruence. }
      rewrite Hm1 in Hdes. apply destroy_spec in Hdes as (_ & Hother & _).
      intros l1 i e q Hl1 He Hq. simpl in *.
      destruct (Hrefs1 l1 i e q Hl1 He Hq) as (tq & Hdq & Hrq & Hiq).
      exists tq. split; [|done]. rewrite Hother; [by rewrite <- Hm1|].
      intros ->. by eapply Hnop.
    + clear Hcopy. apply orb_false_elim in Hgo as [Hcg Hinc].
      rewrite Hcg in Ht1. simpl in Ht1. injection Ht1 as <-.
      ok_bind H as [[kept' t2] n2] Hrec. injection H as <- <- <-.
      pose proof (gc_loop_spec _ _ _ _ _ _ Hrec) as (_ & _ & _ & _ & _ & Hkept & _).
      destruct (IH _ _ _ _ _ Hrec Hnd Hrefs) as [Hndk Hrefs2].
      split; [|done]. apply NoDup_cons. split; [|done].
      intros Hin. apply Hkept in Hin as [Hin _]. done.
Qed.

(** A cycle leaves a well-formed table well-formed. *)
Lemma update_preserves_wf mouse_over t t' :
  wf_table t -> dt_thumbtable_update mouse_over t = Ok t' -> wf_table t'.
Proof.
  intros Hwf H. destruct (update_runs t) eqn:Hr;
    [|rewrite (update_skipped _ _ Hr) in H; by injection H as <-].
  pose proof (update_cycle_spec _ _ _ Hr H) as (Hids & Hcount & Hsync & _).
  destruct Hwf as (l & Hl & Hc & Hmax & Hnd & Hlinks & Hrefs & Hreset & Hheap).
  destruct (lut_ids_Some _ _ _ Hids Hl) as [l' Hl'].
  pose proof (lut_same_length _ _ _ _ Hids Hl Hl') as Hlen.
  unfold dt_thumbtable_update in H. rewrite Hr in H. simpl in H.
  ok_bind H as t1 Hreset1. ok_bind H as [t2 n2] Hpop. ok_bind H as [t3 n3] Hgc.
  injection H as <-. simpl in *.
  assert (lut t1 = Some l /\ collection_count t1 = collection_count t
          /\ max_row_id t1 = max_row_id t /\ refs_ok t1 /\ reset_collection t1 = false
          /\ malloc_succeeds t1
          /\ (tlist t1 = [] \/ t1 = t))
    as (Hl1 & Hc1 & Hmax1 & Hrefs1 & Hrc1 & Hheap1 & Hlist1).
  { destruct (reset_collection t) eqn:Hrc.
    - ok_bind Hreset1 as t0 E. injection Hreset1 as <-.
      unfold _dt_thumbtable_empty_list in E. ok_bind E as m' Hd. injection E as <-. simpl.
      repeat split; try done; [|by left].
      intros l0 i e p Hl0 He Hp. simpl in Hl0. rewrite Hl in Hl0. injection Hl0 as <-.
      rewrite (Hreset eq_refl e) in Hp; [discriminate|].
      apply list_elem_of_lookup. eauto.
    - injection Hreset1 as <-. repeat split; try done. by right. }
  destruct (populate_thumbnails_ok mouse_over t1 0 l Hl1 ltac:(lia) ltac:(lia) Hrefs1 Hheap1)
    as (t2' & n2' & Hpop' & Hrefs2).
  rewrite Hpop in Hpop'. injection Hpop' as <- <-.
  pose proof (populate_thumbnails_spec _ _ _ _ _ Hpop)
    as ((_ & _ & _ & Hmax2 & _ & Hrc2) & _ & _ & _ & new & Hnew & Hndnew & Hnull2 & Hsync2).
  destruct (Hnull2 Hheap1) as [Hnonull Hheap2].
  assert (max_row_id t3 = max_row_id t /\ reset_collection t3 = false
          /\ NoDup (tlist t3) /\ refs_ok t3 /\ (None ∉ tlist t3) /\ malloc_succeeds t3)
    as (Hmax3 & Hrc3 & Hnd3 & Hrefs3 & Hnn3 & Hheap3).
  { destruct (list_is_null (tlist t1)) eqn:Hnull; simpl in Hgc.
    - injection Hgc as <- <-. destruct (tlist t1) as [|? ?] eqn:Hl1'; [|discriminate].
      rewrite app_nil_r in Hnew. rewrite Hnew.
      split; [congruence|]. split; [congruence|]. split; [by apply Hndnew|]. done.
    - ok_bind Hgc as [tg ng] Hg. ok_bind Hgc as tr Hres. injection Hgc as <- <-.
      unfold _garbage_collection in Hg. ok_bind Hg as [[kept tc] nc] Hloop.
      injection Hg as <- <-.
      destruct Hlist1 as [Hnil | ->]; [by rewrite Hnil in Hnull|].
      destruct (gc_loop_wf _ _ _ _ _ _ Hloop) as [Hndk Hrefsc]; [|done|].
      { rewrite Hnew. apply NoDup_app. split; [by apply Hndnew|]. split; [|done].
        intros [p|] Hp Hp'; [|done]. destruct (Hsync2 p Hp) as [_ Hge].
        destruct (Hlinks _ Hp') as (? & th & _ & [= <-] & Hd & _). apply deref_lt in Hd. lia. }
      pose proof (gc_loop_links _ _ _ _ _ _ Hloop) as (Hnnl & Hscrc & Hsub).
      pose proof (gc_loop_spec _ _ _ _ _ _ Hloop) as ((_ & _ & _ & Hmaxc & _ & Hrcc) & _).
      pose proof (resize_loop_links _ _ _ Hres) as [_ Hscrr].
      pose proof (resize_loop_spec _ _ _ Hres) as ((_ & _ & _ & Hmaxr & _ & Hrcr) & Hlr & _).
      simpl in *.
      split; [congruence|]. split; [congruence|]. split; [congruence|].
      split; [by eapply resize_loop_refs|]. split.
      + rewrite Hlr. intros Hin. by apply Hsub in Hin.
      + unfold malloc_succeeds in *. by rewrite Hscrr, Hscrc. }
  exists l'. simpl. split; [done|]. split; [lia|]. split; [lia|]. split; [done|].
  split; [|split; [|split]].
  - intros [p|] Hp; [|done].
    destruct (Hsync p Hp) as (th & e & Hd & He & _). by exists p, th, e.
  - intros l0 i e p Hl0 He Hp. simpl in *. by apply (Hrefs3 l0 i e p).
  - rewrite Hrc3. discriminate.
  - exact Hheap3.
Qed.

(** A table without thumbnails is well-formed, and so is what a cycle makes
    of it. *)
Lemma fresh_table_wf m cols tw thh vw vh ids lo hi adj :
  0 <= hi -> wf_table (sample_table m cols tw thh vw vh ids lo hi adj).
Proof.
  intros Hhi. exists (fresh_cells ids). simpl.
  split; [done|]. split; [unfold fresh_cells; rewrite length_map; lia|].
  split; [done|]. split; [constructor|]. split.
  - intros p Hp. by apply elem_of_nil in Hp.
  - split; [|split; [done | constructor]]. intros l i e p [= <-] He Hp. unfold fresh_cells in He.
    change (map ?f ids) with (f <$> ids) in He.
    rewrite list_lookup_fmap in He. destruct (ids !! i); [|discriminate].
    injection He as <-. discriminate.
Qed.

Lemma grid12_loaded_wf : wf_table grid12_loaded.
Proof.
  assert (exists t', dt_thumbtable_update (-1) grid12 = Ok t' /\ grid12_loaded = t')
    as (t' & E & ->) by (eexists; split; vm_compute; reflexivity).
  apply (update_preserves_wf (-1) grid12); [|exact E].
  apply fresh_table_wf. discriminate.
Qed.

End Preservation.

(** ** Degenerate geometry *)

(** C9 (what the code does with less than one thumbnail per row):
    [_grid_configure] turns sizes below 32 pixels down and leaves the table
    as it was, but it takes a number of columns below one: with -1 the table
    ends configured, with 0 the thumbnail width is the conversion of an
    infinite float.  With zero thumbnails per row [_update_row_ids] sets the
    window to [[0, 0)].  The test at the head of [dt_thumbtable_update] does
    not look at [thumbs_per_row], and the cycle runs to its end: on nine
    thumbnails of 100 x 100 pixels it overwrites the sizes of all of them;
    on 211 thumbnails it destroys one and clears its cell of the look-up
    table. *)
Theorem update_runs_with_zero_columns :
  _grid_configure grid12 300 20 3 = Ok grid12
  /\ (exists t', _grid_configure grid12 300 300 (-1) = Ok t'
                 /\ configured t' = true /\ thumbs_per_row t' = -1)
  /\ _grid_configure grid12 300 300 0 = Fault FloatToIntUndefined
  /\ _update_row_ids
       (set_thumb_height 60 (set_thumb_width 60 (set_thumbs_per_row 0 grid12_loaded)))
     = Ok (zero_columns 60 60 grid12_loaded)
  /\ thumbs_per_row (zero_columns 60 60 grid12_loaded) = 0
  /\ update_runs (zero_columns 60 60 grid12_loaded) = true
  /\ deref (mem (zero_columns 60 60 grid12_loaded)) 4%nat
     = Ok (sample_thumb 15 4 100 100 100 100)
  /\ (exists t',
        dt_thumbtable_update (-1) (zero_columns 60 60 grid12_loaded) = Ok t'
        /\ thumbs_inited t' = true
        /\ deref (mem t') 4%nat = Ok (sample_thumb 15 4 60 60 100 100))
  /\ thumbs_per_row (zero_columns 100 100 crowded) = 0
  /\ deref (mem (zero_columns 100 100 crowded)) 210%nat
     = Ok (sample_thumb 1210 210 100 100 0 21000)
  /\ lut_at (zero_columns 100 100 crowded) 210
     = Ok {| lut_imgid := 1210; lut_thumb := Some 210%nat |}
  /\ (exists t',
        dt_thumbtable_update (-1) (zero_columns 100 100 crowded) = Ok t'
        /\ thumbs_inited t' = true
        /\ length (tlist t') = 210%nat
        /\ deref (mem t') 210%nat = Fault UseAfterFree
        /\ lut_at t' 210 = Ok {| lut_imgid := 1210; lut_thumb := None |}).
Proof.
  repeat split; try (vm_compute; reflexivity).
  - eexists. split; [vm_compute; reflexivity|]. repeat split.
  - eexists. split; [vm_compute; reflexivity|]. repeat split.
  - eexists. split; [vm_compute; reflexivity|]. repeat split.
Qed.

(** ** Moves *)

Lemma lut_search_range n l imgid i r :
  lut_search n l imgid i = Ok r -> r = -1 \/ i <= r < i + Z.of_nat n.
Proof.
  revert i. induction n as [|n IH]; intros i H; simpl in H.
  - injection H as <-. by left.
  - ok_bind H as e E. destruct (lut_imgid e =? imgid).
    + injection H as <-. right. lia.
    + apply IH in H. lia.
Qed.

Lemma lut_get_in_bounds l i :
  0 <= i < Z.of_nat (length l) -> exists e, lut_get l i = Ok e.
Proof.
  intros Hi. unfold lut_get. destruct (Z.ltb_spec i 0); [lia|].
  destruct (l !! Z.to_nat i) eqn:E; [eauto|].
  apply lookup_ge_None in E. lia.
Qed.

Lemma lut_search_no_fault n l imgid i :
  0 <= i -> i + Z.of_nat n <= Z.of_nat (length l) ->
  exists r, lut_search n l imgid i = Ok r.
Proof.
  revert i. induction n as [|n IH]; intros i Hi Hn; simpl; [eauto|].
  destruct (lut_get_in_bounds l i) as [e ->]; [lia|]. simpl.
  destruct (lut_imgid e =? imgid); [eauto|]. apply IH; lia.
Qed.

Lemma imgid_to_rowid_range t imgid :
  0 <= collection_count t ->
  (forall l, lut t = Some l -> collection_count t <= Z.of_nat (length l)) ->
  exists r, _imgid_to_rowid t imgid = Ok r /\ -1 <= r < collection_count t.
Proof.
  intros Hc Hl. unfold _imgid_to_rowid. destruct (lut t) as [l|] eqn:E.
  - specialize (Hl l eq_refl).
    destruct (lut_search_no_fault (Z.to_nat (collection_count t)) l imgid 0) as [r Hr];
      [lia | lia |].
    exists r. split; [done|]. apply lut_search_range in Hr. lia.
  - exists (-1). split; [done | lia].
Qed.


(** C4 (what the code does on an empty collection): the target of a move to
    the end is clamped to 0 and [lut[0]] is read.  On the table as
    [dt_thumbtable_new] returns it the table is NULL and the read faults; on
    a table whose collection became empty the cell of the former collection
    is read and both global ids are set to its image. *)
Theorem move_end_on_empty_collection :
  (forall v h c origin,
     collection_count (dt_thumbtable_new v h) = 0
     /\ move_target (dt_thumbtable_new v h) DT_TT_MOVE_END origin = Ok 0
     /\ _move_in_grid (dt_thumbtable_new v h) c DT_TT_MOVE_END origin = Fault NullPointer)
  /\ collection_count grid12_emptied = 0
  /\ (forall origin, move_target grid12_emptied DT_TT_MOVE_END origin = Ok 0)
  /\ (forall origin, exists t',
        _move_in_grid grid12_emptied no_focus DT_TT_MOVE_END origin
        = Ok (t', {| mouse_over_id := 11; keyboard_over_id := 11 |}, MoveRefreshed)).
Proof.
  repeat split.
  intros origin. eexists. vm_compute. reflexivity.
Qed.

(** What a completed [_move_in_grid] leaves in the two global ids, and the
    state of the control with which its last test was run. *)
Lemma move_in_grid_result (t : dt_thumbtable_t) (c : dt_control_t)
    (direction : dt_thumbtable_direction_t) (origin_imgid : Z)
    (t' : dt_thumbtable_t) (c' : dt_control_t) (outcome : move_outcome) :
  _move_in_grid t c direction origin_imgid = Ok (t', c', outcome) ->
  exists new_rowid e,
    move_target t direction origin_imgid = Ok new_rowid
    /\ lut_at t new_rowid = Ok e
    /\ mouse_over_id c' = lut_imgid e
    /\ keyboard_over_id c' = lut_imgid e
    /\ move_dispatch t c' new_rowid (lut_imgid e) = Ok (t', outcome).
Proof.
  intros H. unfold _move_in_grid in H.
  ok_bind H as new_rowid Ht. ok_bind H as e He. ok_bind H as [t2 o] Hd.
  injection H as <- <- <-. exists new_rowid, e. done.
Qed.

(** ** Moves on a well-formed table *)

Lemma CLAMP_range x low high : low <= high -> low <= CLAMP x low high <= high.
Proof.
  intros H. unfold CLAMP. destruct (Z.gtb_spec x high); [lia|].
  destruct (Z.ltb_spec x low); lia.
Qed.

Section MoveCompletes.

Variable t : dt_thumbtable_t.
Hypothesis Hwf : wf_table t.
Hypothesis Hcount : 1 <= collection_count t.
Hypothesis Hcols : 1 <= thumbs_per_row t.
Hypothesis Hheight : thumb_height t <> 0.

Lemma move_target_ok direction origin_imgid :
  exists new_rowid e,
    move_target t direction origin_imgid = Ok new_rowid
    /\ 0 <= new_rowid < collection_count t
    /\ lut_at t new_rowid = Ok e.
Proof using Hwf Hcount Hheight.
  destruct Hwf as (l & Hl & Hc & _).
  destruct (imgid_to_rowid_range t origin_imgid) as (r & Hr & _); [lia | |].
  { intros l0 Hl0. rewrite Hl in Hl0. injection Hl0 as <-. lia. }
  assert (exists offset, move_offset t direction origin_imgid = Ok offset) as [offset Ho].
  { unfold move_offset.
    destruct direction; eauto; destruct (Z.eqb_spec (thumb_height t) 0); eauto; done. }
  unfold move_target. rewrite Hr. simpl. rewrite Ho. simpl.
  pose proof (CLAMP_range (r + offset) 0 (collection_count t - 1) ltac:(lia)) as Hcl.
  destruct (lut_get_in_bounds l (CLAMP (r + offset) 0 (collection_count t - 1))) as [e He];
    [lia|].
  eexists _, e. split; [done|]. split; [lia|]. unfold lut_at. by rewrite Hl.
Qed.

Lemma is_rowid_visible_ok rowid : exists b, _is_rowid_visible t rowid = Ok b.
Proof using Hcols.
  clear Hwf Hcount Hheight. unfold _is_rowid_visible.
  destruct (configured t), (v_scrollbar t), (h_scrollbar t), (mode t); eauto.
  destruct (Z.eqb_spec (thumbs_per_row t) 0); [lia | eauto].
Qed.

Lemma scroll_to_imgid_ok imgid : exists r, dt_thumbtable_scroll_to_imgid t imgid = Ok r.
Proof using Hwf Hcols.
  clear Hcount Hheight.
  destruct Hwf as (l & Hl & Hc & _). unfold dt_thumbtable_scroll_to_imgid.
  destruct (negb (collection_inited t) || (imgid <? 0)); [eauto|]. rewrite Hl.
  destruct (lut_search_no_fault (Z.to_nat (collection_count t)) l imgid 0) as [r ->];
    [lia | lia |].
  simpl. destruct (r =? -1); [eauto|].
  destruct (rowid_to_position_no_fault t r (0, 0) Hcols) as [[x0 y0] ->]. simpl. eauto.
Qed.

Lemma move_dispatch_ok c new_rowid new_imgid :
  exists r, move_dispatch t c new_rowid new_imgid = Ok r.
Proof using Hwf Hcols.
  unfold move_dispatch. destruct (is_rowid_visible_ok new_rowid) as [b ->]. simpl.
  destruct b; simpl.
  - destruct (update_completes (mouse_over_id c) (set_thumbs_inited false t)) as [t' ->];
      [|simpl; eauto].
    destruct Hwf as (l & H). by exists l.
  - destruct (scroll_to_imgid_ok new_imgid) as [[[ret t'] request] ->]. simpl. eauto.
Qed.

End MoveCompletes.

(** C10: whenever [_move_in_grid] completes, whatever the direction and the
    image it starts from, both the mouse-over id and the keyboard-over id
    hold the image of the target position, and they already do when the
    last test chooses between scrolling to the target and refreshing in
    place: either branch runs with the control state so set.  And it does
    complete on a well-formed table of a collection that is not empty, with
    at least one thumbnail per row and a thumbnail height that is not
    zero. *)
Theorem move_in_grid_sets_both_ids (t : dt_thumbtable_t) (c : dt_control_t)
    (direction : dt_thumbtable_direction_t) (origin_imgid : Z) :
  (forall t' c' outcome,
     _move_in_grid t c direction origin_imgid = Ok (t', c', outcome) ->
     exists new_rowid e,
       move_target t direction origin_imgid = Ok new_rowid
       /\ lut_at t new_rowid = Ok e
       /\ mouse_over_id c' = lut_imgid e
       /\ keyboard_over_id c' = lut_imgid e
       /\ move_dispatch t c' new_rowid (lut_imgid e) = Ok (t', outcome))
  /\ (wf_table t -> 1 <= collection_count t -> 1 <= thumbs_per_row t ->
      thumb_height t <> 0 ->
      exists t' c' outcome,
        _move_in_grid t c direction origin_imgid = Ok (t', c', outcome)).
Proof.
  split; [apply move_in_grid_result|].
  intros Hwf Hcount Hcols Hheight. unfold _move_in_grid.
  destruct (move_target_ok t Hwf Hcount Hheight direction origin_imgid)
    as (new_rowid & e & Ht & _ & He).
  rewrite Ht. simpl. rewrite He. simpl.
  match goal with
  | |- context [move_dispatch t ?c ?r ?i] =>
      destruct (move_dispatch_ok t Hwf Hcols c r i) as [[t' o] ->]
  end.
  simpl. eauto.
Qed.

Lemma move_in_grid_sets_both_ids_witness :
  (exists t' c',
     _move_in_grid grid12 no_focus DT_TT_MOVE_RIGHT 11 = Ok (t', c', MoveRefreshed)
     /\ mouse_over_id c' = 12 /\ keyboard_over_id c' = 12)
  /\ (exists t' c' request,
     _move_in_grid grid12 no_focus DT_TT_MOVE_END 11 = Ok (t', c', MoveScrolled request)
     /\ mouse_over_id c' = 22 /\ keyboard_over_id c' = 22)
  /\ (exists t' c' outcome,
     _move_in_grid grid12 no_focus DT_TT_MOVE_NEXT_PAGE 11 = Ok (t', c', outcome)).
Proof.
  split; [|split].
  - assert (exists t' c',
              _move_in_grid grid12 no_focus DT_TT_MOVE_RIGHT 11 = Ok (t', c', MoveRefreshed))
      as (t' & c' & E) by (eexists _, _; vm_compute; reflexivity).
    exists t', c'. split; [exact E|].
    destruct (proj1 (move_in_grid_sets_both_ids _ _ _ _) _ _ _ E)
      as (r & e & Ht & He & Hm & Hk & _).
    vm_compute in Ht. injection Ht as <-. vm_compute in He. injection He as <-.
    rewrite Hm, Hk. split; reflexivity.
  - assert (exists t' c' request,
              _move_in_grid grid12 no_focus DT_TT_MOVE_END 11
              = Ok (t', c', MoveScrolled request))
      as (t' & c' & request & E) by (eexists _, _, _; vm_compute; reflexivity).
    exists t', c', request. split; [exact E|].
    destruct (proj1 (move_in_grid_sets_both_ids _ _ _ _) _ _ _ E)
      as (r & e & Ht & He & Hm & Hk & _).
    vm_compute in Ht. injection Ht as <-. vm_compute in He. injection He as <-.
    rewrite Hm, Hk. split; reflexivity.
  - apply (proj2 (move_in_grid_sets_both_ids grid12 no_focus DT_TT_MOVE_NEXT_PAGE 11)).
    + apply fresh_table_wf. discriminate.
    + discriminate.
    + discriminate.
    + discriminate.
Defined.


(** * Further properties of the table *)

(** ** Layout and window *)



(** X1: two different row ids whose coordinates are values of an [int] are
    never laid out at the same place: in the file manager as soon as there
    is a thumbnail per row and the thumbnails have a width and a height, in
    the filmstrip as soon as they have a width. *)
Theorem rowid_to_position_injective (t : dt_thumbtable_t) (a b : Z) (xy : Z * Z) :
  (mode t = DT_THUMBTABLE_MODE_FILEMANAGER /\ thumbs_per_row t <> 0
   /\ thumb_width t <> 0 /\ thumb_height t <> 0)
  \/ (mode t = DT_THUMBTABLE_MODE_FILMSTRIP /\ thumb_width t <> 0) ->
  position_fits t a -> position_fits t b ->
  a <> b ->
  exists pa pb, _rowid_to_position t a xy = Ok pa
                /\ _rowid_to_position t b xy = Ok pb /\ pa <> pb.
Proof.
  intros Hgeo Hfa Hfb Hab. unfold _rowid_to_position. unfold position_fits in Hfa, Hfb.
  destruct Hgeo as [(Hm & Hc & Hw & Hh) | (Hm & Hw)]; rewrite Hm in *.
  - destruct (Z.eqb_spec (thumbs_per_row t) 0); [done|].
    destruct Hfa as [Hxa Hya], Hfb as [Hxb Hyb].
    eexists _, _. split; [done|]. split; [done|]. intros [= Hx Hy].
    rewrite !int_wrap_fits in Hx, Hy by assumption.
    apply Z.mul_cancel_r in Hx; [|done]. apply Z.mul_cancel_r in Hy; [|done].
    pose proof (Z.quot_rem' a (thumbs_per_row t)).
    pose proof (Z.quot_rem' b (thumbs_per_row t)). congruence.
  - eexists _, _. split; [done|]. split; [done|]. intros [= Hx].
    rewrite !int_wrap_fits in Hx by assumption.
    apply Z.mul_cancel_r in Hx; done.
Qed.

Lemma rowid_to_position_injective_witness :
  exists pa pb, _rowid_to_position grid12 4 (0, 0) = Ok pa
                /\ _rowid_to_position grid12 7 (0, 0) = Ok pb /\ pa <> pb.
Proof.
  apply rowid_to_position_injective; [left | | | discriminate].
  - repeat split; discriminate.
  - split; vm_compute; split; congruence.
  - split; vm_compute; split; congruence.
Defined.

(** The table the file manager is configured to, for sizes and a number of
    columns below 2^24. *)
Lemma grid_configure_filemanager (t : dt_thumbtable_t) (width height cols : Z) :
  mode t = DT_THUMBTABLE_MODE_FILEMANAGER ->
  1 <= cols < 2 ^ 24 -> 32 <= width < 2 ^ 24 -> 32 <= height ->
  _grid_configure t width height cols
  = Ok (set_configured true
          (set_thumb_height (if cols =? 1 then height else width / cols)
             (set_thumb_width (width / cols)
                (set_view_height height
                   (set_view_width width (set_thumbs_per_row cols t)))))).
Proof.
  intros Hm Hc Hw Hh. unfold _grid_configure.
  destruct (Z.ltb_spec width 32); [lia|]. destruct (Z.ltb_spec height 32); [lia|].
  simpl. rewrite Hm. destruct (Z.eqb_spec cols 0); [lia|].
  rewrite thumb_width_exact by lia. reflexivity.
Qed.

(** X2: once the file manager is configured for at least one column in a view
    of at least 32 x 32 pixels, the width and the number of columns being
    below 2^24, every thumbnail at a position [p >= 0] whose row is not
    beyond the range of [int] gets coordinates inside the width of the
    view: the thumbnails of a row never run over its right edge. *)
Theorem grid_configure_row_fits (t t' : dt_thumbtable_t) (width height cols : Z)
    (thumb : dt_thumbnail_t) :
  mode t = DT_THUMBTABLE_MODE_FILEMANAGER ->
  1 <= cols < 2 ^ 24 -> 32 <= width < 2 ^ 24 -> 32 <= height ->
  _grid_configure t width height cols = Ok t' ->
  0 <= th_rowid thumb ->
  (th_rowid thumb / cols) * thumb_height t' < 2 ^ 31 ->
  exists thumb',
    _set_thumb_position t' thumb = Ok (true, thumb')
    /\ view_width t' = width
    /\ 0 <= th_x thumb'
    /\ th_x thumb' + thumb_width t' <= view_width t'
    /\ 0 <= th_y thumb'.
Proof.
  intros Hm Hc Hw Hh H Hp Hy.
  rewrite grid_configure_filemanager in H by assumption. injection H as <-.
  simpl in Hy.
  pose proof (Z.mod_pos_bound (th_rowid thumb) cols ltac:(lia)) as Hmod.
  pose proof (Z.div_pos (th_rowid thumb) cols ltac:(lia) ltac:(lia)) as Hdiv.
  pose proof (Z.mul_div_le width cols ltac:(lia)) as Hle.
  pose proof (Z.div_pos width cols ltac:(lia) ltac:(lia)) as Htw.
  assert (0 <= (if cols =? 1 then height else width / cols)) as Hth
    by (destruct (cols =? 1); lia).
  assert (0 <= th_rowid thumb mod cols * (width / cols) <= width - width / cols) as Hx by nia.
  assert (0 <= th_rowid thumb / cols * (if cols =? 1 then height else width / cols))
    as Hy0 by nia.
  rewrite set_thumb_position_grid; simpl; [| done | lia | done | |].
  - eexists. split; [done|]. simpl. split; [done|]. split; [lia|]. split; [lia|]. done.
  - unfold fits_int. change (2 ^ 24) with 16777216 in *.
    change (2 ^ 31) with 2147483648 in *. lia.
  - unfold fits_int. change (2 ^ 31) with 2147483648 in *. lia.
Qed.

Lemma grid_configure_row_fits_witness :
  exists t' thumb',
    _grid_configure grid12 1000 600 7 = Ok t'
    /\ _set_thumb_position t' (sample_thumb 24 13 0 0 0 0) = Ok (true, thumb')
    /\ th_x thumb' + thumb_width t' <= 1000.
Proof.
  assert (exists t', _grid_configure grid12 1000 600 7 = Ok t' /\ thumb_height t' = 142)
    as (t' & E & Eh) by (eexists; split; vm_compute; reflexivity).
  destruct (grid_configure_row_fits grid12 t' 1000 600 7 (sample_thumb 24 13 0 0 0 0))
    as (thumb' & Hp & Hv & _ & Hx & _);
    [reflexivity | split; [discriminate | reflexivity]
     | split; [discriminate | reflexivity] | discriminate | exact E | discriminate
     | rewrite Eh; reflexivity |].
  exists t', thumb'. split; [exact E|]. split; [exact Hp|]. rewrite <- Hv. exact Hx.
Defined.



Lemma update_row_ids_again (t t' : dt_thumbtable_t) :
  _update_row_ids t = Ok t' -> _update_row_ids t' = Ok t'.
Proof.
  unfold _update_row_ids. intros H. ok_bind H as [b [lo hi]] Hget.
  assert (forall x, _get_row_ids
                      (set_thumbs_inited false (set_max_row_id hi (set_min_row_id lo t))) x
                    = _get_row_ids t x) as Hsame by reflexivity.
  destruct (negb (lo =? min_row_id t) || negb (hi =? max_row_id t)) eqn:Hchg.
  - injection H as <-. rewrite Hsame, Hget. simpl. by rewrite !Z.eqb_refl.
  - injection H as <-. rewrite Hget. simpl. by rewrite Hchg.
Qed.

(** X4: [_update_row_ids] only re-arms the cycle when the window moved: a table
    whose window is already the one of the scroll position comes back as it
    is, [thumbs_inited] included, and a second call right after a first one
    changes nothing. *)
Theorem update_row_ids_idempotent (t t' : dt_thumbtable_t) :
  _update_row_ids t = Ok t' ->
  _update_row_ids t' = Ok t'
  /\ (min_row_id t' = min_row_id t -> max_row_id t' = max_row_id t -> t' = t)
  /\ (t' <> t -> thumbs_inited t' = false).
Proof.
  intros H. split; [by eapply update_row_ids_again|].
  unfold _update_row_ids in H. ok_bind H as [b [lo hi]] Hget.
  destruct (negb (lo =? min_row_id t) || negb (hi =? max_row_id t)) eqn:Hchg.
  - injection H as <-. split; [|done]. simpl. intros Hlo Hhi. subst lo hi.
    rewrite !Z.eqb_refl in Hchg. discriminate.
  - by injection H as <-.
Qed.

Lemma update_row_ids_idempotent_witness :
  exists t', _update_row_ids strip100 = Ok t' /\ _update_row_ids t' = Ok t'.
Proof.
  assert (exists t', _update_row_ids strip100 = Ok t') as [t' E]
    by (eexists; reflexivity).
  exists t'. split; [exact E|]. exact (proj1 (update_row_ids_idempotent strip100 t' E)).
Defined.

(** ** Looking images up and rebuilding the table *)

(** The search loop stops at the first cell that holds the image, and
    returns -1 only when no cell of its range does. *)
Lemma lut_search_first (l : list dt_thumbtable_cache_t) (imgid : Z) : forall n i r,
  0 <= i ->
  lut_search n l imgid i = Ok r ->
  (r = -1 /\ forall k e, i <= k < i + Z.of_nat n -> l !! Z.to_nat k = Some e ->
                         lut_imgid e <> imgid)
  \/ (i <= r < i + Z.of_nat n
      /\ (exists e, l !! Z.to_nat r = Some e /\ lut_imgid e = imgid)
      /\ forall k e, i <= k < r -> l !! Z.to_nat k = Some e -> lut_imgid e <> imgid).
Proof.
  induction n as [|n IH]; intros i r Hi H; simpl in H.
  - injection H as <-. left. split; [done|]. intros k e Hk. lia.
  - ok_bind H as e He. apply lut_get_Some in He as [_ He].
    destruct (Z.eqb_spec (lut_imgid e) imgid) as [Heq|Hne].
    + injection H as <-. right. split; [lia|]. split; [eauto|]. intros k e' Hk. lia.
    + apply IH in H; [|lia]. destruct H as [[-> Hno] | (Hr & Hfound & Hno)].
      * left. split; [done|]. intros k e' Hk Hk'.
        destruct (decide (k = i)) as [->|Hki]; [congruence|]. apply (Hno k e'); [lia | done].
      * right. split; [lia|]. split; [done|]. intros k e' Hk Hk'.
        destruct (decide (k = i)) as [->|Hki]; [congruence|]. apply (Hno k e'); [lia | done].
Qed.

(** X5: [_imgid_to_rowid] answers with the first position of the collection
    whose cell holds the image, and with -1 exactly when no position below
    the count does, or when there is no table. *)
Theorem imgid_to_rowid_first_match (t : dt_thumbtable_t) (imgid : Z) :
  (lut t = None -> _imgid_to_rowid t imgid = Ok (-1))
  /\ (forall l, lut t = Some l ->
      0 <= collection_count t <= Z.of_nat (length l) ->
      exists r,
        _imgid_to_rowid t imgid = Ok r
        /\ ((r = -1 /\ forall k e, 0 <= k < collection_count t ->
                                   l !! Z.to_nat k = Some e -> lut_imgid e <> imgid)
            \/ (0 <= r < collection_count t
                /\ (exists e, l !! Z.to_nat r = Some e /\ lut_imgid e = imgid)
                /\ forall k e, 0 <= k < r -> l !! Z.to_nat k = Some e ->
                               lut_imgid e <> imgid))).
Proof.
  unfold _imgid_to_rowid. split; [by intros ->|]. intros l Hl Hc. rewrite Hl.
  destruct (lut_search_no_fault (Z.to_nat (collection_count t)) l imgid 0) as [r Hr];
    [lia | lia |].
  exists r. split; [done|]. apply lut_search_first in Hr; [|lia].
  rewrite Z2Nat.id in Hr by lia. exact Hr.
Qed.

Lemma imgid_to_rowid_first_match_witness :
  _imgid_to_rowid grid_twice 7 = Ok 0 /\ _imgid_to_rowid grid_twice 9 = Ok (-1).
Proof.
  destruct (imgid_to_rowid_first_match grid_twice 7) as [_ H7].
  destruct (imgid_to_rowid_first_match grid_twice 9) as [_ H9].
  destruct (H7 _ eq_refl) as (r7 & E7 & _); [split; discriminate|].
  destruct (H9 _ eq_refl) as (r9 & E9 & _); [split; discriminate|].
  split; reflexivity.
Defined.

(** X6: after a rebuild that got rows and memory, the table has one cell per
    row fetched, in the order fetched, none pointing to a thumbnail, and the
    count is the number of rows; when no image was fetched twice,
    [_imgid_to_rowid] gives back the row of every image fetched, and -1 for
    any other image. *)
Theorem collection_lut_round_trip (t : dt_thumbtable_t) (collection : list Z) :
  collection <> [] ->
  collection_count (_dt_collection_lut t collection true) = Z.of_nat (length collection)
  /\ (forall k id, collection !! k = Some id ->
        lut_at (_dt_collection_lut t collection true) (Z.of_nat k)
        = Ok {| lut_imgid := id; lut_thumb := None |})
  /\ (NoDup collection -> forall k id, collection !! k = Some id ->
        _imgid_to_rowid (_dt_collection_lut t collection true) id = Ok (Z.of_nat k))
  /\ (forall id, id ∉ collection ->
        _imgid_to_rowid (_dt_collection_lut t collection true) id = Ok (-1)).
Proof.
  intros Hne.
  set (cells := map (fun id => {| lut_imgid := id; lut_thumb := None |}) collection).
  assert (lut (_dt_collection_lut t collection true) = Some cells
          /\ collection_count (_dt_collection_lut t collection true)
             = Z.of_nat (length cells)) as [Hlut Hcount].
  { unfold _dt_collection_lut, cells. destruct collection as [|c cs]; [done|].
    split; [done|]. cbn [collection_count set_collection_count set_lut].
    by rewrite length_map. }
  assert (forall k, cells !! k = (fun id => {| lut_imgid := id; lut_thumb := None |})
                                  <$> collection !! k) as Hcell.
  { intros k. unfold cells. change (map ?f collection) with (f <$> collection).
    by rewrite list_lookup_fmap. }
  assert (length cells = length collection) as Hlen by apply length_map.
  assert (lut_imgid <$> cells = collection) as Hids.
  { unfold cells. change (map ?f collection) with (f <$> collection).
    rewrite <- list_fmap_compose. by rewrite list_fmap_id. }
  split; [by rewrite Hcount, Hlen|]. split; [|split].
  - intros k id Hk. unfold lut_at. rewrite Hlut. apply lut_get_Some. split; [lia|].
    by rewrite Nat2Z.id, Hcell, Hk.
  - intros Hnd k id Hk. unfold _imgid_to_rowid. rewrite Hlut, Hcount, Nat2Z.id.
    apply (lut_search_finds cells id k {| lut_imgid := id; lut_thumb := None |}
             ltac:(by rewrite Hids) ltac:(by rewrite Hcell, Hk) eq_refl (length cells) 0%nat);
      [lia|].
    apply lookup_lt_Some in Hk. lia.
  - intros id Hid. unfold _imgid_to_rowid. rewrite Hlut, Hcount, Nat2Z.id.
    destruct (lut_search_no_fault (length cells) cells id 0) as [r Hr]; [lia | lia |].
    rewrite Hr. f_equal. apply lut_search_first in Hr; [|lia].
    destruct Hr as [[-> _] | (Hr & (e & He & Hie) & _)]; [done|].
    exfalso. apply Hid. rewrite Hcell in He.
    destruct (collection !! Z.to_nat r) as [id'|] eqn:E; [|discriminate].
    injection He as <-. simpl in Hie. subst id'. by eapply list_elem_of_lookup_2.
Qed.

Lemma collection_lut_round_trip_witness :
  _imgid_to_rowid (_dt_collection_lut grid12 [31; 32; 33] true) 33 = Ok 2
  /\ _imgid_to_rowid (_dt_collection_lut grid12 [31; 32; 33] true) 11 = Ok (-1).
Proof.
  destruct (collection_lut_round_trip grid12 [31; 32; 33]) as (_ & _ & Hin & Hout);
    [discriminate|].
  split.
  - apply (Hin ltac:(apply (bool_decide_unpack _); vm_compute; exact I) 2%nat 33 eq_refl).
  - apply Hout. apply (bool_decide_unpack _). vm_compute. exact I.
Defined.

Lemma collection_lut_keeps (t : dt_thumbtable_t) (collection : list Z) (malloc_ok : bool) :
  collection_hash (_dt_collection_lut t collection malloc_ok) = collection_hash t
  /\ reset_collection (_dt_collection_lut t collection malloc_ok) = reset_collection t.
Proof. unfold _dt_collection_lut. destruct collection; [done|]. by destruct malloc_ok. Qed.

(** X7: once [_dt_collection_get_hash] has been called, calling it again for
    the same hash reports a change exactly when a reset is pending: without
    one the table is left as the first call made it; with one the table is
    rebuilt at every call, since only [dt_thumbtable_update] takes the
    request back. *)
Theorem collection_get_hash_settles (t : dt_thumbtable_t) (hash num_pics num_pics' : Z)
    (collection collection' : list Z) (ok ok' : bool) :
  let t1 := snd (_dt_collection_get_hash t hash num_pics collection ok) in
  fst (_dt_collection_get_hash t1 hash num_pics' collection' ok')
  = (if reset_collection t then 1 else 0)
  /\ (reset_collection t = false ->
      snd (_dt_collection_get_hash t1 hash num_pics' collection' ok') = t1)
  /\ reset_collection t1 = reset_collection t.
Proof.
  cbv zeta.
  assert (collection_hash (snd (_dt_collection_get_hash t hash num_pics collection ok)) = hash
          /\ reset_collection (snd (_dt_collection_get_hash t hash num_pics collection ok))
             = reset_collection t) as [Hhash Hreset].
  { unfold _dt_collection_get_hash.
    destruct (Z.eqb_spec hash (collection_hash t)) as [->|Hne], (reset_collection t) eqn:Hr;
      simpl; try done;
      match goal with
      | |- context [_dt_collection_lut ?t0 ?c ?o] =>
          destruct (collection_lut_keeps t0 c o) as [-> ->]
      end; done. }
  set (t1 := snd (_dt_collection_get_hash t hash num_pics collection ok)) in *.
  unfold _dt_collection_get_hash at 1 2. rewrite Hhash, Hreset, Z.eqb_refl. simpl.
  split; [by destruct (reset_collection t)|]. split; [by intros ->|done].
Qed.

(** ** Counting and bounding the thumbnails of a cycle *)

(** One turn of the loading loop either leaves the list and the counter
    alone, or puts one link at the head of the list and counts it: a
    thumbnail created at the position of the turn, or NULL. *)
Lemma populate_step_count mouse_over i (t : dt_thumbtable_t) n t' n' :
  populate_step mouse_over i (t, n) = Ok (t', n') ->
  (tlist t' = tlist t /\ n' = n)
  \/ (tlist t' = None :: tlist t /\ n' = n + 1)
  \/ exists p th, tlist t' = Some p :: tlist t /\ n' = n + 1
                  /\ deref (mem t') p = Ok th /\ th_rowid th = i.
Proof.
  unfold populate_step. intros H. ok_bind H as e He.
  ok_bind H as [[[r new_item] t1] num1] Hsel.
  destruct r as [p|]; cycle 1.
  { injection H as <- <-.
    destruct (lut_thumb e) as [q|] eqn:Hth; [discriminate|].
    destruct (dt_thumbnail_new (lut_imgid e) i (heap_script t) (mem t))
      as [[r script'] m'] eqn:Hnew.
    ok_bind Hsel as t2 Hset. injection Hsel as -> _ <- <-.
    apply lut_set_thumb_spec in Hset as (_ & _ & Hlist & _). simpl in *.
    right. left. split; [by rewrite Hlist | done]. }
  ok_bind H as thumb Hd.
  destruct (negb (th_rowid thumb =? i) || negb (th_imgid thumb =? lut_imgid e)) eqn:Hassert;
    [discriminate|].
  apply orb_false_elim in Hassert as [Hrow _].
  apply negb_false_iff, Z.eqb_eq in Hrow.
  ok_bind H as thumb1 H1. injection H as <- <-.
  assert (th_rowid thumb1 = th_rowid thumb) as Hr1.
  { destruct (new_item || _).
    - ok_bind H1 as [b th'] E. injection H1 as <-.
      apply set_thumb_position_same_item in E. by destruct E as [<- _].
    - by injection H1 as <-. }
  destruct (lut_thumb e) as [q|] eqn:Hth.
  - injection Hsel as <- <- <- <-. by left.
  - destruct (dt_thumbnail_new (lut_imgid e) i (heap_script t) (mem t))
      as [[r script'] m'] eqn:Hnew.
    ok_bind Hsel as t2 Hset. injection Hsel as -> <- <- <-.
    apply lut_set_thumb_spec in Hset as (_ & _ & Hlist & _). simpl in *.
    right. right. eexists _, _. split; [by rewrite Hlist|]. split; [done|].
    split; [by eapply deref_store_eq|]. simpl. congruence.
Qed.

Lemma populate_loop_count k mouse_over : forall i (t : dt_thumbtable_t) n t' n',
  populate_loop k mouse_over i (t, n) = Ok (t', n') ->
  exists new, tlist t' = new ++ tlist t
              /\ n' = n + Z.of_nat (length new)
              /\ forall p, Some p ∈ new ->
                   exists th, deref (mem t') p = Ok th
                              /\ i <= th_rowid th < i + Z.of_nat k.
Proof.
  induction k as [|k IH]; intros i t n t' n' H.
  - simpl in H. injection H as <- <-. exists []. split; [done|]. split; [simpl; lia|].
    intros p Hp. by apply elem_of_nil in Hp.
  - cbn [populate_loop] in H. ok_bind H as [t1 n1] Hstep.
    pose proof (populate_loop_spec _ _ _ _ _ _ _ H) as (_ & Hkeep & _).
    apply IH in H as (new & Hnew & Hn & Hrows).
    apply populate_step_count in Hstep
      as [[Hl ->] | [[Hl ->] | (p & th & Hl & -> & Hd & Hr)]].
    + exists new. split; [by rewrite Hnew, Hl|]. split; [done|].
      intros q Hq. destruct (Hrows q Hq) as (th & ? & ?). exists th. split; [done | lia].
    + exists (new ++ [None]). split; [by rewrite Hnew, Hl, <- app_assoc|].
      split; [rewrite length_app; simpl; lia|].
      intros q Hq. apply elem_of_app in Hq as [Hq | Hq].
      * destruct (Hrows q Hq) as (th' & ? & ?). exists th'. split; [done | lia].
      * by apply list_elem_of_singleton in Hq.
    + exists (new ++ [Some p]). split; [by rewrite Hnew, Hl, <- app_assoc|].
      split; [rewrite length_app; simpl; lia|].
      intros q Hq. apply elem_of_app in Hq as [Hq | Hq].
      * destruct (Hrows q Hq) as (th' & ? & ?). exists th'. split; [done | lia].
      * apply list_elem_of_singleton in Hq as [= ->].
        destruct (Hkeep _ _ Hd) as (th' & Hd' & Hrow & _). exists th'. split; [done | lia].
Qed.

(** The loop of the garbage collection takes one off the counter for each
    link it drops; when the counter and [thumb_nb] still add up to more than
    210 at its end, every thumbnail it kept lies between [min_row_id] and
    [max_row_id]. *)
Lemma gc_loop_count links : forall (t : dt_thumbtable_t) n kept t' n',
  gc_loop links t n = Ok (kept, t', n') ->
  n' + Z.of_nat (length links) = n + Z.of_nat (length kept)
  /\ (210 < thumb_nb t + n' ->
      forall p, Some p ∈ kept ->
        exists th, deref (mem t') p = Ok th
                   /\ min_row_id t <= th_rowid th <= max_row_id t).
Proof.
  induction links as [|[p|] rest IH]; intros t n kept t' n' H; [| |discriminate].
  - simpl in H. injection H as <- <- <-. split; [done|].
    intros _ q Hq. by apply elem_of_nil in Hq.
  - pose proof (gc_loop_spec _ _ _ _ _ _ H) as (_ & Hle & _ & _ & Hkeep & _).
    simpl in H. ok_bind H as thumb Hd. ok_bind H as inc Hi. ok_bind H as t1 Ht1.
    assert (same_frame t t1) as Hf1.
    { destruct (collect_garbage t n thumb && inc).
      - by apply lut_set_thumb_spec in Ht1 as (? & _).
      - injection Ht1 as <-. apply same_frame_refl. }
    destruct (collect_garbage t n thumb || negb inc) eqn:Hgo.
    + ok_bind H as m' Hdes. apply IH in H as [Hc Hb].
      destruct Hf1 as (_ & Hnb & Hmin & Hmax & _). simpl in Hb.
      rewrite Hnb, Hmin, Hmax in Hb. split; [simpl; lia | done].
    + apply orb_false_elim in Hgo as [Hcg Hinc]. apply negb_false_iff in Hinc. subst inc.
      rewrite Hcg in Ht1. simpl in Ht1. injection Ht1 as <-.
      ok_bind H as [[kept' t2] n2] Hrec. injection H as <- <- <-.
      apply IH in Hrec as [Hc Hb]. split; [simpl; lia|].
      intros Hmany q Hq. apply elem_of_cons in Hq as [[= ->]|Hq]; [|by apply Hb].
      exists thumb. split; [by apply (Hkeep _ _ Hd)|].
      unfold collect_garbage in Hcg. apply andb_false_iff in Hcg as [Hcg | Hcg].
      * destruct (Z.gtb_spec (thumb_nb t + n) 210); [discriminate | lia].
      * apply orb_false_elim in Hcg as [H1 H2].
        destruct (Z.ltb_spec (th_rowid thumb) (min_row_id t)); [discriminate|].
        destruct (Z.gtb_spec (th_rowid thumb) (max_row_id t)); [discriminate | lia].
Qed.

(** A link the garbage collection has no reason to drop is among the links
    it keeps. *)
Lemma gc_loop_keeps_link links : forall (t : dt_thumbtable_t) n kept t' n',
  gc_loop links t n = Ok (kept, t', n') ->
  forall p th, Some p ∈ links -> deref (mem t) p = Ok th -> kept_by t n th -> Some p ∈ kept.
Proof.
  induction links as [|[p0|] rest IH]; intros t n kept t' n' H p th Hp Hdp [Hk1 Hk2];
    [| |discriminate].
  - by apply elem_of_nil in Hp.
  - simpl in H. ok_bind H as thumb Hd. ok_bind H as inc Hi. ok_bind H as t1 Ht1.
    assert (same_frame t t1 /\ mem t1 = mem t) as [Hf1 Hm1].
    { destruct (collect_garbage t n thumb && inc).
      - apply lut_set_thumb_spec in Ht1 as (? & ? & _). done.
      - injection Ht1 as <-. split; [apply same_frame_refl | done]. }
    destruct (collect_garbage t n thumb || negb inc) eqn:Hgo.
    + ok_bind H as m' Hdes. rewrite Hm1 in Hdes.
      apply destroy_spec in Hdes as (_ & Hother & _).
      destruct (decide (p = p0)) as [->|Hne].
      * rewrite Hd in Hdp. injection Hdp as ->. rewrite Hi in Hk2. injection Hk2 as ->.
        rewrite Hk1 in Hgo. discriminate.
      * apply elem_of_cons in Hp as [[=]|Hp]; [done|].
        assert (same_frame t (set_mem m' t1)) as Hf2
          by (eapply same_frame_trans; [exact Hf1 | apply same_frame_set_mem]).
        apply (IH _ _ _ _ _ H p th Hp); [simpl; by rewrite Hother|]. split.
        -- eapply collect_garbage_frame; [exact Hf2 | | exact Hk1]. lia.
        -- by eapply is_in_collection_frame.
    + apply orb_false_elim in Hgo as [Hcg Hinc]. apply negb_false_iff in Hinc. subst inc.
      rewrite Hcg in Ht1. simpl in Ht1. injection Ht1 as <-.
      ok_bind H as [[kept' t2] n2] Hrec. injection H as <- <- <-.
      apply elem_of_cons in Hp as [[= ->]|Hp]; [apply elem_of_cons; by left|].
      apply elem_of_cons. right. by apply (IH _ _ _ _ _ Hrec p th Hp Hdp).
Qed.

(** X8: [_garbage_collection] never drops a thumbnail of the collection while
    there are at most 210 of them, nor one that lies between [min_row_id]
    and [max_row_id]: it stays in the list, alive and as it was. *)
Theorem garbage_collection_keeps (t t' : dt_thumbtable_t) (num_thumb n' : Z) (p : ptr)
    (th : dt_thumbnail_t) :
  _garbage_collection t num_thumb = Ok (t', n') ->
  Some p ∈ tlist t ->
  deref (mem t) p = Ok th ->
  is_in_collection t th = Ok true ->
  thumb_nb t + num_thumb <= 210 \/ min_row_id t <= th_rowid th <= max_row_id t ->
  Some p ∈ tlist t' /\ deref (mem t') p = Ok th.
Proof.
  unfold _garbage_collection. intros H Hp Hd Hin Hwhy.
  ok_bind H as [[kept tc] nc] Hloop. injection H as <- <-. simpl.
  assert (kept_by t num_thumb th) as Hk.
  { split; [|done]. unfold collect_garbage. apply andb_false_iff.
    destruct Hwhy as [Hfew | [Hlo Hhi]].
    - left. destruct (Z.gtb_spec (thumb_nb t + num_thumb) 210); [lia | done].
    - right. apply orb_false_intro.
      + destruct (Z.ltb_spec (th_rowid th) (min_row_id t)); [lia | done].
      + destruct (Z.gtb_spec (th_rowid th) (max_row_id t)); [lia | done]. }
  split.
  - by eapply gc_loop_keeps_link.
  - apply gc_loop_spec in Hloop as (_ & _ & _ & _ & Hkeep & _). by apply Hkeep.
Qed.

Lemma garbage_collection_keeps_witness :
  exists t', _garbage_collection (loaded_table 212 300 0 210) 0 = Ok (t', -1)
             /\ Some (100%nat) ∈ tlist t'
             /\ deref (mem t') 100%nat = Ok (sample_thumb 1100 100 100 100 0 10000).
Proof.
  assert (Some (100%nat) ∈ tlist (loaded_table 212 300 0 210)) as Hp
    by (apply (bool_decide_unpack _); vm_compute; exact I).
  assert (deref (mem (loaded_table 212 300 0 210)) 100%nat
          = Ok (sample_thumb 1100 100 100 100 0 10000)) as Hd by (vm_compute; reflexivity).
  assert (is_in_collection (loaded_table 212 300 0 210)
            (sample_thumb 1100 100 100 100 0 10000) = Ok true) as Hin
    by (vm_compute; reflexivity).
  assert (min_row_id (loaded_table 212 300 0 210) <= 100 <= max_row_id (loaded_table 212 300 0 210))
    as Hw by (vm_compute; split; intros [=]).
  assert (exists t', _garbage_collection (loaded_table 212 300 0 210) 0 = Ok (t', -1))
    as (t' & H) by (eexists; vm_compute; reflexivity).
  exists t'. split; [exact H|].
  exact (garbage_collection_keeps _ _ _ _ _ _ H Hp Hd Hin (or_intror Hw)).
Defined.

(** The cycle with its steps named. *)
Lemma update_steps mouse_over (t t' : dt_thumbtable_t) :
  update_runs t = true -> dt_thumbtable_update mouse_over t = Ok t' ->
  exists t1 t2 n2 t3 n3,
    (if reset_collection t
     then t0 ← _dt_thumbtable_empty_list t; Ok (set_reset_collection false t0)
     else Ok t) = Ok t1
    /\ ((reset_collection t = true /\ tlist t1 = [] /\ thumb_nb t1 = 0
      /\ reset_collection t1 = false)
     \/ (reset_collection t = false /\ t1 = t))
    /\ min_row_id t1 = min_row_id t /\ max_row_id t1 = max_row_id t
    /\ _populate_thumbnails t1 mouse_over 0 = Ok (t2, n2)
    /\ ((tlist t1 = [] /\ t3 = t2 /\ n3 = n2)
        \/ (tlist t1 <> []
            /\ exists tg, _garbage_collection t2 n2 = Ok (tg, n3)
                          /\ _resize_thumbnails tg = Ok t3))
    /\ t' = set_thumbs_inited true (set_thumb_nb (thumb_nb t3 + n3) t3).
Proof.
  intros Hr H. unfold dt_thumbtable_update in H. rewrite Hr in H. simpl in H.
  ok_bind H as t1 Hreset. ok_bind H as [t2 n2] Hpop. ok_bind H as [t3 n3] Hgc.
  injection H as <-. exists t1, t2, n2, t3, n3.
  split; [done|]. split; [|split; [|split; [|split; [done|split; [|done]]]]].
  - destruct (reset_collection t); [left | right].
    + ok_bind Hreset as t0 E. injection Hreset as <-.
      unfold _dt_thumbtable_empty_list in E. ok_bind E as m' Hd. by injection E as <-.
    + by injection Hreset as <-.
  - destruct (reset_collection t).
    + ok_bind Hreset as t0 E. injection Hreset as <-.
      unfold _dt_thumbtable_empty_list in E. ok_bind E as m' Hd. by injection E as <-.
    + by injection Hreset as <-.
  - destruct (reset_collection t).
    + ok_bind Hreset as t0 E. injection Hreset as <-.
      unfold _dt_thumbtable_empty_list in E. ok_bind E as m' Hd. by injection E as <-.
    + by injection Hreset as <-.
  - destruct (tlist t1) as [|q l]; simpl in Hgc.
    + left. by injection Hgc as <- <-.
    + right. split; [done|]. ok_bind Hgc as [tg ng] Hg. ok_bind Hgc as tr Hres.
      injection Hgc as <- <-. eauto.
Qed.

(** X9: a cycle that starts with [thumb_nb] at the length of the list, or with
    a request for a reset, ends with [thumb_nb] at the length of the list:
    the counter of the table is the number of thumbnails it lists. *)
Theorem update_counts_thumbnails (mouse_over : Z) (t t' : dt_thumbtable_t) :
  update_runs t = true ->
  reset_collection t = true \/ thumb_nb t = Z.of_nat (length (tlist t)) ->
  dt_thumbtable_update mouse_over t = Ok t' ->
  thumb_nb t' = Z.of_nat (length (tlist t')).
Proof.
  intros Hr Hinv H.
  destruct (update_steps _ _ _ Hr H)
    as (t1 & t2 & n2 & t3 & n3 & _ & Hreset & _ & _ & Hpop & Hgc & ->). simpl.
  assert (thumb_nb t1 = Z.of_nat (length (tlist t1))) as Hinv1.
  { destruct Hreset as [(_ & -> & -> & _) | [Hno ->]]; [done|].
    destruct Hinv as [Hyes|]; [congruence | done]. }
  pose proof (populate_thumbnails_spec _ _ _ _ _ Hpop) as ((_ & Hnb2 & _) & _).
  unfold _populate_thumbnails in Hpop.
  destruct (Z.min (max_row_id t1) (collection_count t1) <? 0); [discriminate|].
  apply populate_loop_count in Hpop as (new & Hnew & -> & _).
  destruct Hgc as [(_ & -> & ->) | (_ & tg & Hg & Hres)].
  - rewrite Hnb2, Hinv1, Hnew, length_app. lia.
  - unfold _garbage_collection in Hg. ok_bind Hg as [[kept tc] nc] Hloop.
    injection Hg as <- <-.
    pose proof (gc_loop_spec _ _ _ _ _ _ Hloop) as ((_ & Hnbc & _) & _).
    apply gc_loop_count in Hloop as [Hc _].
    apply resize_loop_spec in Hres as ((_ & Hnbr & _) & Hlr & _). simpl in *.
    rewrite Hlr, Hnbr, Hnbc, Hnb2, Hinv1. rewrite Hnew, length_app in Hc. lia.
Qed.

Lemma update_counts_thumbnails_witness :
  exists t', dt_thumbtable_update (-1) grid12_replaced = Ok t'
             /\ thumb_nb t' = Z.of_nat (length (tlist t')).
Proof.
  assert (update_runs grid12_replaced = true) as Hr by (vm_compute; reflexivity).
  assert (thumb_nb grid12_replaced = Z.of_nat (length (tlist grid12_replaced))) as Hinv
    by (vm_compute; reflexivity).
  assert (exists t', dt_thumbtable_update (-1) grid12_replaced = Ok t') as (t' & H)
    by (eexists; vm_compute; reflexivity).
  exists t'. split; [exact H|].
  exact (update_counts_thumbnails (-1) grid12_replaced t' Hr (or_intror Hinv) H).
Defined.

(** X10: the bound of the cycle on what stays loaded: when more than 210
    thumbnails are listed after a cycle, each of them lies between
    [min_row_id] and [max_row_id]. *)
Theorem update_bounds_thumbnails (mouse_over : Z) (t t' : dt_thumbtable_t) :
  update_runs t = true ->
  reset_collection t = true \/ thumb_nb t = Z.of_nat (length (tlist t)) ->
  dt_thumbtable_update mouse_over t = Ok t' ->
  (210 < length (tlist t'))%nat ->
  forall p, Some p ∈ tlist t' ->
    exists th, deref (mem t') p = Ok th
               /\ min_row_id t' <= th_rowid th <= max_row_id t'.
Proof.
  intros Hr Hinv H Hmany p Hp.
  destruct (update_steps _ _ _ Hr H)
    as (t1 & t2 & n2 & t3 & n3 & _ & Hreset & _ & _ & Hpop & Hgc & ->). simpl in *.
  assert (thumb_nb t1 = Z.of_nat (length (tlist t1))) as Hinv1.
  { destruct Hreset as [(_ & -> & -> & _) | [Hno ->]]; [done|].
    destruct Hinv as [Hyes|]; [congruence | done]. }
  pose proof (populate_thumbnails_spec _ _ _ _ _ Hpop)
    as ((_ & Hnb2 & Hmin2 & Hmax2 & _) & _).
  unfold _populate_thumbnails in Hpop.
  destruct (Z.ltb_spec (Z.min (max_row_id t1) (collection_count t1)) 0); [discriminate|].
  apply populate_loop_count in Hpop as (new & Hnew & -> & Hrows).
  destruct Hgc as [(Hnil & -> & ->) | (_ & tg & Hg & Hres)].
  - rewrite Hnew, Hnil, app_nil_r in Hp. destruct (Hrows p Hp) as (th & Hd & Hrow).
    exists th. split; [done|]. lia.
  - unfold _garbage_collection in Hg. ok_bind Hg as [[kept tc] nc] Hloop.
    injection Hg as <- <-.
    pose proof (gc_loop_spec _ _ _ _ _ _ Hloop) as ((_ & Hnbc & Hminc & Hmaxc & _) & _).
    apply gc_loop_count in Hloop as [Hc Hb].
    apply resize_loop_spec in Hres as ((_ & Hnbr & Hminr & Hmaxr & _) & Hlr & Hkr & _).
    simpl in *. rewrite Hlr in Hp, Hmany. rewrite Hnew, length_app in Hc.
    destruct (Hb ltac:(lia) p Hp) as (th & Hd & Hrow).
    destruct (Hkr _ _ Hd) as (th' & Hd' & Hrow' & _).
    exists th'. split; [done|]. lia.
Qed.

Lemma update_bounds_thumbnails_witness :
  exists t' th,
    dt_thumbtable_update (-1) (loaded_table 212 300 0 210) = Ok t'
    /\ length (tlist t') = 211%nat
    /\ deref (mem t') 210%nat = Ok th /\ min_row_id t' <= th_rowid th <= max_row_id t'.
Proof.
  assert (update_runs (loaded_table 212 300 0 210) = true) as Hr by (vm_compute; reflexivity).
  assert (thumb_nb (loaded_table 212 300 0 210)
          = Z.of_nat (length (tlist (loaded_table 212 300 0 210)))) as Hinv
    by (vm_compute; reflexivity).
  assert (exists t', dt_thumbtable_update (-1) (loaded_table 212 300 0 210) = Ok t'
                     /\ length (tlist t') = 211%nat /\ Some (210%nat) ∈ tlist t')
    as (t' & H & Hlen & Hp).
  { eexists. split; [vm_compute; reflexivity|]. split; [vm_compute; reflexivity|].
    apply (bool_decide_unpack _). vm_compute. exact I. }
  destruct (update_bounds_thumbnails (-1) _ t' Hr (or_intror Hinv) H ltac:(lia) _ Hp)
    as (th & Hd & Hrow).
  exists t', th. split; [exact H|]. split; [exact Hlen|]. split; [exact Hd | exact Hrow].
Defined.

(** ** Cycles on a well-formed table *)

(** X11: a cycle on a well-formed table, whose list holds no NULL link and
    whose allocator has memory for the thumbnails to come, reads no freed
    thumbnail and no cell outside the look-up table: it runs to its end,
    leaves the table well-formed, so that the next cycle runs to its end as
    well, and, when it was not skipped, leaves the thumbnails marked as
    initialised. *)
Theorem update_safe_on_well_formed (mouse_over : Z) (t : dt_thumbtable_t) :
  wf_table t ->
  exists t', dt_thumbtable_update mouse_over t = Ok t'
             /\ wf_table t'
             /\ (update_runs t = true -> thumbs_inited t' = true).
Proof.
  intros Hwf. destruct (update_completes mouse_over t Hwf) as [t' H].
  exists t'. split; [done|]. split; [by eapply update_preserves_wf|].
  intros Hr. unfold dt_thumbtable_update in H. rewrite Hr in H. simpl in H.
  ok_bind H as t1 E1. ok_bind H as [t2 n2] E2. ok_bind H as [t3 n3] E3.
  by injection H as <-.
Qed.

Lemma update_safe_on_well_formed_witness :
  exists t', dt_thumbtable_update 14 grid12 = Ok t' /\ wf_table t'
             /\ thumbs_inited t' = true.
Proof.
  assert (update_runs grid12 = true) as Hr by (vm_compute; reflexivity).
  destruct (update_safe_on_well_formed 14 grid12) as (t' & H & Hwf & Hi).
  { apply fresh_table_wf. intros [=]. }
  exists t'. split; [exact H|]. split; [exact Hwf | exact (Hi Hr)].
Defined.

(** ** Resets *)

Lemma destroy_all_alive links : forall m m',
  destroy_all links m = Ok m' -> forall p, Some p ∈ links -> (p < length m)%nat.
Proof.
  induction links as [|[q|] rest IH]; intros m m' H p Hp;
    [by apply elem_of_nil in Hp | | discriminate].
  simpl in H. ok_bind H as m1 Hdes.
  apply elem_of_cons in Hp as [[= ->]|Hp].
  - unfold dt_thumbnail_destroy in Hdes. destruct (m !! q) as [[th|]|] eqn:E; try discriminate.
    by eapply lookup_lt_Some.
  - apply destroy_spec in Hdes as (_ & _ & Hlen). rewrite <- Hlen. by eapply IH.
Qed.

(** X12: a cycle that honours a request for a reset and runs to its end takes
    the request back, destroys every thumbnail that was listed and lists
    none of them again: every thumbnail of the new list was created by this
    cycle. *)
Theorem update_reset_flushes (mouse_over : Z) (t t' : dt_thumbtable_t) :
  update_runs t = true ->
  reset_collection t = true ->
  dt_thumbtable_update mouse_over t = Ok t' ->
  reset_collection t' = false
  /\ (forall p, Some p ∈ tlist t ->
        deref (mem t') p = Fault UseAfterFree /\ Some p ∉ tlist t')
  /\ (forall p, Some p ∈ tlist t' -> (length (mem t) <= p)%nat /\ in_sync t' p).
Proof.
  intros Hr Hreset H.
  pose proof (update_cycle_spec _ _ _ Hr H) as (_ & _ & Hsync & _).
  destruct (update_steps _ _ _ Hr H)
    as (t1 & t2 & n2 & t3 & n3 & Heq & Hcase & _ & _ & Hpop & Hgc & ->).
  destruct Hcase as [(_ & Hnil & _ & Hrc1) | [Hno _]]; [|congruence].
  destruct Hgc as [(_ & -> & ->) | (Hne & _)]; [|done].
  rewrite Hreset in Heq. ok_bind Heq as t0 E0. injection Heq as <-.
  unfold _dt_thumbtable_empty_list in E0. ok_bind E0 as m' Hdes. injection E0 as <-.
  pose proof (destroy_all_alive _ _ _ Hdes) as Halive.
  apply destroy_all_spec in Hdes as (Hlen & _ & Hgone).
  apply populate_thumbnails_spec in Hpop
    as ((_ & _ & _ & _ & _ & Hrc2) & _ & Hfrom & _ & new & Hnew & _ & _ & Hnewp).
  simpl in *. rewrite app_nil_r in Hnew. rewrite Hlen in Hnewp.
  split; [done|]. split.
  - intros p Hp. split.
    + destruct (deref_cases (mem t2) p) as [[th Hth]|Hth]; [|done].
      destruct (Hfrom _ _ Hth) as (th0 & Hth0 & _); [rewrite Hlen; by apply Halive|].
      rewrite (Hgone p Hp) in Hth0. discriminate.
    + rewrite Hnew. intros Hin. apply Hnewp in Hin as [_ Hge].
      apply Halive in Hp. lia.
  - intros p Hp. split; [|by apply Hsync]. rewrite Hnew in Hp. by apply Hnewp.
Qed.

Lemma update_reset_flushes_witness :
  exists t',
    dt_thumbtable_update (-1)
      (snd (_dt_collection_get_hash (dt_thumbtable_reset_collection grid12_loaded) 1 12
              [11; 12; 13; 14; 15; 16; 17; 18; 19; 20; 21; 22] true)) = Ok t'
    /\ reset_collection t' = false
    /\ deref (mem t') 4%nat = Fault UseAfterFree
    /\ Some (4%nat) ∉ tlist t'.
Proof.
  set (t := snd (_dt_collection_get_hash (dt_thumbtable_reset_collection grid12_loaded) 1 12
                   [11; 12; 13; 14; 15; 16; 17; 18; 19; 20; 21; 22] true)).
  assert (update_runs t = true) as Hr by (vm_compute; reflexivity).
  assert (reset_collection t = true) as Hreset by (vm_compute; reflexivity).
  assert (Some (4%nat) ∈ tlist t) as Hp by (apply (bool_decide_unpack _); vm_compute; exact I).
  assert (exists t', dt_thumbtable_update (-1) t = Ok t') as (t' & H)
    by (eexists; vm_compute; reflexivity).
  destruct (update_reset_flushes (-1) t t' Hr Hreset H) as (Hrc & Hold & _).
  destruct (Hold _ Hp) as [Hgone Hout].
  exists t'. split; [exact H|]. split; [exact Hrc|]. split; [exact Hgone | exact Hout].
Defined.

(** One turn of the loading loop writes no other cell of the look-up table
    than the one of its position. *)
Lemma populate_step_other_cells mouse_over i (t : dt_thumbtable_t) n t' n' j :
  populate_step mouse_over i (t, n) = Ok (t', n') -> j <> i -> lut_at t' j = lut_at t j.
Proof.
  unfold populate_step. intros H Hj. ok_bind H as e He.
  ok_bind H as [[[r new_item] t1] num1] Hsel.
  assert (lut_at t1 j = lut_at t j) as Hcell.
  { destruct (lut_thumb e) as [q|] eqn:Hth.
    - by injection Hsel as _ _ <- _.
    - destruct (dt_thumbnail_new (lut_imgid e) i (heap_script t) (mem t))
        as [[r' script'] m'] eqn:Hnew.
      ok_bind Hsel as t2 Hset. injection Hsel as _ _ <- _.
      unfold lut_set_thumb in Hset. unfold lut_at in *. simpl in *.
      destruct (lut t) as [l|]; [|discriminate].
      apply lut_get_Some in He as [Hi _]. ok_bind Hset as e' He'. injection Hset as <-.
      simpl. unfold lut_get. destruct (j <? 0) eqn:Hneg; [done|]. apply Z.ltb_ge in Hneg.
      rewrite list_lookup_insert_ne; [done | lia]. }
  destruct r as [p|]; [|by injection H as <- <-].
  ok_bind H as thumb Hd.
  destruct (negb (th_rowid thumb =? i) || negb (th_imgid thumb =? lut_imgid e));
    [discriminate|].
  ok_bind H as thumb1 H1. by injection H as <- <-.
Qed.

(** The loading loop stops with a fault when a cell of its range points to
    a thumbnail that was destroyed. *)
Lemma populate_loop_dangling k mouse_over : forall i (t : dt_thumbtable_t) n j e p,
  i <= j < i + Z.of_nat k ->
  lut_at t j = Ok e -> lut_thumb e = Some p ->
  deref (mem t) p = Fault UseAfterFree -> (p < length (mem t))%nat ->
  exists f, populate_loop k mouse_over i (t, n) = Fault f.
Proof.
  induction k as [|k IH]; intros i t n j e p Hj He Hth Hgone Hlt; [lia|].
  cbn [populate_loop].
  destruct (populate_step mouse_over i (t, n)) as [[t1 n1]|f] eqn:Hstep; [|simpl; eauto].
  simpl. destruct (decide (j = i)) as [->|Hne].
  - exfalso. unfold populate_step in Hstep. rewrite He in Hstep. simpl in Hstep.
    rewrite Hth in Hstep. simpl in Hstep. rewrite Hgone in Hstep. discriminate.
  - pose proof (populate_step_other_cells _ _ _ _ _ _ j Hstep Hne) as Hcell.
    apply populate_step_spec in Hstep as (_ & _ & Hfrom & Hlen & _).
    apply (IH (i + 1) t1 n1 j e p); [lia | congruence | done | | lia].
    destruct (deref_cases (mem t1) p) as [[th Hd]|Hd]; [|done].
    destruct (Hfrom _ _ Hd Hlt) as (th0 & Hd0 & _). congruence.
Qed.

(** A cycle that finds a request for a reset is the cycle that would run,
    without the request, on the table with its list emptied. *)
Lemma update_after_empty_list mouse_over (t t0 : dt_thumbtable_t) :
  update_runs t = true -> reset_collection t = true ->
  _dt_thumbtable_empty_list t = Ok t0 ->
  update_runs (set_reset_collection false t0) = true
  /\ dt_thumbtable_update mouse_over t
     = dt_thumbtable_update mouse_over (set_reset_collection false t0).
Proof.
  intros Hr Hreset E.
  assert (update_runs (set_reset_collection false t0) = true) as Hr0.
  { unfold _dt_thumbtable_empty_list in E.
    destruct (destroy_all (tlist t) (mem t)) as [m'|]; [|discriminate].
    simpl in E. injection E as <-. unfold update_runs in *. simpl.
    apply andb_true_iff in Hr as [Hr _]. by rewrite Hr. }
  split; [done|]. unfold dt_thumbtable_update at 1 2. rewrite Hr, Hr0, Hreset. simpl.
  rewrite E. done.
Qed.

Lemma update_populate_fault mouse_over (t : dt_thumbtable_t) f :
  update_runs t = true -> reset_collection t = false ->
  _populate_thumbnails t mouse_over 0 = Fault f ->
  dt_thumbtable_update mouse_over t = Fault f.
Proof.
  intros Hr Hreset H. unfold dt_thumbtable_update. rewrite Hr, Hreset. simpl.
  by rewrite H.
Qed.

(** X13: the hazard of a reset that no rebuild of the look-up table follows:
    [_dt_thumbtable_empty_list] destroys the thumbnails and leaves the cells
    pointing to them, so that a cycle which honours the request while a cell
    of the window still points to a listed thumbnail never runs to its end:
    [_populate_thumbnails] reads the destroyed thumbnail. *)
Theorem update_reset_without_rebuild_faults (mouse_over : Z) (t : dt_thumbtable_t)
    (i : Z) (e : dt_thumbtable_cache_t) (p : ptr) :
  update_runs t = true ->
  reset_collection t = true ->
  Z.max (min_row_id t) 0 <= i < Z.min (max_row_id t) (collection_count t) ->
  lut_at t i = Ok e -> lut_thumb e = Some p -> Some p ∈ tlist t ->
  exists f, dt_thumbtable_update mouse_over t = Fault f.
Proof.
  intros Hr Hreset Hi He Hth Hp.
  destruct (_dt_thumbtable_empty_list t) as [t0|f] eqn:E.
  2:{ exists f. unfold dt_thumbtable_update. rewrite Hr, Hreset. cbn [negb].
      by rewrite E. }
  destruct (update_after_empty_list mouse_over t t0 Hr Hreset E) as [Hr0 ->].
  unfold _dt_thumbtable_empty_list in E. ok_bind E as m' Hdes. injection E as <-.
  pose proof (destroy_all_alive _ _ _ Hdes _ Hp) as Halive.
  apply destroy_all_spec in Hdes as (Hlen & _ & Hgone).
  match goal with |- context [dt_thumbtable_update _ ?x] => set (t1 := x) in * end.
  assert (exists f, _populate_thumbnails t1 mouse_over 0 = Fault f) as [f Hf].
  { unfold _populate_thumbnails.
    change (max_row_id t1) with (max_row_id t). change (min_row_id t1) with (min_row_id t).
    change (collection_count t1) with (collection_count t).
    destruct (Z.ltb_spec (Z.min (max_row_id t) (collection_count t)) 0); [lia|].
    apply (populate_loop_dangling _ mouse_over _ t1 0 i e p).
    - lia.
    - exact He.
    - exact Hth.
    - exact (Hgone p Hp).
    - change (mem t1) with m'. lia. }
  exists f. by apply update_populate_fault.
Qed.

Lemma update_reset_without_rebuild_faults_witness :
  exists f, dt_thumbtable_update (-1)
              (set_thumbs_inited false (dt_thumbtable_reset_collection grid12_loaded))
            = Fault f.
Proof.
  set (t := set_thumbs_inited false (dt_thumbtable_reset_collection grid12_loaded)).
  assert (update_runs t = true) as Hr by (vm_compute; reflexivity).
  assert (reset_collection t = true) as Hreset by (vm_compute; reflexivity).
  assert (Z.max (min_row_id t) 0 <= 4 < Z.min (max_row_id t) (collection_count t)) as Hi
    by (vm_compute; split; [intros [=] | reflexivity]).
  assert (lut_at t 4 = Ok {| lut_imgid := 15; lut_thumb := Some 4%nat |}) as He
    by (vm_compute; reflexivity).
  assert (Some (4%nat) ∈ tlist t) as Hp by (apply (bool_decide_unpack _); vm_compute; exact I).
  exact (update_reset_without_rebuild_faults (-1) t 4 _ 4%nat Hr Hreset Hi He eq_refl Hp).
Defined.

(** X14: a request for a reset followed by a change of the collection is safe:
    [_dt_collection_get_hash] rebuilds the look-up table whatever the hash,
    and the cycle that follows runs to its end, destroys every thumbnail
    that was listed, takes the request back and leaves a well-formed
    table.  The thumbnails need not fit the new collection: only the list
    must hold live thumbnails, each once and none NULL, and the allocator
    must have memory for the thumbnails of the new collection. *)
Theorem reset_then_rebuild_is_safe (mouse_over hash num_pics : Z) (t : dt_thumbtable_t)
    (collection : list Z) :
  NoDup (tlist t) ->
  links_alive (mem t) (tlist t) ->
  malloc_succeeds t ->
  configured t = true ->
  0 <= max_row_id t ->
  collection <> [] ->
  fst (_dt_collection_get_hash (dt_thumbtable_reset_collection t) hash num_pics
         collection true) = 1
  /\ exists t',
       dt_thumbtable_update mouse_over
         (snd (_dt_collection_get_hash (dt_thumbtable_reset_collection t) hash num_pics
                 collection true)) = Ok t'
       /\ wf_table t'
       /\ reset_collection t' = false
       /\ collection_count t' = Z.of_nat (length collection)
       /\ forall p, Some p ∈ tlist t -> deref (mem t') p = Fault UseAfterFree.
Proof.
  intros Hnd Halive Hheap Hconf Hmax Hne.
  set (cells := map (fun id => {| lut_imgid := id; lut_thumb := None |}) collection).
  assert (_dt_collection_get_hash (dt_thumbtable_reset_collection t) hash num_pics
            collection true
          = (1, set_lut (Some cells)
                  (set_collection_count (Z.of_nat (length collection))
                     (set_thumbs_inited false (set_collection_inited true
                        (set_collection_count num_pics (set_collection_hash hash
                           (set_reset_collection true t)))))))) as ->.
  { unfold _dt_collection_get_hash, dt_thumbtable_reset_collection. simpl.
    rewrite orb_true_r. unfold _dt_collection_lut. by destruct collection. }
  simpl. split; [done|].
  match goal with |- context [dt_thumbtable_update _ ?x] => set (t1 := x) end.
  destruct (destroy_all_ok (tlist t) (mem t) Hnd Halive) as [m' Hdes].
  assert (_dt_thumbtable_empty_list t1
          = Ok (set_thumbs_inited false (set_thumb_nb 0 (set_tlist [] (set_mem m' t1)))))
    as Hempty by (unfold _dt_thumbtable_empty_list; simpl; by rewrite Hdes).
  assert (update_runs t1 = true) as Hr by (unfold update_runs; simpl; by rewrite Hconf).
  destruct (update_after_empty_list mouse_over t1 _ Hr eq_refl Hempty) as [Hr0 ->].
  match goal with |- context [dt_thumbtable_update _ ?x] => set (t2 := x) end.
  assert (wf_table t2) as Hwf.
  { exists cells. simpl. split; [done|].
    split; [unfold cells; rewrite length_map; lia|]. split; [done|].
    split; [constructor|]. split; [|split; [|split]].
    - intros p Hp. by apply elem_of_nil in Hp.
    - intros l i e p [= <-] He Hp. unfold cells in He.
      change (map ?f collection) with (f <$> collection) in He.
      rewrite list_lookup_fmap in He. destruct (collection !! i); [|discriminate].
      injection He as <-. discriminate.
    - discriminate.
    - exact Hheap. }
  destruct (update_completes mouse_over t2 Hwf) as [t' H]. exists t'.
  split; [done|]. split; [by eapply update_preserves_wf|].
  pose proof (update_cycle_spec _ _ _ Hr0 H) as (_ & Hcount & _).
  destruct (update_steps _ _ _ Hr0 H)
    as (t3 & t4 & n4 & t5 & n5 & _ & Hcase & _ & _ & Hpop & Hgc & ->).
  destruct Hcase as [(Hyes & _) | (_ & ->)]; [discriminate|].
  destruct Hgc as [(_ & -> & ->) | (Hnonnil & _)]; [|done].
  apply populate_thumbnails_spec in Hpop
    as ((_ & _ & _ & _ & _ & Hrc) & _ & Hfrom & _).
  split; [done|]. split; [done|]. simpl in *.
  intros p Hp. pose proof (destroy_all_alive _ _ _ Hdes _ Hp) as Hlt.
  apply destroy_all_spec in Hdes as (Hlen & _ & Hgone).
  destruct (deref_cases (mem t4) p) as [[th Hth]|Hth]; [|done].
  destruct (Hfrom _ _ Hth) as (th0 & Hth0 & _); [by rewrite Hlen|].
  rewrite (Hgone p Hp) in Hth0. discriminate.
Qed.

Lemma reset_then_rebuild_is_safe_witness :
  exists t',
    dt_thumbtable_update (-1)
      (snd (_dt_collection_get_hash (dt_thumbtable_reset_collection grid12_loaded) 1 3
              [31; 32; 33] true)) = Ok t'
    /\ wf_table t'
    /\ deref (mem t') 8%nat = Fault UseAfterFree.
Proof.
  assert (NoDup (tlist grid12_loaded)) as Hnd
    by (apply (bool_decide_unpack _); vm_compute; exact I).
  destruct grid12_loaded_wf as (l & _ & _ & _ & _ & Hlinks & _ & _ & Hheap).
  pose proof (links_ok_alive _ _ Hlinks) as Halive.
  assert (configured grid12_loaded = true) as Hconf by (vm_compute; reflexivity).
  assert (0 <= max_row_id grid12_loaded) as Hmax by (vm_compute; intros [=]).
  assert (Some (8%nat) ∈ tlist grid12_loaded) as Hp
    by (apply (bool_decide_unpack _); vm_compute; exact I).
  destruct (reset_then_rebuild_is_safe (-1) 1 3 grid12_loaded [31; 32; 33]
              Hnd Halive Hheap Hconf Hmax ltac:(intros [=]))
    as (_ & t' & H & Hwf & _ & _ & Hgone).
  exists t'. split; [exact H|]. split; [exact Hwf | exact (Hgone _ Hp)].
Defined.

(** ** What a cycle leaves alone *)

Section Geometry.

Implicit Types t : dt_thumbtable_t.

Lemma geometry_lut_set_thumb t i v t' :
  lut_set_thumb t i v = Ok t' -> geometry t' = geometry t.
Proof.
  unfold lut_set_thumb. destruct (lut t); [|discriminate]. intros H.
  ok_bind H as e E. by injection H as <-.
Qed.

Lemma geometry_populate_step mouse_over i t n t' n' :
  populate_step mouse_over i (t, n) = Ok (t', n') -> geometry t' = geometry t.
Proof.
  unfold populate_step. intros H. ok_bind H as e He.
  ok_bind H as [[[r new_item] t1] num1] Hsel.
  assert (geometry t1 = geometry t) as Hg1.
  { destruct (lut_thumb e) as [q|].
    - by injection Hsel as _ _ <- _.
    - destruct (dt_thumbnail_new (lut_imgid e) i (heap_script t) (mem t))
        as [[r' script'] m'] eqn:Hnew.
      ok_bind Hsel as t2 Hset. injection Hsel as _ _ <- _.
      by apply geometry_lut_set_thumb in Hset. }
  destruct r as [p|]; [|by injection H as <- <-].
  ok_bind H as thumb Hd.
  destruct (negb (th_rowid thumb =? i) || negb (th_imgid thumb =? lut_imgid e));
    [discriminate|].
  ok_bind H as thumb1 H1. by injection H as <- <-.
Qed.

Lemma geometry_populate_loop k mouse_over : forall i t n t' n',
  populate_loop k mouse_over i (t, n) = Ok (t', n') -> geometry t' = geometry t.
Proof.
  induction k as [|k IH]; intros i t n t' n' H.
  - simpl in H. by injection H as <- <-.
  - cbn [populate_loop] in H. ok_bind H as [t1 n1] Hstep.
    apply geometry_populate_step in Hstep. apply IH in H. congruence.
Qed.

Lemma geometry_gc_loop links : forall t n kept t' n',
  gc_loop links t n = Ok (kept, t', n') -> geometry t' = geometry t.
Proof.
  induction links as [|[p|] rest IH]; intros t n kept t' n' H; simpl in H; [| |discriminate].
  - by injection H as <- <- <-.
  - ok_bind H as thumb Hd. ok_bind H as inc Hi. ok_bind H as t1 Ht1.
    assert (geometry t1 = geometry t) as Hg1.
    { destruct (collect_garbage t n thumb && inc).
      - by apply geometry_lut_set_thumb in Ht1.
      - by injection Ht1 as <-. }
    destruct (collect_garbage t n thumb || negb inc).
    + ok_bind H as m' Hdes. apply IH in H. by rewrite H.
    + ok_bind H as [[kept' t2] n2] Hrec. injection H as <- <- <-.
      apply IH in Hrec. congruence.
Qed.

Lemma geometry_resize_loop links : forall t t',
  resize_loop links t = Ok t' -> geometry t' = geometry t.
Proof.
  induction links as [|[p|] rest IH]; intros t t' H; simpl in H; [| |discriminate].
  - by injection H as <-.
  - ok_bind H as t1 Hstep. apply IH in H. rewrite H.
    unfold resize_step in Hstep. ok_bind Hstep as thumb Hd.
    destruct (negb _ && _).
    + ok_bind Hstep as [b th'] Hpos. by injection Hstep as <-.
    + by injection Hstep as <-.
Qed.

Lemma geometry_update mouse_over t t' :
  dt_thumbtable_update mouse_over t = Ok t' -> geometry t' = geometry t.
Proof.
  intros H. unfold dt_thumbtable_update in H.
  destruct (negb (update_runs t)); [by injection H as <-|].
  ok_bind H as t1 Hreset. ok_bind H as [t2 n2] Hpop. ok_bind H as [t3 n3] Hgc.
  injection H as <-.
  assert (geometry t1 = geometry t) as H1.
  { destruct (reset_collection t).
    - ok_bind Hreset as t0 E. injection Hreset as <-.
      unfold _dt_thumbtable_empty_list in E. ok_bind E as m' Hd. by injection E as <-.
    - by injection Hreset as <-. }
  assert (geometry t2 = geometry t1) as H2.
  { unfold _populate_thumbnails in Hpop.
    destruct (Z.min (max_row_id t1) (collection_count t1) <? 0); [discriminate|].
    by apply geometry_populate_loop in Hpop. }
  assert (geometry t3 = geometry t2) as H3.
  { destruct (negb (list_is_null (tlist t1))); simpl in Hgc.
    - ok_bind Hgc as [tg ng] Hg. ok_bind Hgc as tr Hres. injection Hgc as <- <-.
      unfold _garbage_collection in Hg. ok_bind Hg as [[kept tc] nc] Hloop.
      injection Hg as <- <-. apply geometry_gc_loop in Hloop.
      apply geometry_resize_loop in Hres. rewrite Hres. exact Hloop.
    - by injection Hgc as <- <-. }
  change (geometry t3 = geometry t). congruence.
Qed.

End Geometry.

(** X15: a cycle, whether it runs or not, writes none of the mode, the sizes of
    the view and of the thumbnails, the number of thumbnails per row, the
    count of the collection, the window and the two adjustments: only
    [dt_thumbtable_configure], [_update_row_ids] and the rebuild of the
    look-up table move them. *)
Theorem update_leaves_geometry (mouse_over : Z) (t t' : dt_thumbtable_t) :
  dt_thumbtable_update mouse_over t = Ok t' ->
  mode t' = mode t
  /\ thumbs_per_row t' = thumbs_per_row t
  /\ (view_width t', view_height t') = (view_width t, view_height t)
  /\ (thumb_width t', thumb_height t') = (thumb_width t, thumb_height t)
  /\ collection_count t' = collection_count t
  /\ (min_row_id t', max_row_id t') = (min_row_id t, max_row_id t)
  /\ (v_scrollbar t', h_scrollbar t') = (v_scrollbar t, h_scrollbar t)
  /\ configured t' = configured t.
Proof.
  intros H. apply geometry_update in H. unfold geometry in H.
  injection H; intros. repeat split; congruence.
Qed.

Lemma update_leaves_geometry_witness :
  exists t', dt_thumbtable_update (-1) grid12_replaced = Ok t'
             /\ (min_row_id t', max_row_id t') = (0, 9) /\ thumbs_per_row t' = 3.
Proof.
  assert (exists t', dt_thumbtable_update (-1) grid12_replaced = Ok t') as (t' & H)
    by (eexists; vm_compute; reflexivity).
  destruct (update_leaves_geometry (-1) grid12_replaced t' H)
    as (_ & Hcols & _ & _ & _ & Hwin & _).
  exists t'. split; [exact H|]. split; [exact Hwin | exact Hcols].
Defined.

(** ** Hovering *)

Lemma set_mouseover_twice th b :
  dt_thumbnail_set_mouseover (dt_thumbnail_set_mouseover th b) b
  = dt_thumbnail_set_mouseover th b.
Proof. done. Qed.

Lemma mouse_over_loop_spec mouse_over links : forall m,
  links_alive m links ->
  exists m',
    mouse_over_loop links mouse_over m = Ok m'
    /\ length m' = length m
    /\ (forall p th, deref m p = Ok th ->
          deref m' p
          = Ok (if decide (Some p ∈ links)
                then dt_thumbnail_set_mouseover th (th_imgid th =? mouse_over)
                else th))
    /\ (forall p, deref m p = Fault UseAfterFree -> deref m' p = Fault UseAfterFree).
Proof.
  induction links as [|[p0|] rest IH]; intros m Hal.
  - exists m. split; [done|]. split; [done|]. split; [|done].
    intros p th Hd.
    destruct (decide (Some p ∈ [])) as [Hin|_]; [by apply elem_of_nil in Hin | done].
  - destruct (links_alive_Some m _ p0 Hal) as [th0 Hd0]; [apply elem_of_cons; by left|].
    simpl. rewrite Hd0. simpl.
    set (th0' := dt_thumbnail_set_mouseover th0 (th_imgid th0 =? mouse_over)).
    destruct (IH (store m p0 th0')) as (m' & Hloop & Hlen & Hset & Hdead).
    { intros lq Hq. destruct (Hal lq) as (q & tq & -> & Hdq); [apply elem_of_cons; by right|].
      destruct (decide (q = p0)) as [->|Hne].
      - exists p0, th0'. split; [done|]. by eapply deref_store_eq.
      - exists q, tq. split; [done|]. by rewrite deref_store_ne. }
    exists m'. split; [done|]. split; [by rewrite Hlen, length_store|]. split.
    + intros p th Hd. destruct (decide (p = p0)) as [->|Hne].
      * rewrite Hd0 in Hd. injection Hd as <-.
        rewrite (Hset p0 th0') by (by eapply deref_store_eq).
        destruct (decide (Some p0 ∈ Some p0 :: rest)) as [_|Hout];
          [|exfalso; apply Hout, elem_of_cons; by left].
        by destruct (decide (Some p0 ∈ rest)).
      * rewrite (Hset p th) by (by rewrite deref_store_ne).
        destruct (decide (Some p ∈ rest)) as [Hin|Hout],
                 (decide (Some p ∈ Some p0 :: rest)) as [Hin'|Hout'];
          try done.
        -- exfalso. apply Hout', elem_of_cons. by right.
        -- apply elem_of_cons in Hin' as [[=]|?]; done.
    + intros p Hd. apply Hdead. destruct (decide (p = p0)) as [->|Hne]; [congruence|].
      by rewrite deref_store_ne.
  - exfalso. apply (links_alive_no_null _ _ Hal). apply elem_of_cons. by left.
Qed.

(** X16: when the hovered image changes, [_mouse_over_image_callback] leaves
    every listed thumbnail with its hover flag set exactly when its image is
    the hovered one, and touches nothing else: not the sizes, positions and
    images of the listed thumbnails, not the thumbnails out of the list, not
    the list and not the look-up table.  The links of the list point to
    live thumbnails. *)
Theorem mouse_over_callback_syncs (t : dt_thumbtable_t) (mouse_over : Z) :
  links_alive (mem t) (tlist t) ->
  exists t',
    _mouse_over_image_callback t mouse_over = Ok t'
    /\ t' = set_mem (mem t') t
    /\ (forall p th, Some p ∈ tlist t -> deref (mem t) p = Ok th ->
          deref (mem t') p
          = Ok (dt_thumbnail_set_mouseover th (th_imgid th =? mouse_over)))
    /\ (forall p, Some p ∉ tlist t -> deref (mem t') p = deref (mem t) p).
Proof.
  intros Hal. unfold _mouse_over_image_callback.
  destruct (mouse_over_loop_spec mouse_over (tlist t) (mem t) Hal)
    as (m' & -> & Hlen & Hset & Hdead).
  simpl. eexists. split; [done|]. simpl. split; [done|]. split.
  - intros p th Hp Hd. rewrite (Hset p th Hd). by destruct (decide (Some p ∈ tlist t)).
  - intros p Hp. destruct (deref_cases (mem t) p) as [[th Hd]|Hd].
    + rewrite (Hset p th Hd), Hd. by destruct (decide (Some p ∈ tlist t)).
    + by rewrite (Hdead p Hd), Hd.
Qed.

Lemma mouse_over_callback_syncs_witness :
  exists t' th4 th5,
    _mouse_over_image_callback grid12_loaded 15 = Ok t'
    /\ deref (mem t') 4%nat = Ok th4 /\ th_mouse_over th4 = true
    /\ deref (mem t') 5%nat = Ok th5 /\ th_mouse_over th5 = false.
Proof.
  assert (links_alive (mem grid12_loaded) (tlist grid12_loaded)) as Halive.
  { destruct grid12_loaded_wf as (l & _ & _ & _ & _ & Hlinks & _).
    by apply links_ok_alive. }
  assert (Some (4%nat) ∈ tlist grid12_loaded) as H4
    by (apply (bool_decide_unpack _); vm_compute; exact I).
  assert (Some (5%nat) ∈ tlist grid12_loaded) as H5
    by (apply (bool_decide_unpack _); vm_compute; exact I).
  assert (exists th, deref (mem grid12_loaded) 4%nat = Ok th /\ th_imgid th = 15)
    as (th4 & Hd4 & Hi4) by (eexists; split; vm_compute; reflexivity).
  assert (exists th, deref (mem grid12_loaded) 5%nat = Ok th /\ th_imgid th = 16)
    as (th5 & Hd5 & Hi5) by (eexists; split; vm_compute; reflexivity).
  destruct (mouse_over_callback_syncs grid12_loaded 15 Halive) as (t' & H & _ & Hset & _).
  exists t', (dt_thumbnail_set_mouseover th4 (th_imgid th4 =? 15)),
    (dt_thumbnail_set_mouseover th5 (th_imgid th5 =? 15)).
  split; [exact H|]. split; [exact (Hset _ _ H4 Hd4)|]. split; [simpl; by rewrite Hi4|].
  split; [exact (Hset _ _ H5 Hd5)|]. simpl. by rewrite Hi5.
Defined.

(** ** Moves and keys *)

Section Moves.

Implicit Types t : dt_thumbtable_t.

Lemma update_lut_ids mouse_over t t' :
  dt_thumbtable_update mouse_over t = Ok t' -> lut_ids t' = lut_ids t.
Proof.
  intros H. destruct (update_runs t) eqn:Hr.
  - by apply (update_cycle_spec _ _ _ Hr) in H as (? & _).
  - rewrite (update_skipped _ _ Hr) in H. by injection H as <-.
Qed.

(** The last step of a move writes neither the image ids of the look-up
    table nor the geometry, the scroll position apart, and keeps a
    well-formed table well-formed. *)
Lemma move_dispatch_frame t c new_rowid new_imgid t' outcome :
  move_dispatch t c new_rowid new_imgid = Ok (t', outcome) ->
  lut_ids t' = lut_ids t
  /\ collection_count t' = collection_count t
  /\ mode t' = mode t
  /\ thumbs_per_row t' = thumbs_per_row t
  /\ thumb_height t' = thumb_height t
  /\ view_height t' = view_height t
  /\ (wf_table t -> wf_table t')
  /\ thumb_width t' = thumb_width t
  /\ v_scrollbar t' = v_scrollbar t
  /\ h_scrollbar t' = h_scrollbar t.
Proof.
  unfold move_dispatch. intros H. ok_bind H as visible Hv. destruct visible; simpl in H.
  - ok_bind H as t1 Hu. injection H as <- <-.
    pose proof (update_lut_ids _ _ _ Hu) as Hids.
    pose proof (geometry_update _ _ _ Hu) as Hg. unfold geometry in Hg. simpl in Hg.
    injection Hg; intros. split; [done|]. split; [done|]. split; [done|]. split; [done|].
    split; [done|]. split; [done|]. split; [|by repeat split].
    intros Hwf. apply (update_preserves_wf (mouse_over_id c) (set_thumbs_inited false t));
      [|exact Hu].
    destruct Hwf as (l & Hl). by exists l.
  - ok_bind H as [[ret t1] request] Hs. injection H as <- <-.
    unfold dt_thumbtable_scroll_to_imgid in Hs.
    destruct (negb (collection_inited t) || (new_imgid <? 0));
      [injection Hs as <- <- <-; by repeat split|].
    ok_bind Hs as rowid Hr. destruct (rowid =? -1);
      [injection Hs as <- <- <-; by repeat split|].
    ok_bind Hs as [x0 y0] Hp. injection Hs as <- <- <-. by repeat split.
Qed.

(** Which cell the search finds depends on the image ids only. *)
Lemma imgid_to_rowid_finds t ids (k : nat) imgid :
  lut_ids t = Some ids -> NoDup ids -> collection_count t = Z.of_nat (length ids) ->
  ids !! k = Some imgid ->
  _imgid_to_rowid t imgid = Ok (Z.of_nat k)
  /\ exists e, lut_at t (Z.of_nat k) = Ok e /\ lut_imgid e = imgid.
Proof.
  unfold lut_ids, _imgid_to_rowid, lut_at. intros Hids Hnd Hc Hk.
  destruct (lut t) as [l|]; [|discriminate]. injection Hids as <-.
  rewrite list_lookup_fmap in Hk. destruct (l !! k) as [e|] eqn:He; [|discriminate].
  injection Hk as Hk. rewrite length_fmap in Hc. split.
  - rewrite Hc, Nat2Z.id.
    apply (lut_search_finds l imgid k e Hnd He Hk (length l) 0%nat); [lia|].
    apply lookup_lt_Some in He. lia.
  - exists e. split; [|done]. apply lut_get_Some. split; [lia|]. by rewrite Nat2Z.id.
Qed.

(** A move whose offset keeps it inside the collection lands on the image
    at the position of its start plus the offset, with both ids set to that
    image, and leaves the table ready for the next move. *)
Lemma move_in_grid_lands t c direction ids (k : nat) (a b offset : Z) :
  wf_table t -> 1 <= thumbs_per_row t ->
  lut_ids t = Some ids -> NoDup ids -> collection_count t = Z.of_nat (length ids) ->
  ids !! k = Some a ->
  move_offset t direction a = Ok offset ->
  0 <= Z.of_nat k + offset ->
  ids !! Z.to_nat (Z.of_nat k + offset) = Some b ->
  exists t' c' outcome,
    _move_in_grid t c direction a = Ok (t', c', outcome)
    /\ keyboard_over_id c' = b /\ mouse_over_id c' = b
    /\ wf_table t'
    /\ lut_ids t' = lut_ids t
    /\ collection_count t' = collection_count t
    /\ mode t' = mode t
    /\ thumbs_per_row t' = thumbs_per_row t
    /\ thumb_height t' = thumb_height t
    /\ view_height t' = view_height t.
Proof.
  intros Hwf Hcols Hids Hnd Hc Hk Ho Hpos Hk'.
  destruct (imgid_to_rowid_finds t ids k a Hids Hnd Hc Hk) as [Hr _].
  destruct (imgid_to_rowid_finds t ids _ b Hids Hnd Hc Hk') as (_ & e & He & Hie).
  rewrite Z2Nat.id in He by lia.
  unfold _move_in_grid, move_target. rewrite Hr. simpl. rewrite Ho. simpl.
  assert (CLAMP (Z.of_nat k + offset) 0 (collection_count t - 1) = Z.of_nat k + offset)
    as ->.
  { apply lookup_lt_Some in Hk'. unfold CLAMP.
    destruct (Z.gtb_spec (Z.of_nat k + offset) (collection_count t - 1)); [lia|].
    destruct (Z.ltb_spec (Z.of_nat k + offset) 0); [lia | done]. }
  rewrite He. simpl. rewrite Hie.
  match goal with
  | |- context [move_dispatch t ?c0 ?r ?i] =>
      destruct (move_dispatch_ok t Hwf Hcols c0 r i) as [[t' o] Hd]
  end.
  rewrite Hd. simpl. eexists t', _, o. split; [done|]. split; [done|]. split; [done|].
  apply move_dispatch_frame in Hd as (? & ? & ? & ? & ? & ? & Hwf' & _).
  repeat split; auto.
Qed.

Lemma move_offset_opposite t t' d d' a b offset :
  opposite_direction d = Some d' ->
  thumbs_per_row t' = thumbs_per_row t -> thumb_height t' = thumb_height t ->
  view_height t' = view_height t ->
  move_offset t d a = Ok offset -> move_offset t' d' b = Ok (- offset).
Proof.
  intros Hopp Hcols Hth Hvh. unfold move_offset. rewrite Hcols, Hth, Hvh.
  destruct d; simpl in Hopp; try discriminate; injection Hopp as <-;
    try (intros [= <-]; f_equal; lia).
  - destruct (Z.eqb_spec (thumb_height t) 0); [discriminate|]. intros [= <-]. f_equal.
    rewrite Z.quot_opp_l by done. lia.
  - destruct (Z.eqb_spec (thumb_height t) 0); [discriminate|]. intros [= <-]. f_equal.
    rewrite Z.quot_opp_l by done. lia.
Qed.

(** A key that moves in the grid is a move from the image [key_origin]
    gives. *)
Lemma key_pressed_moves t c first_selected keyval shift control direction :
  key_direction (mode t) keyval = Some direction ->
  _key_pressed_grid t c first_selected keyval shift control
  = (imgid ← key_origin t c first_selected;
     '(t', c', outcome) ← _move_in_grid t c direction imgid;
     Ok (true, t', c', KeyMove outcome)).
Proof.
  unfold _key_pressed_grid. intros H.
  destruct keyval, (mode t); simpl in H; try discriminate; by injection H as <-.
Qed.

Lemma key_origin_keyboard t c first_selected :
  0 <= keyboard_over_id c -> key_origin t c first_selected = Ok (keyboard_over_id c).
Proof.
  intros H. unfold key_origin.
  assert ((keyboard_over_id c <? 0) = false) as E by (apply Z.ltb_ge; lia).
  cbv zeta. repeat (rewrite E; cbv iota). reflexivity.
Qed.

End Moves.

(** X17: every key that moves in the grid, pressed on a table that has no
    look-up table yet, sends [_move_in_grid] reading [table->lut] through a
    NULL pointer, or dividing by a thumbnail height of zero: the test of
    [table->lut] in [_key_pressed_grid] guards the choice of the image to
    start from, not the move. *)
Theorem key_pressed_without_lut_faults (t : dt_thumbtable_t) (c : dt_control_t)
    (first_selected : Z) (keyval : GdkKey) (shift control : bool)
    (direction : dt_thumbtable_direction_t) :
  lut t = None ->
  key_direction (mode t) keyval = Some direction ->
  exists f, _key_pressed_grid t c first_selected keyval shift control = Fault f.
Proof.
  intros Hl Hd. rewrite (key_pressed_moves _ _ _ _ _ _ _ Hd).
  unfold key_origin. rewrite Hl, andb_false_r. simpl.
  unfold _move_in_grid, move_target, _imgid_to_rowid. rewrite Hl. simpl.
  destruct (move_offset t direction _) as [offset|f]; simpl; [|eauto].
  unfold lut_at. rewrite Hl. simpl. eauto.
Qed.

Lemma key_pressed_without_lut_faults_witness :
  exists f,
    _key_pressed_grid (dt_thumbtable_new (sample_adjustment 0 0) (sample_adjustment 0 0))
      no_focus (-1) GDK_KEY_Right false false = Fault f.
Proof.
  exact (key_pressed_without_lut_faults
           (dt_thumbtable_new (sample_adjustment 0 0) (sample_adjustment 0 0))
           no_focus (-1) GDK_KEY_Right false false DT_TT_MOVE_RIGHT eq_refl eq_refl).
Defined.

(** X18: an arrow or a page key that does not hit an end of the collection is
    undone by the opposite key: on a well-formed table whose collection
    lists no image twice, pressing a key that moves by a fixed offset from
    the image under the keyboard focus, then the key of the opposite
    direction, leaves both global ids on the image the first press started
    from, whatever was selected and wherever the mouse was. *)
Theorem key_then_opposite_key_returns (t : dt_thumbtable_t) (c : dt_control_t)
    (sel sel' : Z) (key key' : GdkKey) (shift control shift' control' : bool)
    (d d' : dt_thumbtable_direction_t) (ids : list Z) (k : nat) (a b offset : Z) :
  wf_table t -> 1 <= thumbs_per_row t ->
  lut_ids t = Some ids -> NoDup ids -> collection_count t = Z.of_nat (length ids) ->
  (forall id, id ∈ ids -> 0 <= id) ->
  key_direction (mode t) key = Some d ->
  key_direction (mode t) key' = Some d' ->
  opposite_direction d = Some d' ->
  keyboard_over_id c = a ->
  ids !! k = Some a ->
  move_offset t d a = Ok offset ->
  0 <= Z.of_nat k + offset ->
  ids !! Z.to_nat (Z.of_nat k + offset) = Some b ->
  exists t1 c1 o1 t2 c2 o2,
    _key_pressed_grid t c sel key shift control = Ok (true, t1, c1, KeyMove o1)
    /\ keyboard_over_id c1 = b /\ mouse_over_id c1 = b
    /\ _key_pressed_grid t1 c1 sel' key' shift' control' = Ok (true, t2, c2, KeyMove o2)
    /\ keyboard_over_id c2 = a /\ mouse_over_id c2 = a.
Proof.
  intros Hwf Hcols Hids Hnd Hc Hpos Hkey Hkey' Hopp Hfocus Hk Ho Hin Hk'.
  assert (0 <= a) as Ha by (apply Hpos; by eapply list_elem_of_lookup_2).
  assert (0 <= b) as Hb by (apply Hpos; by eapply list_elem_of_lookup_2).
  destruct (move_in_grid_lands t c d ids k a b offset Hwf Hcols Hids Hnd Hc Hk Ho Hin Hk')
    as (t1 & c1 & o1 & Hm1 & Hkb1 & Hmo1 & Hwf1 & Hids1 & Hc1 & Hmode1 & Hcols1 & Hth1 & Hvh1).
  pose proof (move_offset_opposite t t1 d d' a b offset Hopp Hcols1 Hth1 Hvh1 Ho) as Ho'.
  destruct (move_in_grid_lands t1 c1 d' ids (Z.to_nat (Z.of_nat k + offset)) b a (- offset))
    as (t2 & c2 & o2 & Hm2 & Hkb2 & Hmo2 & _); try done; try congruence.
  { rewrite Z2Nat.id by lia. lia. }
  { rewrite Z2Nat.id by lia. replace (Z.of_nat k + offset + - offset) with (Z.of_nat k) by lia.
    by rewrite Nat2Z.id. }
  exists t1, c1, o1, t2, c2, o2.
  rewrite (key_pressed_moves _ _ _ _ _ _ _ Hkey).
  rewrite key_origin_keyboard by (by rewrite Hfocus). rewrite Hfocus. simpl.
  rewrite Hm1. simpl. split; [done|]. split; [done|]. split; [done|].
  rewrite <- Hmode1 in Hkey'. rewrite (key_pressed_moves _ _ _ _ _ _ _ Hkey').
  rewrite key_origin_keyboard by (by rewrite Hkb1). rewrite Hkb1. simpl.
  rewrite Hm2. simpl. done.
Qed.

Lemma key_then_opposite_key_returns_witness :
  exists t1 c1 o1 t2 c2 o2,
    _key_pressed_grid grid12 {| mouse_over_id := 20; keyboard_over_id := 15 |} 11
      GDK_KEY_Down false false = Ok (true, t1, c1, KeyMove o1)
    /\ keyboard_over_id c1 = 18 /\ mouse_over_id c1 = 18
    /\ _key_pressed_grid t1 c1 (-1) GDK_KEY_KP_Up false false = Ok (true, t2, c2, KeyMove o2)
    /\ keyboard_over_id c2 = 15 /\ mouse_over_id c2 = 15.
Proof.
  assert (NoDup [11; 12; 13; 14; 15; 16; 17; 18; 19; 20; 21; 22]) as Hnd
    by (apply (bool_decide_unpack _); vm_compute; exact I).
  assert (forall id, id ∈ [11; 12; 13; 14; 15; 16; 17; 18; 19; 20; 21; 22] -> 0 <= id)
    as Hpos.
  { apply Forall_forall. apply (bool_decide_unpack _). vm_compute. exact I. }
  apply (key_then_opposite_key_returns grid12 _ 11 (-1) GDK_KEY_Down GDK_KEY_KP_Up
           false false false false DT_TT_MOVE_DOWN DT_TT_MOVE_UP
           [11; 12; 13; 14; 15; 16; 17; 18; 19; 20; 21; 22] 4 15 18 3).
  - apply fresh_table_wf. intros [=].
  - intros [=].
  - reflexivity.
  - exact Hnd.
  - reflexivity.
  - exact Hpos.
  - reflexivity.
  - reflexivity.
  - reflexivity.
  - reflexivity.
  - reflexivity.
  - reflexivity.
  - intros [=].
  - reflexivity.
Defined.



(** X20: a move to the start subtracts the image id of its origin, not the
    position of the origin: from the image [a] at position [k] it targets
    position [max 0 (k - a)], which is the first position exactly when
    [k <= a]. *)
Theorem move_start_target (t : dt_thumbtable_t) (ids : list Z) (k : nat) (a : Z) :
  lut_ids t = Some ids -> NoDup ids -> collection_count t = Z.of_nat (length ids) ->
  ids !! k = Some a ->
  0 <= a ->
  move_target t DT_TT_MOVE_START a = Ok (Z.max 0 (Z.of_nat k - a))
  /\ (Z.max 0 (Z.of_nat k - a) = 0 <-> Z.of_nat k <= a).
Proof.
  intros Hids Hnd Hc Hk Ha.
  destruct (imgid_to_rowid_finds t ids k a Hids Hnd Hc Hk) as [Hr _].
  split; [|lia]. unfold move_target. rewrite Hr. simpl. f_equal.
  apply lookup_lt_Some in Hk. unfold CLAMP.
  destruct (Z.gtb_spec (Z.of_nat k + - a) (collection_count t - 1)); [lia|].
  destruct (Z.ltb_spec (Z.of_nat k + - a) 0); lia.
Qed.

Lemma move_start_target_witness :
  move_target
    (sample_table DT_THUMBTABLE_MODE_FILEMANAGER 3 100 100 300 300 [40; 41; 42; 43; 44; 2] 0 9
       (sample_adjustment 0 300)) DT_TT_MOVE_START 2 = Ok 3.
Proof.
  apply (move_start_target
           (sample_table DT_THUMBTABLE_MODE_FILEMANAGER 3 100 100 300 300
              [40; 41; 42; 43; 44; 2] 0 9 (sample_adjustment 0 300))
           [40; 41; 42; 43; 44; 2] 5 2).
  - reflexivity.
  - apply (bool_decide_unpack _). vm_compute. exact I.
  - reflexivity.
  - reflexivity.
  - intros [=].
Defined.

(** ** Scrolling to an image *)

(** The coordinates of a position of the collection, when the collection
    laid out in one line of thumbnails stays within the range of [int]. *)
Lemma rowid_to_position_bounds (t : dt_thumbtable_t) (rowid x y : Z) :
  0 <= thumb_width t -> 0 <= thumb_height t ->
  (collection_count t + 1) * thumb_width t < 2 ^ 31 ->
  (collection_count t + 1) * thumb_height t < 2 ^ 31 ->
  0 <= rowid < collection_count t ->
  _rowid_to_position t rowid (0, 0) = Ok (x, y) ->
  - (rowid * thumb_width t) <= x <= rowid * thumb_width t
  /\ - (rowid * thumb_height t) <= y <= rowid * thumb_height t.
Proof.
  intros Hw Hh Hbw Hbh Hr H. unfold _rowid_to_position in H.
  assert (forall k, - rowid <= k <= rowid ->
            fits_int (k * thumb_width t) /\ fits_int (k * thumb_height t)) as Hfit.
  { intros k Hk. unfold fits_int. change (2 ^ 31) with 2147483648 in *. split; nia. }
  destruct (mode t).
  - injection H as <- <-. split; nia.
  - destruct (Z.eqb_spec (thumbs_per_row t) 0) as [|Hc]; [discriminate|].
    assert (- rowid <= Z.rem rowid (thumbs_per_row t) <= rowid
            /\ - rowid <= Z.quot rowid (thumbs_per_row t) <= rowid) as [Hrem Hquot].
    { destruct (Z.lt_total 0 (thumbs_per_row t)) as [Hpos | [Hz | Hneg]]; [|lia|].
      - pose proof (Z.rem_bound_pos rowid (thumbs_per_row t) ltac:(lia) Hpos).
        pose proof (Z.quot_pos rowid (thumbs_per_row t) ltac:(lia) Hpos).
        pose proof (Z.quot_rem' rowid (thumbs_per_row t)). split; nia.
      - pose proof (Z.rem_bound_pos rowid (- thumbs_per_row t) ltac:(lia) ltac:(lia)) as H1.
        pose proof (Z.quot_pos rowid (- thumbs_per_row t) ltac:(lia) ltac:(lia)) as H2.
        pose proof (Z.quot_rem' rowid (- thumbs_per_row t)) as H3.
        rewrite Z.rem_opp_r in H1, H3 by lia. rewrite Z.quot_opp_r in H2, H3 by lia.
        split; nia. }
    destruct (Hfit _ Hrem) as [Hx _]. destruct (Hfit _ Hquot) as [_ Hy].
    rewrite !int_wrap_fits in H by assumption. injection H as <- <-. split; nia.
  - destruct (Hfit rowid ltac:(lia)) as [Hx _].
    rewrite int_wrap_fits in H by assumption. injection H as <- <-. split; nia.
Qed.

(** X21: when [dt_thumbtable_scroll_to_imgid] asks for a scroll, the image is at
    the position [_imgid_to_rowid] gives, the position recorded in the
    table is the middle of its thumbnail, and a viewport of the size of the
    view placed at the values asked for contains the whole thumbnail, as
    long as the thumbnail is not larger than the view and the collection,
    laid out in one line of thumbnails, stays within the range of [int]. *)
Theorem scroll_request_contains_thumbnail (t t' : dt_thumbtable_t) (imgid ret v h : Z) :
  0 <= thumb_width t <= view_width t ->
  0 <= thumb_height t <= view_height t ->
  (collection_count t + 1) * thumb_width t < 2 ^ 31 ->
  (collection_count t + 1) * thumb_height t < 2 ^ 31 ->
  dt_thumbtable_scroll_to_imgid t imgid = Ok (ret, t', Some (v, h)) ->
  exists rowid x y,
    _imgid_to_rowid t imgid = Ok rowid
    /\ 0 <= rowid < collection_count t
    /\ _rowid_to_position t rowid (0, 0) = Ok (x, y)
    /\ t' = set_y_position (y + Z.quot (thumb_height t) 2)
              (set_x_position (x + Z.quot (thumb_width t) 2) t)
    /\ v <= y /\ y + thumb_height t <= v + view_height t
    /\ h <= x /\ x + thumb_width t <= h + view_width t.
Proof.
  intros Hw Hh Hbw Hbh H. unfold dt_thumbtable_scroll_to_imgid in H.
  destruct (negb (collection_inited t) || (imgid <? 0)); [discriminate|].
  ok_bind H as rowid Hr. destruct (Z.eqb_spec rowid (-1)); [discriminate|].
  ok_bind H as [x y] Hp.
  assert (_imgid_to_rowid t imgid = Ok rowid /\ 0 <= rowid < collection_count t) as [Hr' Hin].
  { unfold _imgid_to_rowid. destruct (lut t) as [l|].
    - split; [done|]. apply lut_search_range in Hr. lia.
    - destruct (collection_count t >? 0); [discriminate|]. injection Hr as <-. done. }
  destruct (rowid_to_position_bounds t rowid x y ltac:(lia) ltac:(lia) Hbw Hbh Hin Hp)
    as [Hx Hy].
  pose proof (Z.div_mod (thumb_height t) 2 ltac:(lia)).
  pose proof (Z.div_mod (view_height t) 2 ltac:(lia)).
  pose proof (Z.div_mod (thumb_width t) 2 ltac:(lia)).
  pose proof (Z.div_mod (view_width t) 2 ltac:(lia)).
  pose proof (Z.mod_pos_bound (thumb_height t) 2 ltac:(lia)).
  pose proof (Z.mod_pos_bound (view_height t) 2 ltac:(lia)).
  pose proof (Z.mod_pos_bound (thumb_width t) 2 ltac:(lia)).
  pose proof (Z.mod_pos_bound (view_width t) 2 ltac:(lia)).
  pose proof (Z.div_le_mono (thumb_height t) (view_height t) 2 ltac:(lia) ltac:(lia)).
  pose proof (Z.div_le_mono (thumb_width t) (view_width t) 2 ltac:(lia) ltac:(lia)).
  rewrite !Z.quot_div_nonneg in * by lia.
  rewrite !int_wrap_fits in H
    by (unfold fits_int; change (2 ^ 31) with 2147483648 in *; nia).
  injection H as _ <- <- <-.
  exists rowid, x, y.
  split; [done|]. split; [done|]. split; [done|]. split; [done|].
  repeat split; try lia.
Qed.

Lemma scroll_request_contains_thumbnail_witness :
  exists t' rowid x y,
    dt_thumbtable_scroll_to_imgid strip100 93 = Ok (0, t', Some (0, 8750))
    /\ _imgid_to_rowid strip100 93 = Ok rowid
    /\ _rowid_to_position strip100 rowid (0, 0) = Ok (x, y)
    /\ 8750 <= x /\ x + 100 <= 8750 + 1000.
Proof.
  assert (exists t', dt_thumbtable_scroll_to_imgid strip100 93
                     = Ok (0, t', Some (0, 8750))) as (t' & H)
    by (eexists; vm_compute; reflexivity).
  destruct (scroll_request_contains_thumbnail strip100 t' 93 0 _ _
              ltac:(vm_compute; split; intros [=]) ltac:(vm_compute; split; intros [=])
              ltac:(vm_compute; reflexivity) ltac:(vm_compute; reflexivity) H)
    as (rowid & x & y & Hr & _ & Hp & _ & _ & _ & Hx1 & Hx2).
  exists t', rowid, x, y. split; [exact H|]. split; [exact Hr|]. split; [exact Hp|].
  split; [exact Hx1 | exact Hx2].
Defined.

(** ** Sizing the grid and drawing *)

Section Configure.

Implicit Types t : dt_thumbtable_t.

Lemma update_twice mouse_over mouse_over' t t' :
  dt_thumbtable_update mouse_over t = Ok t' ->
  dt_thumbtable_update mouse_over' t' = Ok t'.
Proof.
  intros H. destruct (update_runs t) eqn:Hr.
  - apply update_skipped. apply (update_ends_inited _ _ _ Hr) in H.
    unfold update_runs. rewrite H. simpl. by rewrite andb_false_r.
  - rewrite (update_skipped _ _ Hr) in H. injection H as <-. by apply update_skipped.
Qed.

Lemma update_row_ids_fields t t' :
  _update_row_ids t = Ok t' ->
  t' = t \/ exists lo hi, t' = set_thumbs_inited false (set_max_row_id hi (set_min_row_id lo t)).
Proof.
  unfold _update_row_ids. intros H. ok_bind H as [b [lo hi]] Hget.
  destruct (negb _ || negb _); injection H as <-; eauto.
Qed.

Lemma update_grid_area_fields t t' :
  configured t' = configured t -> collection_inited t' = collection_inited t ->
  mode t' = mode t -> thumbs_per_row t' = thumbs_per_row t ->
  collection_count t' = collection_count t -> thumb_height t' = thumb_height t ->
  _update_grid_area t' = _update_grid_area t.
Proof. unfold _update_grid_area. by intros -> -> -> -> -> ->. Qed.

(** With a view of 32 pixels or more each way, [configure_with] leaves the
    sizes it was given in the table. *)
Lemma configure_with_sizes t new_width new_height cols tc request :
  32 <= new_width -> 32 <= new_height ->
  mode t <> DT_THUMBTABLE_MODE_NONE ->
  (mode t = DT_THUMBTABLE_MODE_FILEMANAGER -> cols <> 0) ->
  configure_with t new_width new_height cols = Ok (tc, request) ->
  mode tc = mode t
  /\ view_width tc = new_width /\ view_height tc = new_height
  /\ (mode t = DT_THUMBTABLE_MODE_FILEMANAGER -> thumbs_per_row tc = cols)
  /\ (thumbs_inited tc = true
      \/ exists r, _update_grid_area tc = Ok r /\ _update_row_ids tc = Ok tc).
Proof.
  intros Hw Hh Hnone Hcols H. unfold configure_with in H. ok_bind H as ta Ha.
  assert (mode ta = mode t /\ view_width ta = new_width /\ view_height ta = new_height
          /\ (mode t = DT_THUMBTABLE_MODE_FILEMANAGER -> thumbs_per_row ta = cols))
    as (Hm & Hvw & Hvh & Hpr).
  { destruct (_ || _ || _) eqn:Hchanged.
    - unfold _grid_configure in Ha.
      destruct (Z.ltb_spec new_width 32); [lia|]. destruct (Z.ltb_spec new_height 32); [lia|].
      simpl in Ha. destruct (mode t) eqn:Hmode; [done | |].
      + destruct (Z.eqb_spec cols 0); [by specialize (Hcols eq_refl)|].
        ok_bind Ha as tw Htw. injection Ha as <-. by repeat split.
      + injection Ha as <-. by repeat split.
    - injection Ha as <-. apply orb_false_elim in Hchanged as [Hchanged Hc3].
      apply orb_false_elim in Hchanged as [Hc1 Hc2].
      apply negb_false_iff, Z.eqb_eq in Hc3.
      destruct (Z.gtb_spec new_width 0); [|lia]. destruct (Z.gtb_spec new_height 0); [|lia].
      simpl in Hc1, Hc2. apply negb_false_iff, Z.eqb_eq in Hc1.
      apply negb_false_iff, Z.eqb_eq in Hc2. by repeat split. }
  destruct (thumbs_inited ta) eqn:Hinit; simpl in H.
  - injection H as <- <-. repeat split; auto.
  - ok_bind H as r Hr. ok_bind H as t2 Hids. injection H as <- <-.
    pose proof (update_row_ids_again _ _ Hids) as Hagain.
    apply update_row_ids_fields in Hids as [-> | (lo & hi & ->)].
    + repeat split; eauto.
    + simpl. repeat split; auto. right. exists r. split; [|done].
      rewrite <- Hr. by apply update_grid_area_fields.
Qed.

(** A table that holds the sizes [configure_with] is given, and whose
    thumbnails are initialised or whose window is up to date, comes back
    as it is. *)
Lemma configure_with_stable t new_width new_height cols :
  view_width t = new_width -> view_height t = new_height -> thumbs_per_row t = cols ->
  (thumbs_inited t = true
   \/ exists r, _update_grid_area t = Ok r /\ _update_row_ids t = Ok t) ->
  exists r, configure_with t new_width new_height cols = Ok (t, r).
Proof.
  intros <- <- <- Hsettled. unfold configure_with. rewrite !Z.eqb_refl. simpl.
  rewrite !andb_false_r. simpl.
  destruct Hsettled as [-> | (r & Hr & Hids)]; simpl; [eauto|].
  destruct (thumbs_inited t); simpl; [eauto|]. rewrite Hr. simpl. rewrite Hids. simpl. eauto.
Qed.

End Configure.

(** X22: drawing twice is drawing once: when the view is at least 32 pixels each
    way and the number of images in a row is not zero, a second call of
    [_draw_callback] with the same sizes leaves the table as the first call
    left it, whatever the table was and wherever the mouse is. *)
Theorem draw_callback_idempotent (t t1 : dt_thumbtable_t) (g : gtk_sizes)
    (mouse_over mouse_over' : Z) :
  (mode t = DT_THUMBTABLE_MODE_FILEMANAGER ->
   32 <= center_width g - vscrollbar_width g /\ 32 <= center_height g
   /\ images_in_row g <> 0) ->
  (mode t = DT_THUMBTABLE_MODE_FILMSTRIP ->
   32 <= filmstrip_width g /\ 32 <= bottom_size g - hscrollbar_height g) ->
  _draw_callback t g mouse_over = Ok t1 ->
  _draw_callback t1 g mouse_over' = Ok t1.
Proof.
  intros Hgrid Hstrip H. unfold _draw_callback in H. ok_bind H as [tc r] Hc.
  pose proof (update_twice _ mouse_over' _ _ H) as Htwice.
  pose proof (geometry_update _ _ _ H) as Hg. unfold geometry in Hg.
  injection Hg; intros _ _ _ _ _ _ _ _ _ _ _ _ Hvh Hvw Hcols Hmode.
  assert (thumbs_inited t1 = true \/ t1 = tc) as Hcase.
  { destruct (update_runs tc) eqn:Hr.
    - left. by eapply update_ends_inited.
    - right. rewrite (update_skipped _ _ Hr) in H. by injection H. }
  assert (exists r', dt_thumbtable_configure t1 g = Ok (t1, r')) as [r' Hc'].
  { unfold dt_thumbtable_configure in *. destruct (mode t) eqn:Hm.
    - injection Hc as <- <-. rewrite Hmode, Hm. eauto.
    - destruct (Hgrid eq_refl) as (Hw & Hh & Hn).
      apply configure_with_sizes in Hc as (Hm' & Hvw' & Hvh' & Hpr' & Hsettled);
        [|done|done|by rewrite Hm|done].
      specialize (Hpr' Hm).
      rewrite Hmode, Hm', Hm. apply configure_with_stable; [congruence..|].
      destruct Hcase as [?| ->]; [by left | done].
    - destruct (Hstrip eq_refl) as (Hw & Hh).
      apply configure_with_sizes in Hc as (Hm' & Hvw' & Hvh' & Hpr' & Hsettled);
        [|done|done|by rewrite Hm|by rewrite Hm].
      rewrite Hmode, Hm', Hm. apply configure_with_stable; [congruence..|done|].
      destruct Hcase as [?| ->]; [by left | done]. }
  unfold _draw_callback. rewrite Hc'. simpl. done.
Qed.

Lemma draw_callback_idempotent_witness :
  exists t1,
    _draw_callback grid12_replaced
      {| center_width := 1000; center_height := 700; vscrollbar_width := 20;
         images_in_row := 5; filmstrip_width := 0; bottom_size := 0;
         hscrollbar_height := 0 |} 33 = Ok t1
    /\ thumb_width t1 = 196
    /\ _draw_callback t1
         {| center_width := 1000; center_height := 700; vscrollbar_width := 20;
            images_in_row := 5; filmstrip_width := 0; bottom_size := 0;
            hscrollbar_height := 0 |} (-1) = Ok t1.
Proof.
  set (g := {| center_width := 1000; center_height := 700; vscrollbar_width := 20;
               images_in_row := 5; filmstrip_width := 0; bottom_size := 0;
               hscrollbar_height := 0 |}).
  assert (mode grid12_replaced = DT_THUMBTABLE_MODE_FILEMANAGER) as Hm
    by (vm_compute; reflexivity).
  assert (exists t1, _draw_callback grid12_replaced g 33 = Ok t1 /\ thumb_width t1 = 196)
    as (t1 & H & Hw) by (eexists; split; vm_compute; reflexivity).
  exists t1. split; [exact H|]. split; [exact Hw|].
  apply (draw_callback_idempotent grid12_replaced t1 g 33 (-1)); [| |exact H].
  - intros _. vm_compute. repeat split; intros [=].
  - rewrite Hm. intros [=].
Defined.

(** X23: with a view under 32 pixels one way, [dt_thumbtable_configure] never
    settles: [_grid_configure] returns before it records the sizes, so that
    every call that finds a size or a number of columns unlike the recorded
    one asks for a new cycle and leaves the table ready to do so again. *)
Theorem configure_under_32_never_settles (t tc : dt_thumbtable_t)
    (new_width new_height cols : Z) (request : option (Z * Z)) :
  new_width < 32 \/ new_height < 32 ->
  (0 < new_width /\ new_width <> view_width t)
  \/ (0 < new_height /\ new_height <> view_height t)
  \/ cols <> thumbs_per_row t ->
  configure_with t new_width new_height cols = Ok (tc, request) ->
  thumbs_inited tc = false
  /\ view_width tc = view_width t /\ view_height tc = view_height t
  /\ thumbs_per_row tc = thumbs_per_row t
  /\ configured tc = configured t.
Proof.
  intros Hsmall Hchanged H. unfold configure_with in H.
  assert (((new_width >? 0) && negb (new_width =? view_width t))
          || ((new_height >? 0) && negb (new_height =? view_height t))
          || negb (cols =? thumbs_per_row t) = true) as E.
  { destruct Hchanged as [[H1 H2] | [[H1 H2] | H1]].
    - apply orb_true_iff. left. apply orb_true_iff. left. apply andb_true_iff.
      split; [lia|]. apply negb_true_iff. lia.
    - apply orb_true_iff. left. apply orb_true_iff. right. apply andb_true_iff.
      split; [lia|]. apply negb_true_iff. lia.
    - apply orb_true_iff. right. apply negb_true_iff. lia. }
  rewrite E in H. unfold _grid_configure in H.
  assert ((new_width <? 32) || (new_height <? 32) = true) as E'.
  { apply orb_true_iff. destruct Hsmall; [left | right]; lia. }
  rewrite E' in H. simpl in H. ok_bind H as r Hr. ok_bind H as t2 Hids. injection H as <- <-.
  apply update_row_ids_fields in Hids as [-> | (lo & hi & ->)]; by repeat split.
Qed.

Lemma configure_under_32_never_settles_witness :
  exists tc request,
    configure_with grid12_loaded 20 300 3 = Ok (tc, request)
    /\ thumbs_inited tc = false /\ view_width tc = 300
    /\ configure_with tc 20 300 3 = Ok (tc, request).
Proof.
  assert (exists tc request, configure_with grid12_loaded 20 300 3 = Ok (tc, request)
                             /\ view_width tc = 300
                             /\ configure_with tc 20 300 3 = Ok (tc, request))
    as (tc & request & H & Hw & H')
    by (eexists _, _; split; [vm_compute; reflexivity|]; split; vm_compute; reflexivity).
  exists tc, request. split; [exact H|].
  destruct (configure_under_32_never_settles grid12_loaded tc 20 300 3 request) as (Hi & _).
  - left. reflexivity.
  - left. vm_compute. split; [reflexivity | intros [=]].
  - exact H.
  - split; [exact Hi|]. split; [exact Hw | exact H'].
Defined.

(** ** A session of scrolls, draws, hovers and keys *)

Section Session.

Implicit Types t : dt_thumbtable_t.














End Session.



(** ** Hazards of a change of collection *)

Section Hazards.

Implicit Types t : dt_thumbtable_t.

Lemma lut_at_fault_ids t t' i f :
  lut_ids t' = lut_ids t -> lut_at t i = Fault f -> exists f', lut_at t' i = Fault f'.
Proof.
  intros Hids Hf. destruct (lut_at t' i) as [e'|f'] eqn:E; [|eauto].
  destruct (lut_at_ids t' t i e' (eq_sym Hids) E) as (e & He & _). congruence.
Qed.

(** The garbage collection stops with a fault when a link points to a
    thumbnail whose row id is no position of the look-up table. *)
Lemma gc_loop_out_of_table links : forall t n p th f,
  Some p ∈ links -> deref (mem t) p = Ok th -> lut_at t (th_rowid th) = Fault f ->
  exists f', gc_loop links t n = Fault f'.
Proof.
  induction links as [|[p0|] rest IH]; intros t n p th f Hp Hd Hout;
    [by apply elem_of_nil in Hp | | simpl; eauto].
  simpl. destruct (deref (mem t) p0) as [thumb|f0] eqn:Hd0; [|simpl; eauto]. simpl.
  destruct (is_in_collection t thumb) as [inc|f1] eqn:Hi; [|simpl; eauto]. simpl.
  assert (p <> p0) as Hne.
  { intros ->. rewrite Hd in Hd0. injection Hd0 as <-.
    unfold is_in_collection in Hi. rewrite Hout in Hi. discriminate. }
  apply elem_of_cons in Hp as [[=]|Hp]; [done|].
  destruct (if collect_garbage t n thumb && inc
            then lut_set_thumb t (th_rowid thumb) None else Ok t) as [t1|f2] eqn:Ht1;
    [|simpl; eauto].
  simpl.
  assert (lut_ids t1 = lut_ids t /\ mem t1 = mem t) as [Hids1 Hm1].
  { destruct (collect_garbage t n thumb && inc).
    - apply lut_set_thumb_spec in Ht1 as ((_ & _ & _ & _ & ? & _) & ? & _). done.
    - by injection Ht1 as <-. }
  destruct (lut_at_fault_ids t t1 _ f Hids1 Hout) as [f' Hout1].
  destruct (collect_garbage t n thumb || negb inc).
  - destruct (dt_thumbnail_destroy (mem t1) p0) as [m'|f3] eqn:Hdes; [|simpl; eauto]. simpl.
    rewrite Hm1 in Hdes. apply destroy_spec in Hdes as (_ & Hother & _).
    apply (IH (set_mem m' t1) (n - 1) p th f'); [done | simpl; by rewrite Hother | done].
  - destruct (IH t1 n p th f' Hp ltac:(by rewrite Hm1) Hout1) as [f4 ->]. simpl. eauto.
Qed.

(** At a cell that points to no thumbnail, a turn of the loading loop puts
    a new thumbnail at the head of the list, or a NULL link. *)
Lemma populate_step_creates mouse_over i t n t' n' e :
  lut_at t i = Ok e -> lut_thumb e = None ->
  populate_step mouse_over i (t, n) = Ok (t', n') ->
  tlist t' = None :: tlist t
  \/ exists th, tlist t' = Some (length (mem t)) :: tlist t
                /\ deref (mem t') (length (mem t)) = Ok th
                /\ th_rowid th = i /\ th_imgid th = lut_imgid e.
Proof.
  intros He Hth H.
  unfold populate_step in H. rewrite He in H. simpl in H. rewrite Hth in H.
  destruct (dt_thumbnail_new (lut_imgid e) i (heap_script t) (mem t))
    as [[r script'] m'] eqn:Hnew.
  ok_bind H as [[[r' new_item] t1] num1] Hsel. ok_bind Hsel as t2 Hset.
  injection Hsel as <- <- <- <-.
  apply lut_set_thumb_spec in Hset as (_ & Hmem & Htl & _). simpl in *.
  destruct r as [p|]; [|left; injection H as <- <-; simpl; by rewrite Htl].
  right. apply deref_new in Hnew as (-> & _).
  ok_bind H as thumb Hd.
  destruct (negb (th_rowid thumb =? i) || negb (th_imgid thumb =? lut_imgid e)) eqn:Hassert;
    [discriminate|].
  apply orb_false_elim in Hassert as [Hrow Himg].
  apply negb_false_iff, Z.eqb_eq in Hrow. apply negb_false_iff, Z.eqb_eq in Himg.
  ok_bind H as thumb1 H1. injection H as <- <-.
  ok_bind H1 as [b th'] Hpos. injection H1 as <-.
  apply set_thumb_position_same_item in Hpos as [Hr Hi]. simpl in Hr, Hi.
  eexists. split; [simpl; by rewrite Htl|]. split; [by eapply deref_store_eq|]. simpl.
  split; congruence.
Qed.

(** The loading loop creates a thumbnail for every cell of its range that
    points to none, unless it leaves a NULL link in the list. *)
Lemma populate_loop_creates k mouse_over : forall i t n t' n' j e,
  i <= j < i + Z.of_nat k ->
  lut_at t j = Ok e -> lut_thumb e = None ->
  populate_loop k mouse_over i (t, n) = Ok (t', n') ->
  None ∉ tlist t' ->
  exists q th, Some q ∈ tlist t' /\ (length (mem t) <= q)%nat
               /\ deref (mem t') q = Ok th
               /\ th_rowid th = j /\ th_imgid th = lut_imgid e.
Proof.
  induction k as [|k IH]; intros i t n t' n' j e Hj He Hth H Hnn; [lia|].
  cbn [populate_loop] in H. ok_bind H as [t1 n1] Hstep.
  destruct (decide (j = i)) as [->|Hne].
  - apply populate_loop_spec in H as (_ & Hkeep & _ & _ & new & Hnew & _).
    destruct (populate_step_creates _ _ _ _ _ _ _ He Hth Hstep)
      as [Hl | (th & Hl & Hd & Hr & Hi)].
    + exfalso. apply Hnn. rewrite Hnew, Hl. apply elem_of_app. right.
      apply elem_of_cons. by left.
    + destruct (Hkeep _ _ Hd) as (th' & Hd' & Hr' & Hi').
      exists (length (mem t)), th'. split; [|split; [lia|split; [done|split; congruence]]].
      rewrite Hnew, Hl. apply elem_of_app. right. apply elem_of_cons. by left.
  - pose proof (populate_step_other_cells _ _ _ _ _ _ j Hstep Hne) as Hcell.
    apply populate_step_spec in Hstep as (_ & _ & _ & Hlen & _).
    destruct (IH (i + 1) t1 n1 t' n' j e) as (q & th & Hq & Hge & Hd & Hr & Hi);
      [lia | congruence | done | done | done |].
    exists q, th. split; [done|]. split; [lia|]. done.
Qed.

End Hazards.

(** X25: the hazard of a collection that shrinks: when the list still holds a
    thumbnail whose row id is no position of the look-up table, and no reset
    was asked for, a cycle never runs to its end: [_garbage_collection]
    reads [table->lut] at the row id of every listed thumbnail, before any
    test of the count. *)
Theorem update_with_thumbnail_out_of_table_faults (mouse_over : Z) (t : dt_thumbtable_t)
    (l : list dt_thumbtable_cache_t) (p : ptr) (th : dt_thumbnail_t) :
  update_runs t = true ->
  reset_collection t = false ->
  lut t = Some l ->
  Some p ∈ tlist t ->
  deref (mem t) p = Ok th ->
  th_rowid th < 0 \/ Z.of_nat (length l) <= th_rowid th ->
  exists f, dt_thumbtable_update mouse_over t = Fault f.
Proof.
  intros Hr Hreset Hl Hp Hd Hout. unfold dt_thumbtable_update. rewrite Hr, Hreset. simpl.
  destruct (_populate_thumbnails t mouse_over 0) as [[t2 n2]|f] eqn:Hpop; [|simpl; eauto].
  simpl. assert (list_is_null (tlist t) = false) as ->.
  { destruct (tlist t); [by apply elem_of_nil in Hp | done]. }
  simpl. apply populate_thumbnails_spec in Hpop
    as ((_ & _ & _ & _ & Hids & _) & Hkeep & _ & _ & new & Hnew & _).
  destruct (Hkeep _ _ Hd) as (th2 & Hd2 & Hrow & _).
  assert (exists f, lut_at t (th_rowid th) = Fault f) as [f Hf].
  { unfold lut_at, lut_get. rewrite Hl. destruct (Z.ltb_spec (th_rowid th) 0); [eauto|].
    destruct (l !! Z.to_nat (th_rowid th)) eqn:E; [|eauto].
    apply lookup_lt_Some in E. lia. }
  destruct (lut_at_fault_ids t t2 _ f Hids Hf) as [f2 Hf2]. rewrite Hrow in Hf2.
  unfold _garbage_collection.
  destruct (gc_loop_out_of_table (tlist t2) t2 n2 p th2 f2) as [f3 ->]; [|done|done|].
  - rewrite Hnew. apply elem_of_app. by right.
  - simpl. eauto.
Qed.

Lemma update_with_thumbnail_out_of_table_faults_witness :
  exists f, dt_thumbtable_update (-1) grid12_shrunk = Fault f.
Proof.
  assert (update_runs grid12_shrunk = true) as Hr by (vm_compute; reflexivity).
  assert (reset_collection grid12_shrunk = false) as Hreset by (vm_compute; reflexivity).
  assert (exists l, lut grid12_shrunk = Some l /\ length l = 6%nat) as (l & Hl & Hlen)
    by (eexists; split; vm_compute; reflexivity).
  assert (Some (8%nat) ∈ tlist grid12_shrunk) as Hp
    by (apply (bool_decide_unpack _); vm_compute; exact I).
  assert (exists th, deref (mem grid12_shrunk) 8%nat = Ok th /\ th_rowid th = 8)
    as (th & Hd & Hrow) by (eexists; split; vm_compute; reflexivity).
  apply (update_with_thumbnail_out_of_table_faults (-1) grid12_shrunk l 8%nat th
           Hr Hreset Hl Hp Hd).
  right. rewrite Hlen, Hrow. intros [=].
Defined.

(** X26: what a change of collection without a reset does to an image that
    keeps its position: the rebuild of the look-up table leaves the cell
    pointing to no thumbnail, so that the cycle creates a second thumbnail
    for the image, and the garbage collection keeps the first one, which is
    the thumbnail of that image at that position; both are in the list
    after the cycle, and both are alive. *)
Theorem update_after_rebuild_duplicates (mouse_over : Z) (t t' : dt_thumbtable_t)
    (p : ptr) (th : dt_thumbnail_t) (e : dt_thumbtable_cache_t) :
  update_runs t = true ->
  reset_collection t = false ->
  Some p ∈ tlist t ->
  deref (mem t) p = Ok th ->
  lut_at t (th_rowid th) = Ok e ->
  lut_imgid e = th_imgid th ->
  lut_thumb e = None ->
  Z.max (min_row_id t) 0 <= th_rowid th < Z.min (max_row_id t) (collection_count t) ->
  dt_thumbtable_update mouse_over t = Ok t' ->
  exists q thp thq,
    q <> p
    /\ Some p ∈ tlist t' /\ Some q ∈ tlist t'
    /\ deref (mem t') p = Ok thp /\ deref (mem t') q = Ok thq
    /\ same_item th thp /\ same_item th thq.
Proof.
  intros Hr Hreset Hp Hd He Hie Hnone Hwin H.
  destruct (update_steps _ _ _ Hr H)
    as (t1 & t2 & n2 & t3 & n3 & _ & Hcase & _ & _ & Hpop & Hgc & ->).
  destruct Hcase as [(Hyes & _) | (_ & ->)]; [congruence|].
  destruct Hgc as [(Hnil & _) | (_ & tg & Hg & Hres)];
    [rewrite Hnil in Hp; by apply elem_of_nil in Hp|].
  pose proof (populate_thumbnails_spec _ _ _ _ _ Hpop)
    as ((_ & Hnb2 & Hmin2 & Hmax2 & Hids2 & _) & Hkeep2 & _ & _ & new & Hnew & _).
  unfold _populate_thumbnails in Hpop.
  destruct (Z.min (max_row_id t) (collection_count t) <? 0); [discriminate|].
  assert (Z.max (min_row_id t) 0 <= th_rowid th
          < Z.max (min_row_id t) 0
            + Z.of_nat (Z.to_nat (Z.min (max_row_id t) (collection_count t)
                                  - Z.max (min_row_id t) 0))) as Hrange by lia.
  unfold _garbage_collection in Hg. ok_bind Hg as [[kept tc] nc] Hloop.
  injection Hg as <- <-.
  pose proof (gc_loop_links _ _ _ _ _ _ Hloop) as (Hnonull & _).
  destruct (populate_loop_creates _ _ _ _ _ _ _ (th_rowid th) e Hrange He Hnone Hpop Hnonull)
    as (q & thq & Hq & Hge & Hdq & Hrq & Hiq).
  destruct (Hkeep2 _ _ Hd) as (th2 & Hd2 & Hr2 & Hi2).
  assert (q <> p) as Hne by (apply deref_lt in Hd; lia).
  assert (forall x, th_rowid x = th_rowid th -> th_imgid x = th_imgid th ->
                    kept_by t2 n2 x) as Hkept.
  { intros x Hrx Hix. split.
    - unfold collect_garbage. rewrite Hmin2, Hmax2, Hrx. apply andb_false_iff. right.
      apply orb_false_intro.
      + destruct (Z.ltb_spec (th_rowid th) (min_row_id t)); [lia | done].
      + destruct (Z.gtb_spec (th_rowid th) (max_row_id t)); [lia | done].
    - unfold is_in_collection. rewrite Hrx.
      destruct (lut_at_ids t t2 _ e Hids2 He) as (e2 & -> & Hie2). simpl.
      f_equal. apply Z.eqb_eq. congruence. }
  pose proof (gc_loop_keeps_link _ _ _ _ _ _ Hloop) as Hlink.
  apply gc_loop_spec in Hloop as (_ & _ & _ & _ & Hkeepc & _).
  apply resize_loop_spec in Hres as (_ & Hlr & Hkr & _). simpl in *.
  assert (Some p ∈ tlist t2) as Hp2 by (rewrite Hnew; apply elem_of_app; by right).
  pose proof (Hkeepc _ _ Hd2 (Hkept th2 ltac:(congruence) ltac:(congruence))) as Hdpc.
  pose proof (Hkeepc _ _ Hdq (Hkept thq ltac:(congruence) ltac:(congruence))) as Hdqc.
  destruct (Hkr _ _ Hdpc) as (thp' & Hdp' & Hrp' & Hip').
  destruct (Hkr _ _ Hdqc) as (thq' & Hdq' & Hrq' & Hiq').
  exists q, thp', thq'. split; [done|]. rewrite Hlr.
  split; [apply (Hlink p th2 Hp2 Hd2), Hkept; congruence|].
  split; [apply (Hlink q thq Hq Hdq), Hkept; congruence|].
  split; [done|]. split; [done|]. split; split; congruence.
Qed.

Lemma update_after_rebuild_duplicates_witness :
  exists t' q thp thq,
    dt_thumbtable_update (-1) grid12_refetched = Ok t'
    /\ length (tlist t') = 18%nat
    /\ q <> 4%nat /\ Some (4%nat) ∈ tlist t' /\ Some q ∈ tlist t'
    /\ deref (mem t') 4%nat = Ok thp /\ deref (mem t') q = Ok thq
    /\ same_item (sample_thumb 15 4 100 100 100 100) thp
    /\ same_item (sample_thumb 15 4 100 100 100 100) thq.
Proof.
  assert (update_runs grid12_refetched = true) as Hr by (vm_compute; reflexivity).
  assert (reset_collection grid12_refetched = false) as Hreset by (vm_compute; reflexivity).
  assert (Some (4%nat) ∈ tlist grid12_refetched) as Hp
    by (apply (bool_decide_unpack _); vm_compute; exact I).
  assert (deref (mem grid12_refetched) 4%nat = Ok (sample_thumb 15 4 100 100 100 100)) as Hd
    by (vm_compute; reflexivity).
  assert (lut_at grid12_refetched 4 = Ok {| lut_imgid := 15; lut_thumb := None |}) as He
    by (vm_compute; reflexivity).
  assert (Z.max (min_row_id grid12_refetched) 0 <= 4
          < Z.min (max_row_id grid12_refetched) (collection_count grid12_refetched)) as Hwin
    by (vm_compute; split; [intros [=] | reflexivity]).
  assert (exists t', dt_thumbtable_update (-1) grid12_refetched = Ok t'
                     /\ length (tlist t') = 18%nat) as (t' & H & Hlen)
    by (eexists; split; vm_compute; reflexivity).
  destruct (update_after_rebuild_duplicates (-1) grid12_refetched t' 4%nat
              (sample_thumb 15 4 100 100 100 100) _ Hr Hreset Hp Hd He eq_refl eq_refl Hwin H)
    as (q & thp & thq & Hne & Hp' & Hq' & Hdp & Hdq & Hsp & Hsq).
  exists t', q, thp, thq. split; [exact H|]. split; [exact Hlen|]. split; [exact Hne|].
  split; [exact Hp'|]. split; [exact Hq'|]. split; [exact Hdp|]. split; [exact Hdq|].
  split; [exact Hsp | exact Hsq].
Defined.

(** ** Hazards of an allocation that fails *)

(** The garbage collection stops with a fault when a link is NULL. *)
Lemma gc_loop_null (links : list (option ptr)) : forall (t : dt_thumbtable_t) n,
  None ∈ links -> exists f, gc_loop links t n = Fault f.
Proof.
  induction links as [|[p|] rest IH]; intros t n Hn;
    [by apply elem_of_nil in Hn | | simpl; eauto].
  apply elem_of_cons in Hn as [[=]|Hn]. simpl.
  destruct (deref (mem t) p) as [thumb|f0]; [|simpl; eauto]. simpl.
  destruct (is_in_collection t thumb) as [inc|f1]; [|simpl; eauto]. simpl.
  destruct (if collect_garbage t n thumb && inc
            then lut_set_thumb t (th_rowid thumb) None else Ok t) as [t1|f2];
    [|simpl; eauto].
  simpl. destruct (collect_garbage t n thumb || negb inc).
  - destruct (dt_thumbnail_destroy (mem t1) p) as [m'|f3]; [|simpl; eauto]. simpl.
    by apply IH.
  - destruct (IH t1 n Hn) as [f4 ->]. simpl. eauto.
Qed.

(** X28: the hazard of an allocation that fails: [_populate_thumbnails]
    prepends the NULL it got to the list and counts it, and a cycle that
    finds a NULL link in the list, without a request for a reset, never
    runs to its end: [_garbage_collection] reads the row id through every
    link. *)
Theorem update_with_null_link_faults (mouse_over : Z) (t : dt_thumbtable_t) :
  update_runs t = true ->
  reset_collection t = false ->
  None ∈ tlist t ->
  exists f, dt_thumbtable_update mouse_over t = Fault f.
Proof.
  intros Hr Hreset Hn. unfold dt_thumbtable_update. rewrite Hr, Hreset. simpl.
  destruct (_populate_thumbnails t mouse_over 0) as [[t2 n2]|f] eqn:Hpop; [|simpl; eauto].
  simpl. assert (list_is_null (tlist t) = false) as ->.
  { destruct (tlist t); [by apply elem_of_nil in Hn | done]. }
  simpl. apply populate_thumbnails_spec in Hpop as (_ & _ & _ & _ & new & Hnew & _).
  unfold _garbage_collection.
  destruct (gc_loop_null (tlist t2) t2 n2) as [f ->]; [|simpl; eauto].
  rewrite Hnew. apply elem_of_app. by right.
Qed.

Lemma update_with_null_link_faults_witness :
  exists t',
    dt_thumbtable_update (-1) grid12_starved = Ok t'
    /\ tlist t' !! 7%nat = Some None
    /\ length (tlist t') = 9%nat /\ thumb_nb t' = 9
    /\ lut_at t' 1 = Ok {| lut_imgid := 12; lut_thumb := None |}
    /\ exists f, dt_thumbtable_update (-1) (set_thumbs_inited false t') = Fault f.
Proof.
  assert (exists t',
            dt_thumbtable_update (-1) grid12_starved = Ok t'
            /\ tlist t' !! 7%nat = Some None
            /\ length (tlist t') = 9%nat /\ thumb_nb t' = 9
            /\ lut_at t' 1 = Ok {| lut_imgid := 12; lut_thumb := None |}
            /\ update_runs (set_thumbs_inited false t') = true
            /\ reset_collection (set_thumbs_inited false t') = false)
    as (t' & H & Hnull & Hlen & Hnb & Hcell & Hr & Hreset).
  { eexists. split; [vm_compute; reflexivity|].
    split; [vm_compute; reflexivity|]. split; [vm_compute; reflexivity|].
    split; [vm_compute; reflexivity|]. split; [vm_compute; reflexivity|].
    split; vm_compute; reflexivity. }
  exists t'. split; [exact H|]. split; [exact Hnull|]. split; [exact Hlen|].
  split; [exact Hnb|]. split; [exact Hcell|].
  apply (update_with_null_link_faults (-1) (set_thumbs_inited false t') Hr Hreset).
  apply list_elem_of_lookup. exists 7%nat. exact Hnull.
Defined.
